(** * Error-Handler: the AppError value model and its construction pipeline

    A shallow embedding of
      - src/utils/localization.js   (ensureLocalizedText, cloneLocalizedMessages)
      - src/utils/deep-merge.js     (isObject, deepMerge)
      - src/constants.js            (ERROR_TYPES, ERROR_LEVELS, defaults)
      - src/app-error.js            (normalizers, the AppError class)
      - src/app-error.builder.js    (createAppErrorBuilder and its setters)
      - src/helpers/factories.js    (the typed factories over the builder)
      - src/plugins/vue.js          (toBooleanMap)

    JavaScript values are modelled as trees.  Every array and object node
    carries the flag that [Object.freeze] sets, and every object its class,
    so that [instanceof] and the shallow freezes of the constructor can be
    followed.  Object identity and sharing, which the tree model cannot
    express, are modelled in module [Heap], where [deepMerge] runs against
    an explicit store of cells.

    The values covered are undefined, null, booleans, integer-valued
    numbers and NaN, strings, dates, arrays, plain objects, native errors
    and AppError instances.  Functions, symbols, accessors, proxies and
    objects with a changed prototype are outside the model; so are array
    holes.  The clock, the date parser, the string form of objects and
    stack capture belong to the host and are parameters ([platform]). *)

From Stdlib Require Import ZArith String Ascii List Bool Lia.
From stdpp Require Import base option list gmap strings pretty.

Local Open Scope string_scope.
Local Open Scope Z_scope.

(** ** JavaScript values *)

Module JS.

(** The classes the code distinguishes with [instanceof]: plain objects,
    native [Error] instances and [AppError] instances (which extend
    [Error]). *)
Inductive cls := CObject | CError | CAppError.

(** Numbers are integer valued or [NaN]: the code never does arithmetic
    on them, it only tests, copies and formats them.  Strings are
    sequences of 8-bit code units.  A [Date] is its time value in epoch
    milliseconds, [None] for an invalid date, with the flag of
    [Object.freeze].  Properties are kept in
    insertion order. *)
#[local] Unset Elimination Schemes.
Inductive value :=
| VUndefined
| VNull
| VBool (b : bool)
| VNum (n : Z)
| VNaN
| VStr (s : string)
| VDate (frozen : bool) (t : option Z)
| VArr (frozen : bool) (elems : list value)
| VObj (c : cls) (frozen : bool) (props : list (string * value)).
#[local] Set Elimination Schemes.

Definition props_t := list (string * value).

(** Plain object and array literals. *)
Definition obj (ps : props_t) : value := VObj CObject false ps.
Definition arr (xs : list value) : value := VArr false xs.

(** [new Error(message)], with the stack the engine recorded.  Both are
    own properties that are not enumerable; [name] is inherited. *)
Definition native_error (message stack : string) : value :=
  VObj CError false [("message", VStr message); ("stack", VStr stack)].

(** *** Property lists *)

Fixpoint lookup_prop (k : string) (ps : props_t) : option value :=
  match ps with
  | [] => None
  | (k', v) :: ps' => if String.eqb k k' then Some v else lookup_prop k ps'
  end.

(** [o[k] = v] on the property list of an extensible object: an existing
    key keeps its position, a new key goes last. *)
Fixpoint set_prop (k : string) (v : value) (ps : props_t) : props_t :=
  match ps with
  | [] => [(k, v)]
  | (k', v') :: ps' =>
      if String.eqb k k' then (k, v) :: ps' else (k', v') :: set_prop k v ps'
  end.

Definition keys (ps : props_t) : list string := map fst ps.

(** *** Primitive tests *)

(** [v == null] *)
Definition nullish (v : value) : bool :=
  match v with VUndefined | VNull => true | _ => false end.

(** [a ?? b] *)
Definition coalesce (a b : value) : value := if nullish a then b else a.
Infix "??" := coalesce (at level 61, left associativity).

(** ToBoolean, as in [!v], [v ? a : b] and [filter(Boolean)]. *)
Definition truthy (v : value) : bool :=
  match v with
  | VUndefined | VNull | VNaN => false
  | VBool b => b
  | VNum n => negb (n =? 0)
  | VStr s => negb (String.eqb s "")
  | VDate _ _ | VArr _ _ | VObj _ _ _ => true
  end.

Inductive type_tag :=
  TUndefined | TObject | TBoolean | TNumber | TString.

(** [typeof v]; note [typeof null === "object"]. *)
Definition typeof (v : value) : type_tag :=
  match v with
  | VUndefined => TUndefined
  | VNull => TObject
  | VBool _ => TBoolean
  | VNum _ | VNaN => TNumber
  | VStr _ => TString
  | VDate _ _ | VArr _ _ | VObj _ _ _ => TObject
  end.

Definition type_tag_eqb (a b : type_tag) : bool :=
  match a, b with
  | TUndefined, TUndefined | TObject, TObject | TBoolean, TBoolean
  | TNumber, TNumber | TString, TString => true
  | _, _ => false
  end.

Definition is_string (v : value) : bool := type_tag_eqb (typeof v) TString.
Definition is_undefined (v : value) : bool :=
  match v with VUndefined => true | _ => false end.

(** [Array.isArray(v)] *)
Definition isArray (v : value) : bool :=
  match v with VArr _ _ => true | _ => false end.

(** [v instanceof Error] (an [AppError] is an [Error]). *)
Definition instanceof_Error (v : value) : bool :=
  match v with VObj CError _ _ | VObj CAppError _ _ => true | _ => false end.

Definition instanceof_AppError (v : value) : bool :=
  match v with VObj CAppError _ _ => true | _ => false end.

Definition instanceof_Date (v : value) : bool :=
  match v with VDate _ _ => true | _ => false end.

(** *** Property access *)

(** Properties found on [Error.prototype] when the instance has no own
    one. *)
Definition error_prototype (k : string) : value :=
  if String.eqb k "name" then VStr "Error"
  else if String.eqb k "message" then VStr ""
  else VUndefined.

(** [v[k]] for a value that is neither [null] nor [undefined], for the
    keys the code reads ([fa], [en], [message], [stack], ... and the keys
    of user mappings): none of them lives on the prototype of a
    primitive, an array, a date or a plain object. *)
Definition prop (v : value) (k : string) : value :=
  match v with
  | VObj CObject _ ps => default VUndefined (lookup_prop k ps)
  | VObj _ _ ps => default (error_prototype k) (lookup_prop k ps)
  | _ => VUndefined
  end.

(** [k in v] for an object [v]. *)
Definition has_prop (k : string) (v : value) : bool :=
  match v with
  | VObj CObject _ ps => bool_decide (is_Some (lookup_prop k ps))
  | VObj _ _ ps =>
      bool_decide (is_Some (lookup_prop k ps))
      || String.eqb k "name" || String.eqb k "message"
  | _ => false
  end.

(** Own properties of an [Error] instance that are not enumerable. *)
Definition enumerable (c : cls) (k : string) : bool :=
  match c with
  | CObject => true
  | CError | CAppError =>
      negb (String.eqb k "message" || String.eqb k "stack")
  end.

Fixpoint index_props {A} (f : A -> value) (i : nat) (xs : list A) : props_t :=
  match xs with
  | [] => []
  | x :: xs' => (pretty i, f x) :: index_props f (S i) xs'
  end.

(** The own enumerable properties of [v], as copied by a spread
    [{ ...v }] and listed by [Object.keys(v)]. *)
Definition own_enumerable (v : value) : props_t :=
  match v with
  | VObj c _ ps => List.filter (fun kv => enumerable c (fst kv)) ps
  | VArr _ xs => index_props (fun x => x) 0 xs
  | VStr s =>
      index_props (fun ch => VStr (String ch EmptyString)) 0
                  (list_ascii_of_string s)
  | _ => []
  end.

(** [Object.freeze(v)]: shallow, and the identity on primitives. *)
Definition freeze (v : value) : value :=
  match v with
  | VArr _ xs => VArr true xs
  | VObj c _ ps => VObj c true ps
  | VDate _ t => VDate true t
  | _ => v
  end.

(** [Object.isFrozen(v)] *)
Definition isFrozen (v : value) : bool :=
  match v with
  | VArr f _ => f
  | VObj _ f _ => f
  | VDate f _ => f
  | _ => true
  end.

(** *** Exceptions *)

Inductive exn := TypeError (msg : string).

Inductive outcome (A : Type) :=
| Ok (a : A)
| Throw (e : exn).
Arguments Ok {A} a.
Arguments Throw {A} e.

(** [v.k] where [v] may be [null] or [undefined]. *)
Definition get_prop (v : value) (k : string) : outcome value :=
  if nullish v
  then Throw (TypeError "Cannot read properties of null or undefined")
  else Ok (prop v k).

(** [v?.k] *)
Definition get_opt (v : value) (k : string) : value :=
  if nullish v then VUndefined else prop v k.

(** *** The host platform *)

(** What the engine supplies: the readings of the clock ([Date.now()],
    [new Date()]) in the order they are taken, the date parser, the
    string conversion of dates, arrays and objects, and stack capture. *)
Record platform := {
  clock : nat -> Z;
  Date_parse : string -> option Z;
  object_to_string : value -> string;
  captureStackTrace : option value;
  new_error_stack : value;
}.

(** ToString.  Integers print in decimal, as JavaScript prints them up
    to 10^21. *)
Definition to_string (P : platform) (v : value) : string :=
  match v with
  | VUndefined => "undefined"
  | VNull => "null"
  | VBool true => "true"
  | VBool false => "false"
  | VNum n => pretty n
  | VNaN => "NaN"
  | VStr s => s
  | _ => object_to_string P v
  end.

Definition max_time : Z := 8640000000000000.

(** The time value of [new Date(v)] for [v] that is not a [Date]. *)
Definition time_of (P : platform) (v : value) : option Z :=
  match v with
  | VUndefined | VNaN => None
  | VNull => Some 0
  | VBool b => Some (if b then 1 else 0)
  | VNum n => if (Z.abs n <=? max_time) then Some n else None
  | VStr s => Date_parse P s
  | VDate _ t => t
  | _ => Date_parse P (object_to_string P v)
  end.

(** *** Computations that read the clock and may throw *)

(** The state is the number of clock readings taken so far. *)
Definition M (A : Type) : Type := nat -> outcome (A * nat).

Definition ret {A} (a : A) : M A := fun t => Ok (a, t).
Definition throw {A} (e : exn) : M A := fun _ => Throw e.
Definition bind {A B} (m : M A) (k : A -> M B) : M B :=
  fun t => match m t with
           | Ok (a, t') => k a t'
           | Throw e => Throw e
           end.
Definition lift {A} (o : outcome A) : M A :=
  fun t => match o with Ok a => Ok (a, t) | Throw e => Throw e end.

(** [Date.now()] *)
Definition Date_now (P : platform) : M Z := fun t => Ok (clock P t, S t).

Fixpoint mapM {A B} (f : A -> M B) (xs : list A) : M (list B) :=
  match xs with
  | [] => ret []
  | x :: xs' =>
      bind (f x) (fun y => bind (mapM f xs') (fun ys => ret (y :: ys)))
  end.

(** *** Strings *)

(** WhiteSpace and LineTerminator code units below 256: TAB, LF, VT, FF,
    CR, SP and NBSP. *)
Definition is_white_space (c : ascii) : bool :=
  let n := nat_of_ascii c in
  ((9 <=? n) && (n <=? 13) || (n =? 32) || (n =? 160))%nat.

Fixpoint trimStart (s : string) : string :=
  match s with
  | EmptyString => EmptyString
  | String c s' => if is_white_space c then trimStart s' else s
  end.

Fixpoint trimEnd (s : string) : string :=
  match s with
  | EmptyString => EmptyString
  | String c s' =>
      match trimEnd s' with
      | EmptyString => if is_white_space c then EmptyString
                       else String c EmptyString
      | r => String c r
      end
  end.

(** [s.trim()] *)
Definition trim (s : string) : string := trimEnd (trimStart s).

End JS.

Export JS.
Notation "x <- c1 ;; c2" := (JS.bind c1 (fun x => c2))
  (at level 100, c1 at next level, right associativity).
Infix "??" := JS.coalesce (at level 61, left associativity).

(** ** src/constants.js *)

Module Constants.

Definition ERROR_TYPES : list string :=
  ["network"; "validation"; "mapping"; "permission"; "component";
   "environment"; "system"; "unknown"; "feature"].

Definition ERROR_LEVELS : list string :=
  ["debug"; "info"; "warn"; "error"; "fatal"].

Definition ERROR_LEVELS_ERROR : value := VStr "error".

Definition DEFAULT_LEVEL_BY_TYPE : value :=
  VObj CObject true
    [("network", VStr "error"); ("validation", VStr "warn");
     ("mapping", VStr "error"); ("permission", VStr "warn");
     ("component", VStr "error"); ("environment", VStr "fatal");
     ("system", VStr "error"); ("unknown", VStr "error");
     ("feature", VStr "info")].

Definition default_text : value :=
  VObj CObject true
    [("fa", VStr "خطایی رخ داده است");
     ("en", VStr "An unexpected error occurred")].

Definition DEFAULT_MESSAGES : value :=
  VObj CObject true [("user", default_text); ("original", default_text)].

(** One entry of [DEFAULT_TYPE_MESSAGES]: the frozen user and original
    texts of a type. *)
Definition type_messages (ufa uen ofa oen : string) : value :=
  VObj CObject true
    [("user", VObj CObject true [("fa", VStr ufa); ("en", VStr uen)]);
     ("original", VObj CObject true [("fa", VStr ofa); ("en", VStr oen)])].

Definition DEFAULT_TYPE_MESSAGES : value :=
  VObj CObject true
    [("network",
      type_messages "مشکل در اتصال به اینترنت" "Network connection issue"
                    "مشکل در اتصال به اینترنت" "Network connection issue");
     ("validation",
      type_messages "مقادیر وارد شده نامعتبر است" "Provided data is invalid"
                    "مقادیر وارد شده نامعتبر است" "Provided data is invalid");
     ("mapping",
      type_messages "خطا در پردازش داده‌ها" "Data processing encountered an error"
                    "نگاشت داده با شکست مواجه شد" "Data mapping failed");
     ("permission",
      type_messages "دسترسی مجاز نیست" "Permission denied"
                    "کاربر مجوز لازم را ندارد" "User lacks required permission");
     ("component",
      type_messages "خطایی در اجرای برنامه رخ داد" "The application component failed"
                    "خطایی در اجرای برنامه رخ داد" "The application component failed");
     ("environment",
      type_messages "پیکربندی یا محیط اجرا دچار مشکل شد"
                    "Application environment misconfigured"
                    "محیط اجرا با شکست مواجه شد"
                    "Runtime environment failure detected");
     ("system",
      type_messages "خطای سیستمی رخ داد" "A system error occurred"
                    "سیستم با خطا مواجه شد" "System experienced an error");
     ("unknown",
      type_messages "مشکلی در برنامه رخ داد." "An unknown error occurred"
                    "جزئیات خطا مشخص نیست" "No additional error details available");
     ("feature",
      type_messages "این قابلیت در حال حاضر در دسترس نیست"
                    "This feature is currently unavailable"
                    "قابلیت یا فیچر غیرفعال است"
                    "Feature flag disabled or feature unavailable")].

End Constants.

Export Constants.

(** ** src/utils/localization.js *)

Module Localization.

(** A parameter default [(x = {})] replaces [undefined] only. *)
Definition or_empty_object (v : value) : value :=
  if is_undefined v then obj [] else v.

Definition cloneFallback (fallback : value) : value :=
  let fallback := or_empty_object fallback in
  obj [("fa", get_opt fallback "fa" ?? VNull);
       ("en", get_opt fallback "en" ?? VNull)].

Definition ensureLocalizedText (v fallback : value) : value :=
  let fallback := or_empty_object fallback in
  let normalizedFallback := cloneFallback fallback in
  if nullish v then normalizedFallback
  else if is_string v then obj [("fa", v); ("en", v)]
  else if type_tag_eqb (typeof v) TObject then
    let fa := prop v "fa" ?? prop v "en" ?? prop normalizedFallback "fa" in
    let en := prop v "en" ?? prop v "fa" ?? prop normalizedFallback "en" in
    obj [("fa", fa); ("en", en)]
  else normalizedFallback.

Definition cloneLocalizedMessages (messages : value) : outcome value :=
  let messages := or_empty_object messages in
  match get_prop messages "user", get_prop messages "original" with
  | Ok user, Ok original =>
      Ok (obj [("user", ensureLocalizedText user VUndefined);
               ("original", ensureLocalizedText original VUndefined)])
  | Throw e, _ | _, Throw e => Throw e
  end.

End Localization.

Export Localization.

(** ** src/utils/deep-merge.js *)

Module DeepMerge.

(** [value !== null && typeof value === "object" && !Array.isArray(value)] *)
Definition isObject (v : value) : bool :=
  match v with
  | VObj _ _ _ | VDate _ _ => true
  | _ => false
  end.

(** The body of the [for] loop for one key of [source]: [targetValue] is
    [target[key]], [merge] is the recursive call on [sourceValue]. *)
Definition merge_entry (merge : value -> value) (targetValue sourceValue : value)
  : value :=
  match targetValue, sourceValue with
  | VArr _ xs, VArr _ ys => arr (xs ++ ys)
  | _, _ =>
      if isObject targetValue && isObject sourceValue then merge targetValue
      else if isObject sourceValue then merge (obj [])
      else sourceValue
  end.

(** The [for] loop over the own enumerable properties of a source of
    class [c], filling [result]; [merge] is [deepMerge] itself.  As the
    keys of an object are distinct, [source[key]] is the value listed
    with [key]. *)
Definition merge_loop (merge : value -> value -> value) (c : cls)
    (target : value) : props_t -> props_t -> props_t :=
  fix loop (ps : props_t) (result : props_t) : props_t :=
    match ps with
    | [] => result
    | (key, sourceValue) :: ps' =>
        if enumerable c key then
          loop ps'
            (set_prop key
               (merge_entry (fun t => merge t sourceValue)
                            (prop target key) sourceValue)
               result)
        else loop ps' result
    end.

(** [deepMerge(target, source)] *)
Fixpoint deepMerge (target source : value) {struct source} : value :=
  match source with
  | VObj c _ ps =>
      if isObject target then
        obj (merge_loop deepMerge c target ps (own_enumerable target))
      else obj (own_enumerable source)
  | VDate _ _ =>
      (* an object without own enumerable properties *)
      if isObject target then obj (own_enumerable target) else obj []
  | _ => source
  end.

End DeepMerge.

Export DeepMerge.

(** ** src/app-error.js *)

Module AppErrorCore.

Definition elems_of (v : value) : list value :=
  match v with VArr _ xs => xs | _ => [] end.

Definition toArray (v : value) : value :=
  if nullish v then arr []
  else if isArray v then v else arr [v].

Definition normalizeMessages (messages : value) : outcome value :=
  let messages := or_empty_object messages in
  if is_string messages then
    Ok (obj [("user", ensureLocalizedText messages (prop DEFAULT_MESSAGES "user"));
             ("original",
              ensureLocalizedText messages (prop DEFAULT_MESSAGES "original"))])
  else if nullish messages then
    Throw (TypeError "Cannot read properties of null or undefined")
  else
    let normalizedUser :=
      ensureLocalizedText (prop messages "user" ?? prop messages "original")
                          (prop DEFAULT_MESSAGES "user") in
    let normalizedOriginal :=
      ensureLocalizedText (prop messages "original" ?? prop messages "user")
                          (prop DEFAULT_MESSAGES "original") in
    Ok (obj [("user", normalizedUser); ("original", normalizedOriginal)]).

Definition time_value (t : option Z) : value :=
  match t with Some n => VNum n | None => VNaN end.

Section WithPlatform.
Variable P : platform.

(** The callback of [.map] in [normalizeBreadcrumbs]. *)
Definition normalizeBreadcrumb (breadcrumb : value) : M value :=
  if negb (truthy breadcrumb) then ret VNull
  else if is_string breadcrumb then
    let message :=
      ensureLocalizedText breadcrumb (prop DEFAULT_MESSAGES "user") in
    now <- Date_now P ;;
    ret (freeze (obj [("message", message); ("category", VNull);
                      ("level", VNull); ("data", VNull);
                      ("timestamp", VNum now)]))
  else
    message <- lift (get_prop breadcrumb "message") ;;
    category <- lift (get_prop breadcrumb "category") ;;
    level <- lift (get_prop breadcrumb "level") ;;
    data <- lift (get_prop breadcrumb "data") ;;
    timestamp <- lift (get_prop breadcrumb "timestamp") ;;
    if negb (truthy message) then ret VNull
    else
      timeValue <- (if truthy timestamp
                    then ret (time_of P timestamp)
                    else (now <- Date_now P ;; ret (Some now))) ;;
      let message :=
        ensureLocalizedText message (prop DEFAULT_MESSAGES "user") in
      time <- (match timeValue with
               | None => Date_now P
               | Some t => ret t
               end) ;;
      ret (freeze (obj [("message", message);
                        ("category", category ?? VNull);
                        ("level", level ?? VNull);
                        ("data", data ?? VNull);
                        ("timestamp", VNum time)])).

Definition normalizeBreadcrumbs (breadcrumbs : value) : M value :=
  let breadcrumbs := if is_undefined breadcrumbs then arr [] else breadcrumbs in
  mapped <- mapM normalizeBreadcrumb (elems_of (toArray breadcrumbs)) ;;
  ret (arr (List.filter truthy mapped)).

Definition normalizeCause (cause : value) : value :=
  if negb (truthy cause) then VNull
  else if instanceof_AppError cause then cause
  else if instanceof_Error cause then
    freeze (obj [("name", prop cause "name");
                 ("message",
                  ensureLocalizedText (prop cause "message")
                                      (prop DEFAULT_MESSAGES "original"));
                 ("stack", prop cause "stack")])
  else if type_tag_eqb (typeof cause) TObject && has_prop "message" cause then
    freeze (obj (set_prop "message"
                   (ensureLocalizedText (prop cause "message")
                                        (prop DEFAULT_MESSAGES "original"))
                   (own_enumerable cause)))
  else cause.

(** A destructuring default [{ k = d }] of the constructor's parameter. *)
Definition field (opts : value) (k : string) (d : value) : value :=
  if is_undefined (prop opts k) then d else prop opts k.

(** [new AppError(options)].  The instance is listed with the [message]
    set by [super(...)], then the fields in the order they are assigned,
    then [stack]. *)
Definition AppError_new (options : value) : M value :=
  if nullish options then
    throw (TypeError "Cannot destructure null or undefined")
  else
    let code := prop options "code" in
    let type := prop options "type" in
    let level := prop options "level" in
    let messages := prop options "messages" in
    let reason := field options "reason" VNull in
    let descriptions := field options "descriptions" (arr []) in
    let service := field options "service" VNull in
    let metadata := field options "metadata" (obj []) in
    let breadcrumbs := field options "breadcrumbs" (arr []) in
    let causes := field options "causes" (arr []) in
    let originalError := field options "originalError" VNull in
    timestamp <- (if is_undefined (prop options "timestamp")
                  then (now <- Date_now P ;; ret (VDate false (Some now)))
                  else ret (prop options "timestamp")) ;;
    let stack := field options "stack" VNull in
    normalizedMessages <- lift (normalizeMessages messages) ;;
    let user := prop normalizedMessages "user" in
    let original := prop normalizedMessages "original" in
    let message :=
      prop user "en" ?? prop user "fa"
        ?? prop (prop DEFAULT_MESSAGES "user") "en" in
    normalizedBreadcrumbs <- normalizeBreadcrumbs breadcrumbs ;;
    let this_level :=
      level ?? prop DEFAULT_LEVEL_BY_TYPE (to_string P type)
            ?? ERROR_LEVELS_ERROR in
    let this_stack :=
      if truthy stack then stack
      else if truthy (get_opt originalError "stack")
           then get_opt originalError "stack"
           else match captureStackTrace P with
                | Some trace => trace
                | None => new_error_stack P
                end in
    ret (VObj CAppError true
           [("message", VStr (to_string P message));
            ("name", VStr "AppError");
            ("code", code);
            ("type", type);
            ("level", this_level);
            ("messages",
             freeze (obj [("user", freeze (obj (own_enumerable user)));
                          ("original",
                           freeze (obj (own_enumerable original)))]));
            ("reason", reason);
            ("descriptions", freeze descriptions);
            ("service",
             if truthy service then freeze (obj (own_enumerable service))
             else VNull);
            ("metadata", freeze (obj (own_enumerable metadata)));
            ("breadcrumbs", freeze normalizedBreadcrumbs);
            ("causes",
             freeze (if isArray causes
                     then arr (List.filter truthy
                                 (map normalizeCause (elems_of causes)))
                     else arr []));
            ("originalError", originalError ?? VNull);
            ("timestamp",
             if instanceof_Date timestamp then timestamp
             else VDate false (time_of P timestamp));
            ("stack", this_stack)]).

Definition toJSON (this : value) : value :=
  obj (map (fun k => (k, prop this k))
         ["name"; "code"; "type"; "level"; "messages"; "reason";
          "descriptions"; "service"; "metadata"; "breadcrumbs"; "causes";
          "timestamp"; "stack"]).

Definition toString (this : value) : string :=
  let user := prop (prop this "messages") "user" in
  let userMessage := prop user "en" ?? prop user "fa" ?? VStr "" in
  to_string P (prop this "name") ++ "(" ++ to_string P (prop this "code")
    ++ "): " ++ to_string P userMessage.

End WithPlatform.

End AppErrorCore.

Export AppErrorCore.

(** ** src/app-error.builder.js *)

Module Builder.

(** [set.has(v)] for a set of strings. *)
Definition set_has (xs : list string) (v : value) : bool :=
  match v with
  | VStr s => existsb (String.eqb s) xs
  | _ => false
  end.

Definition VALID_TYPES : list string := ERROR_TYPES.
Definition VALID_LEVELS : list string := ERROR_LEVELS.

Definition ensureArray (v : value) : value :=
  if nullish v then arr []
  else if isArray v then v else arr [v].

Definition createDefaultMessages : outcome value :=
  cloneLocalizedMessages DEFAULT_MESSAGES.

Definition normalizeMessagesInput (v : value) : outcome value :=
  if negb (truthy v) then createDefaultMessages
  else if is_string v then
    Ok (obj [("user", ensureLocalizedText v (prop DEFAULT_MESSAGES "user"));
             ("original",
              ensureLocalizedText v (prop DEFAULT_MESSAGES "original"))])
  else if type_tag_eqb (typeof v) TObject then
    let normalizedUser :=
      ensureLocalizedText (prop v "user" ?? prop v "original")
                          (prop DEFAULT_MESSAGES "user") in
    let normalizedOriginal :=
      ensureLocalizedText (prop v "original" ?? prop v "user")
                          (prop DEFAULT_MESSAGES "original") in
    Ok (obj [("user", normalizedUser); ("original", normalizedOriginal)])
  else createDefaultMessages.

(** The double quote character. *)
Definition quote : string := String (ascii_of_nat 34) EmptyString.

Section WithPlatform.
Variable P : platform.

Definition assertCode (code : value) : outcome unit :=
  match code with
  | VStr s =>
      if String.eqb (trim s) ""
      then Throw (TypeError "AppError code must be a non-empty string.")
      else Ok tt
  | _ => Throw (TypeError "AppError code must be a non-empty string.")
  end.

Definition assertType (type : value) : outcome unit :=
  if set_has VALID_TYPES type then Ok tt
  else Throw (TypeError
                ("AppError type must be one of: "
                   ++ String.concat ", " VALID_TYPES
                   ++ ". Received " ++ quote ++ to_string P type ++ quote
                   ++ ".")).

Definition assertLevel (level : value) : outcome unit :=
  if set_has VALID_LEVELS level then Ok tt
  else Throw (TypeError
                ("AppError level must be one of: "
                   ++ String.concat ", " VALID_LEVELS
                   ++ ". Received " ++ quote ++ to_string P level ++ quote
                   ++ ".")).

(** The builder's [state] object, as its property list; [state.k = v]
    is [set_prop]. *)
Definition state := props_t.

Definition trim_value (code : value) : value :=
  match code with VStr s => VStr (trim s) | _ => code end.

Definition createAppErrorBuilder (options : value) : M state :=
  if nullish options then
    throw (TypeError "Cannot destructure null or undefined")
  else
    let code := prop options "code" in
    let type := prop options "type" in
    _ <- lift (assertCode code) ;;
    _ <- lift (assertType type) ;;
    messages <- lift createDefaultMessages ;;
    now <- Date_now P ;;
    ret [("code", trim_value code);
         ("type", type);
         ("level",
          prop DEFAULT_LEVEL_BY_TYPE (to_string P type) ?? ERROR_LEVELS_ERROR);
         ("messages", messages);
         ("reason", VNull);
         ("descriptions", arr []);
         ("service", VNull);
         ("metadata", obj []);
         ("breadcrumbs", arr []);
         ("causes", arr []);
         ("originalError", VNull);
         ("timestamp", VDate false (Some now))].

Definition withMessages (messages : value) (st : state) : outcome state :=
  match normalizeMessagesInput messages with
  | Ok m => Ok (set_prop "messages" m st)
  | Throw e => Throw e
  end.

Definition withReason (reason : value) (st : state) : outcome state :=
  if negb (nullish reason) && negb (is_string reason) then
    Throw (TypeError "AppError reason must be a string.")
  else Ok (set_prop "reason" (reason ?? VNull) st).

Definition withLevel (level : value) (st : state) : outcome state :=
  match assertLevel level with
  | Ok _ => Ok (set_prop "level" level st)
  | Throw e => Throw e
  end.

Definition withService (service : value) (st : state) : outcome state :=
  let service := or_empty_object service in
  if nullish service then
    Throw (TypeError "Cannot destructure null or undefined")
  else
    let name := field service "name" VNull in
    let method := field service "method" VNull in
    let args := field service "args" VNull in
    let operation := field service "operation" VNull in
    Ok (set_prop "service"
          (obj [("name", name); ("method", method); ("args", args);
                ("operation", operation)]) st).

Definition withMetadata (extra : value) (st : state) : outcome state :=
  let extra := or_empty_object extra in
  if nullish extra || negb (type_tag_eqb (typeof extra) TObject) then
    Throw (TypeError "AppError metadata must be an object.")
  else Ok (set_prop "metadata" (deepMerge (prop (obj st) "metadata") extra) st).

Definition withDescriptions (descriptions : value) (st : state) : outcome state :=
  Ok (set_prop "descriptions" (ensureArray descriptions) st).

Definition withBreadcrumbs (breadcrumbs : value) (st : state) : outcome state :=
  Ok (set_prop "breadcrumbs" (ensureArray breadcrumbs) st).

Definition withCauses (causes : value) (st : state) : outcome state :=
  Ok (set_prop "causes" (ensureArray causes) st).

Definition is_null (v : value) : bool :=
  match v with VNull => true | _ => false end.

Definition withOriginalError (error : value) (st : state) : outcome state :=
  if is_undefined error then Ok st
  else if negb (is_null error) && negb (instanceof_Error error) then
    Throw (TypeError "AppError originalError must be an instance of Error.")
  else Ok (set_prop "originalError" error st).

Definition withTimestamp (timestamp : value) (st : state) : outcome state :=
  if negb (instanceof_Date timestamp)
     && negb (bool_decide (is_Some (Date_parse P (to_string P timestamp))))
  then
    Throw (TypeError "AppError timestamp must be a Date or parsable date string.")
  else
    Ok (set_prop "timestamp"
          (if instanceof_Date timestamp then timestamp
           else VDate false (time_of P timestamp)) st).

(** The object literal that [build] passes to the constructor. *)
Definition build_options (st : state) : value :=
  obj (map (fun k => (k, prop (obj st) k))
         ["code"; "type"; "level"; "messages"; "reason"; "descriptions";
          "service"; "metadata"; "breadcrumbs"; "causes"; "originalError";
          "timestamp"]).

Definition build (st : state) : M value :=
  e <- AppError_new P (build_options st) ;;
  ret (freeze e).

(** One call of a fluent setter. *)
Inductive call :=
| WithMessages (v : value)
| WithReason (v : value)
| WithLevel (v : value)
| WithService (v : value)
| WithMetadata (v : value)
| WithDescriptions (v : value)
| WithBreadcrumbs (v : value)
| WithCauses (v : value)
| WithOriginalError (v : value)
| WithTimestamp (v : value).

Definition run_call (c : call) (st : state) : outcome state :=
  match c with
  | WithMessages v => withMessages v st
  | WithReason v => withReason v st
  | WithLevel v => withLevel v st
  | WithService v => withService v st
  | WithMetadata v => withMetadata v st
  | WithDescriptions v => withDescriptions v st
  | WithBreadcrumbs v => withBreadcrumbs v st
  | WithCauses v => withCauses v st
  | WithOriginalError v => withOriginalError v st
  | WithTimestamp v => withTimestamp v st
  end.

(** A chain of setter calls; the first one that throws ends the chain. *)
Fixpoint run_calls (cs : list call) (st : state) : outcome state :=
  match cs with
  | [] => Ok st
  | c :: cs' =>
      match run_call c st with
      | Ok st' => run_calls cs' st'
      | Throw e => Throw e
      end
  end.

End WithPlatform.

End Builder.

Export Builder.

(** ** Object literals with spread and rest *)

Module Spread.

(** The assignments [result[k] = v] for the entries of [ps], in order:
    what [{ ...result, ...ps }] and [{ ...result, k: v }] do. *)
Definition assign_props (ps : props_t) (result : props_t) : props_t :=
  fold_left (fun r kv => set_prop (fst kv) (snd kv) r) ps result.

(** The [...rest] of a destructuring pattern that names [names]: the own
    enumerable properties of [v] under the other keys. *)
Definition rest_of (names : list string) (v : value) : props_t :=
  List.filter (fun kv => negb (existsb (String.eqb (fst kv)) names))
              (own_enumerable v).

(** [Object.values(o).some((value) => value != null)] *)
Definition some_defined (ps : props_t) : bool :=
  existsb (fun kv => negb (nullish (snd kv))) ps.

(** Sequencing of calls that may throw. *)
Definition and_then {A B} (o : outcome A) (k : A -> outcome B) : outcome B :=
  match o with
  | Ok a => k a
  | Throw e => Throw e
  end.

(** [if (b) builder.setter(...)] *)
Definition when {S} (b : bool) (f : S -> outcome S) (s : S) : outcome S :=
  if b then f s else Ok s.

End Spread.

Export Spread.
Notation "x <~ c1 ;; c2" := (Spread.and_then c1 (fun x => c2))
  (at level 100, c1 at next level, right associativity).

(** ** src/helpers/factories.js *)

Module Factories.

Section WithPlatform.
Variable P : platform.

Definition cloneTypeMessages (type messages : value) : value :=
  let defaults :=
    prop DEFAULT_TYPE_MESSAGES (to_string P type) ?? DEFAULT_MESSAGES in
  if negb (truthy messages) then
    obj [("user", obj (own_enumerable (prop defaults "user")));
         ("original", obj (own_enumerable (prop defaults "original")))]
  else if is_string messages then
    let localized := ensureLocalizedText messages (prop defaults "user") in
    obj [("user", localized);
         ("original",
          ensureLocalizedText messages (prop defaults "original"))]
  else
    let userSource := prop messages "user" ?? messages in
    let originalSource := prop messages "original" ?? messages in
    obj [("user", ensureLocalizedText userSource (prop defaults "user"));
         ("original",
          ensureLocalizedText originalSource (prop defaults "original"))].

(** The builder is its state; every setter returns the builder. *)
Definition applyCommonOptions (type options : value) (st : state)
  : outcome state :=
  let options := or_empty_object options in
  if nullish options then
    Throw (TypeError "Cannot destructure null or undefined")
  else
    let messages := prop options "messages" in
    let reason := prop options "reason" in
    let level := prop options "level" in
    let descriptions := prop options "descriptions" in
    let metadata := prop options "metadata" in
    let service := prop options "service" in
    let breadcrumbs := prop options "breadcrumbs" in
    let causes := prop options "causes" in
    let originalError := prop options "originalError" in
    let timestamp := prop options "timestamp" in
    st <~ withMessages (cloneTypeMessages type messages) st ;;
    st <~ when (negb (is_undefined reason)) (withReason reason) st ;;
    st <~ when (truthy level) (withLevel P level) st ;;
    st <~ when (truthy descriptions) (withDescriptions descriptions) st ;;
    st <~ when (truthy metadata
                && (0 <? length (own_enumerable metadata))%nat)
               (withMetadata metadata) st ;;
    st <~ when (truthy service) (withService service) st ;;
    st <~ when (truthy breadcrumbs) (withBreadcrumbs breadcrumbs) st ;;
    st <~ when (truthy causes) (withCauses causes) st ;;
    st <~ when (instanceof_Error originalError)
               (withOriginalError originalError) st ;;
    st <~ when (truthy timestamp) (withTimestamp P timestamp) st ;;
    Ok st.

Definition normalizeHttpMetadata (metadata : value) : value :=
  let metadata := or_empty_object metadata in
  if negb (truthy metadata) || negb (type_tag_eqb (typeof metadata) TObject)
  then obj []
  else
    let url := field metadata "url" VNull in
    let method := field metadata "method" VNull in
    let status := field metadata "status" VNull in
    let response := prop metadata "response" in
    let headers := prop metadata "headers" in
    let payload := prop metadata "payload" in
    let rest :=
      rest_of ["url"; "method"; "status"; "response"; "headers"; "payload"]
              metadata in
    obj (assign_props rest
           [("url", url); ("method", method); ("status", status);
            ("response", response); ("headers", headers);
            ("payload", payload)]).

(** [createAppErrorBuilder({ code, type })] for a type of
    [ERROR_TYPES]. *)
Definition builder_for (code : value) (type : string) : M state :=
  createAppErrorBuilder P (obj [("code", code); ("type", VStr type)]).

Definition createNetworkError (options : value) : M value :=
  let options := or_empty_object options in
  if nullish options then
    throw (TypeError "Cannot destructure null or undefined")
  else
    let code := field options "code" (VStr "NETWORK_ERROR") in
    let metadata := prop options "metadata" in
    let retryCount := prop options "retryCount" in
    let isOffline := field options "isOffline" (VBool false) in
    let rest :=
      rest_of ["code"; "metadata"; "retryCount"; "isOffline"] options in
    builder <- builder_for code "network" ;;
    builder <- lift (applyCommonOptions (VStr "network")
                       (obj (assign_props rest
                               [("metadata", normalizeHttpMetadata metadata)]))
                       builder) ;;
    let enrichedMetadata :=
      [("retryCount", retryCount ?? VNull); ("isOffline", isOffline)] in
    builder <- lift (when (some_defined enrichedMetadata)
                          (withMetadata (obj enrichedMetadata)) builder) ;;
    build P builder.

Definition createValidationError (options : value) : M value :=
  let options := or_empty_object options in
  if nullish options then
    throw (TypeError "Cannot destructure null or undefined")
  else
    let code := field options "code" (VStr "VALIDATION_ERROR") in
    let fields := field options "fields" (arr []) in
    let schema := field options "schema" VNull in
    let rest := rest_of ["code"; "fields"; "schema"] options in
    builder <- builder_for code "validation" ;;
    builder <- lift (applyCommonOptions (VStr "validation") (obj rest)
                                        builder) ;;
    let metadata_fields := if isArray fields then fields else arr [fields] in
    let metadata := [("fields", metadata_fields); ("schema", schema)] in
    builder <- lift (when (isArray metadata_fields
                           && (0 <? length (elems_of metadata_fields))%nat
                           || negb (nullish schema))
                          (withMetadata (obj metadata)) builder) ;;
    build P builder.

(** The body shared, word for word, by [createMappingError],
    [createPermissionError], [createComponentError],
    [createEnvironmentError] and [createFeatureError]: three options
    [k1], [k2], [k3] that default to [null] become the metadata
    [{ k1, k2, k3 }], merged when one of them is neither [null] nor
    [undefined]. *)
Definition create_with_details (defaultCode type k1 k2 k3 : string)
    (options : value) : M value :=
  let options := or_empty_object options in
  if nullish options then
    throw (TypeError "Cannot destructure null or undefined")
  else
    let code := field options "code" (VStr defaultCode) in
    let v1 := field options k1 VNull in
    let v2 := field options k2 VNull in
    let v3 := field options k3 VNull in
    let rest := rest_of ["code"; k1; k2; k3] options in
    builder <- builder_for code type ;;
    builder <- lift (applyCommonOptions (VStr type) (obj rest) builder) ;;
    let metadata := [(k1, v1); (k2, v2); (k3, v3)] in
    builder <- lift (when (some_defined metadata)
                          (withMetadata (obj metadata)) builder) ;;
    build P builder.

Definition createMappingError : value -> M value :=
  create_with_details "MAPPING_ERROR" "mapping" "source" "target" "stage".

Definition createPermissionError : value -> M value :=
  create_with_details "PERMISSION_DENIED" "permission"
                      "resource" "action" "requiredRoles".

Definition createComponentError : value -> M value :=
  create_with_details "COMPONENT_ERROR" "component"
                      "componentName" "propsSnapshot" "hook".

Definition createEnvironmentError : value -> M value :=
  create_with_details "ENVIRONMENT_ERROR" "environment"
                      "variable" "expected" "received".

Definition createSystemError (options : value) : M value :=
  let options := or_empty_object options in
  if nullish options then
    throw (TypeError "Cannot destructure null or undefined")
  else
    let code := field options "code" (VStr "SYSTEM_ERROR") in
    let subsystem := field options "subsystem" VNull in
    let rest := rest_of ["code"; "subsystem"] options in
    builder <- builder_for code "system" ;;
    builder <- lift (applyCommonOptions (VStr "system") (obj rest) builder) ;;
    builder <- lift (when (truthy subsystem)
                          (withMetadata (obj [("subsystem", subsystem)]))
                          builder) ;;
    build P builder.

(** The immediately invoked function of [createUnknownError] that
    settles [messages] and [reason]. *)
Definition unknown_messages_and_reason
    (rest originalError fallbackMessage : value) : value * value :=
  let unknown := prop DEFAULT_TYPE_MESSAGES "unknown" in
  if truthy (prop rest "messages") then
    (prop rest "messages", prop rest "reason")
  else
    let fallback := fallbackMessage ?? get_opt originalError "message" in
    if truthy fallback then
      let localized := ensureLocalizedText fallback (prop unknown "user") in
      (obj [("user", localized);
            ("original",
             ensureLocalizedText fallback (prop unknown "original"))],
       prop rest "reason"
         ?? (if is_string fallback then fallback else VUndefined))
    else (unknown, prop rest "reason").

Definition createUnknownError (options : value) : M value :=
  let options := or_empty_object options in
  if nullish options then
    throw (TypeError "Cannot destructure null or undefined")
  else
    let code := field options "code" (VStr "UNKNOWN_ERROR") in
    let originalError := prop options "originalError" in
    let fallbackMessage := prop options "fallbackMessage" in
    let rest :=
      obj (rest_of ["code"; "originalError"; "fallbackMessage"] options) in
    builder <- builder_for code "unknown" ;;
    let '(messages, reason) :=
      unknown_messages_and_reason rest originalError fallbackMessage in
    builder <- lift (applyCommonOptions (VStr "unknown")
                       (obj (assign_props
                               [("messages", messages); ("reason", reason);
                                ("originalError", originalError)]
                               (own_enumerable rest)))
                       builder) ;;
    builder <- lift (withMetadata
                       (obj [("originalName",
                              get_opt (prop rest "metadata") "originalName"
                                ?? get_opt originalError "name")])
                       builder) ;;
    build P builder.

Definition createFeatureError : value -> M value :=
  create_with_details "FEATURE_UNAVAILABLE" "feature"
                      "feature" "flag" "requiredVersion".

Definition isAppError (v : value) : bool := instanceof_AppError v.

(** The factories of the default export, each with the type it is
    exported under. *)
Definition ErrorFactory : list (string * (value -> M value)) :=
  [("network", createNetworkError);
   ("validation", createValidationError);
   ("mapping", createMappingError);
   ("permission", createPermissionError);
   ("component", createComponentError);
   ("environment", createEnvironmentError);
   ("system", createSystemError);
   ("unknown", createUnknownError);
   ("feature", createFeatureError)].

End WithPlatform.

End Factories.

Export Factories.

(** ** src/plugins/vue.js *)

Module VuePlugin.


End VuePlugin.

Export VuePlugin.

(** ** Assignment through a frozen graph *)

Module Mutation.








End Mutation.

Export Mutation.

(** ** deepMerge over a store: identity and sharing *)

Module Heap.

Definition loc := nat.

(** A value is a primitive or a reference to a cell of the store. *)
Inductive hvalue :=
| HUndefined
| HNull
| HBool (b : bool)
| HNum (n : Z)
| HNaN
| HStr (s : string)
| HRef (l : loc).

Definition hprops := list (string * hvalue).

(** A cell is an array or an object with its own enumerable properties. *)
Inductive cell :=
| CellArr (elems : list hvalue)
| CellObj (props : hprops).

(** Cells are allocated at consecutive locations. *)
Record heap := { cells : gmap loc cell; next : loc }.

Definition alloc (c : cell) (h : heap) : loc * heap :=
  (next h, {| cells := <[next h := c]> (cells h); next := S (next h) |}).

Fixpoint hlookup (k : string) (ps : hprops) : option hvalue :=
  match ps with
  | [] => None
  | (k', v) :: ps' => if String.eqb k k' then Some v else hlookup k ps'
  end.

Fixpoint hset (k : string) (v : hvalue) (ps : hprops) : hprops :=
  match ps with
  | [] => [(k, v)]
  | (k', v') :: ps' =>
      if String.eqb k k' then (k, v) :: ps' else (k', v') :: hset k v ps'
  end.

Definition cell_of (h : heap) (v : hvalue) : option cell :=
  match v with HRef l => cells h !! l | _ => None end.

Definition isObject (h : heap) (v : hvalue) : bool :=
  match cell_of h v with Some (CellObj _) => true | _ => false end.

Definition isArray (h : heap) (v : hvalue) : bool :=
  match cell_of h v with Some (CellArr _) => true | _ => false end.

Definition props_of (h : heap) (v : hvalue) : hprops :=
  match cell_of h v with Some (CellObj ps) => ps | _ => [] end.

Definition elems_of (h : heap) (v : hvalue) : list hvalue :=
  match cell_of h v with Some (CellArr xs) => xs | _ => [] end.

(** [v[k]] for an object [v] *)
Definition hprop (h : heap) (v : hvalue) (k : string) : hvalue :=
  default HUndefined (hlookup k (props_of h v)).

(** [o[k] = v] for the object at [l] *)
Definition write (l : loc) (k : string) (v : hvalue) (h : heap) : heap :=
  match cells h !! l with
  | Some (CellObj ps) =>
      {| cells := <[l := CellObj (hset k v ps)]> (cells h); next := next h |}
  | _ => h
  end.

Fixpoint foldM {A S} (f : A -> S -> option S) (xs : list A) (s : S) : option S :=
  match xs with
  | [] => Some s
  | x :: xs' =>
      match f x s with
      | Some s' => foldM f xs' s'
      | None => None
      end
  end.

(** The body of the [for] loop for one key of [source], writing into the
    object at [result]; [recur] is the recursive call. *)
Definition merge_key
    (recur : hvalue -> hvalue -> heap -> option (hvalue * heap))
    (result : loc) (target source : hvalue) (key : string) (h : heap)
  : option heap :=
  let targetValue := hprop h target key in
  let sourceValue := hprop h source key in
  if isArray h targetValue && isArray h sourceValue then
    let '(a, h2) :=
      alloc (CellArr (elems_of h targetValue ++ elems_of h sourceValue)) h in
    Some (write result key (HRef a) h2)
  else if isObject h targetValue && isObject h sourceValue then
    match recur targetValue sourceValue h with
    | Some (v, h2) => Some (write result key v h2)
    | None => None
    end
  else if isObject h sourceValue then
    let '(empty, h2) := alloc (CellObj []) h in
    match recur (HRef empty) sourceValue h2 with
    | Some (v, h3) => Some (write result key v h3)
    | None => None
    end
  else Some (write result key sourceValue h).

(** [deepMerge(target, source)] run in the store [h].  The recursion on
    the source follows references and need not end on a cyclic store, so
    the depth of calls is bounded by [fuel]; [None] is fuel exhausted. *)
Fixpoint deepMerge (fuel : nat) (target source : hvalue) (h : heap)
  : option (hvalue * heap) :=
  match fuel with
  | O => None
  | S fuel' =>
      if negb (isObject h target) || negb (isObject h source) then
        if isObject h source then
          let '(l, h1) := alloc (CellObj (props_of h source)) h in
          Some (HRef l, h1)
        else Some (source, h)
      else
        let '(result, h1) := alloc (CellObj (props_of h target)) h in
        match foldM (merge_key (deepMerge fuel') result target source)
                    (map fst (props_of h source)) h1 with
        | Some h' => Some (HRef result, h')
        | None => None
        end
  end.

(** The objects met when following the keys of [path] from [v], each
    step landing on an object; [None] when a step does not. *)
Fixpoint spine (h : heap) (v : hvalue) (path : list string) : option (list loc) :=
  match v with
  | HRef l =>
      if isObject h v then
        match path with
        | [] => Some [l]
        | k :: path' =>
            match spine h (hprop h v k) path' with
            | Some ls => Some (l :: ls)
            | None => None
            end
        end
      else None
  | _ => None
  end.

(** Every cell lies below the allocation pointer. *)
Definition wf (h : heap) : Prop :=
  forall l c, cells h !! l = Some c -> (l < next h)%nat.

(** *** Vocabulary of the statements about the store *)

Local Open Scope nat_scope.

(** [h'] comes from [h] by allocation and by writes to [r] only. *)
Definition frame (r : option loc) (h h' : heap) : Prop :=
  wf h' /\ next h <= next h'
  /\ forall l, l < next h -> Some l <> r -> cells h' !! l = cells h !! l.

(** The recursive call leaves every existing cell as it is. *)
Definition framing (recur : hvalue -> hvalue -> heap -> option (hvalue * heap))
  : Prop :=
  forall t s h v h', wf h -> recur t s h = Some (v, h') -> frame None h h'.

(** From [v], the keys of [path] lead through objects at locations not
    below [n]. *)
Definition fresh_spine (n : nat) (h : heap) (v : hvalue) (path : list string)
  : Prop :=
  exists ls, spine h v path = Some ls /\ Forall (fun l => n <= l) ls.

(** The recursive call returns, for two objects, an object whose spine
    along any path through the objects of the source is new. *)
Definition copying (recur : hvalue -> hvalue -> heap -> option (hvalue * heap))
  : Prop :=
  forall t s h v h',
    wf h -> isObject h t = true -> isObject h s = true ->
    recur t s h = Some (v, h') ->
    forall path ls, spine h s path = Some ls -> fresh_spine (next h) h' v path.

(** The state of the loop after the keys [done]: the cells of the
    original store [h0] are untouched, the result at [r] is an object,
    and under each key handled so far the spine of the source is new. *)
Definition loop_inv (h0 : heap) (r : loc) (s : hvalue)
    (done : list string) (h : heap) : Prop :=
  wf h /\ r < next h
  /\ (forall l, l < r -> cells h !! l = cells h0 !! l)
  /\ (exists ps, cells h !! r = Some (CellObj ps))
  /\ forall k, k ∈ done ->
       forall path ls,
         spine h0 (hprop h0 s k) path = Some ls ->
         fresh_spine (S r) h (hprop h (HRef r) k) path.

(** Below [v] the objects nest at most [d] deep, following the
    properties of objects, and all references met lie below [n]. *)
Fixpoint sized (n : nat) (h : heap) (d : nat) (v : hvalue) : Prop :=
  match v with
  | HRef l =>
      l < n
      /\ match cells h !! l with
         | Some (CellObj ps) =>
             match d with
             | O => False
             | S d' => Forall (fun kv => sized n h d' (snd kv)) ps
             end
         | _ => True
         end
  | _ => True
  end.

(** The recursive call returns on sources nested at most [d] deep. *)
Definition returning (d : nat)
    (recur : hvalue -> hvalue -> heap -> option (hvalue * heap)) : Prop :=
  forall t s h, wf h -> sized (next h) h d s -> is_Some (recur t s h).

(** A store with no cell. *)
Definition empty_heap : heap := {| cells := ∅; next := 0 |}.

(** The store holding the given cells at locations 0, 1, 2, ... *)
Definition heap_of (cs : list cell) : heap :=
  fold_left (fun h c => (alloc c h).2) cs empty_heap.

(** target = { a: { x: 1 } } at 1, source = { a: { y: 2 } } at 3 *)
Definition sample_heap : heap :=
  heap_of [CellObj [("x", HNum 1)]; CellObj [("a", HRef 0)];
           CellObj [("y", HNum 2)]; CellObj [("a", HRef 2)]].

(** source = { x: [ { id: 1 } ] } at 2, target = {} at 3 *)
Definition shared_array_heap : heap :=
  heap_of [CellObj [("id", HNum 1)]; CellArr [HRef 0];
           CellObj [("x", HRef 1)]; CellObj []].

(** source = { n: { id: 1 } } at 1 *)
Definition nested_heap : heap :=
  heap_of [CellObj [("id", HNum 1)]; CellObj [("n", HRef 0)]].

(** All the values of a list of options, when none is missing. *)
Fixpoint all_some {A} (xs : list (option A)) : option (list A) :=
  match xs with
  | [] => Some []
  | Some x :: xs' =>
      match all_some xs' with
      | Some ys => Some (x :: ys)
      | None => None
      end
  | None :: _ => None
  end.

(** The tree that [v] denotes in the store [h], when it is at most [fuel]
    references deep. *)
Fixpoint readback (fuel : nat) (h : heap) (v : hvalue) : option value :=
  match v with
  | HUndefined => Some VUndefined
  | HNull => Some VNull
  | HBool b => Some (VBool b)
  | HNum n => Some (VNum n)
  | HNaN => Some VNaN
  | HStr s => Some (VStr s)
  | HRef l =>
      match fuel with
      | O => None
      | S fuel' =>
          match cells h !! l with
          | Some (CellArr xs) =>
              match all_some (map (readback fuel' h) xs) with
              | Some ys => Some (arr ys)
              | None => None
              end
          | Some (CellObj ps) =>
              match all_some
                      (map (fun kv =>
                              match readback fuel' h (snd kv) with
                              | Some y => Some (fst kv, y)
                              | None => None
                              end) ps) with
              | Some qs => Some (obj qs)
              | None => None
              end
          | None => None
          end
      end
  end.

(** The first test of tests/utils.deep-merge.test.js: the target at 2,
    the source at 7. *)
Definition test_heap : heap :=
  heap_of [CellObj [("keep", HBool true)];
           CellObj [("value", HNum 1); ("level2", HRef 0)];
           CellObj [("level1", HRef 1); ("array", HRef 3)];
           CellArr [HNum 1; HNum 2];
           CellObj [("keep", HBool false); ("next", HStr "added")];
           CellObj [("level2", HRef 4)];
           CellArr [HNum 3];
           CellObj [("level1", HRef 5); ("array", HRef 6); ("extra", HRef 8)];
           CellObj [("flag", HBool true)]].

End Heap.

(** ** Vocabulary of the statements *)

Module Spec.

Local Open Scope list_scope.

(** A message set whose four slots are defined. *)
Definition complete_messages (m : value) : Prop :=
  exists ufa uen ofa oen,
    m = obj [("user", obj [("fa", ufa); ("en", uen)]);
             ("original", obj [("fa", ofa); ("en", oen)])]
    /\ nullish ufa = false /\ nullish uen = false
    /\ nullish ofa = false /\ nullish oen = false.

(** The entries that survive normalization: truthy, and a string or a
    value with a truthy [message]. *)
Definition kept (b : value) : bool :=
  truthy b && (is_string b || truthy (prop b "message")).

(** A normalized breadcrumb: a frozen five-field record with a localized
    message and a numeric timestamp. *)
Definition breadcrumb_entry (r : value) : Prop :=
  exists fa en category level data time,
    r = VObj CObject true
          [("message", obj [("fa", fa); ("en", en)]);
           ("category", category); ("level", level); ("data", data);
           ("timestamp", VNum time)]
    /\ nullish fa = false /\ nullish en = false.

(** [deepMerge({}, v)] for an object, [v] itself otherwise: what the loop
    stores for a key that the target does not have. *)
Definition clone (v : value) : value :=
  if isObject v then deepMerge (obj []) v else v.

(** The properties of [clone (obj ps)], entry by entry. *)
Definition clone_props (ps : props_t) : props_t :=
  map (fun kv => (fst kv, clone (snd kv))) ps.





(** What the loop stores under a key: [targetValue] merged with
    [sourceValue]. *)
Definition entry (targetValue sourceValue : value) : value :=
  merge_entry (fun t => deepMerge t sourceValue) targetValue sourceValue.






(** A host with a steady clock, and a builder made on it. *)
Definition sample_platform : platform :=
  {| clock := fun n => 1700000000000 + Z.of_nat n;
     Date_parse := fun s =>
       if String.eqb s "2024-05-10T13:00:00Z" then Some 1715346000000 else None;
     object_to_string := fun _ => "[object Object]";
     captureStackTrace := Some (VStr "AppError: at <anonymous>");
     new_error_stack := VStr "Error: at <anonymous>" |}.

Definition sample_options : value :=
  obj [("code", VStr "  X  "); ("type", VStr "network")].

Definition sample_state : state :=
  match createAppErrorBuilder sample_platform sample_options 0%nat with
  | Ok (st, _) => st
  | Throw _ => []
  end.

(** A state a builder can reach: created from [options], then changed by
    setter calls that returned. *)
Definition reachable (P : platform) (st : state) : Prop :=
  exists options t st0 t' calls,
    createAppErrorBuilder P options t = Ok (st0, t')
    /\ run_calls P calls st0 = Ok st.






(** The options of the test suite's [createError]. *)
Definition test_options : value :=
  obj [("code", VStr "TEST_CODE"); ("type", VStr "test");
       ("level", VStr "warn");
       ("messages",
        obj [("user", obj [("fa", VStr "fa-user"); ("en", VStr "en-user")]);
             ("original",
              obj [("fa", VStr "fa-original"); ("en", VStr "en-original")])]);
       ("reason", VStr "something happened");
       ("descriptions", arr [VStr "first"; VStr "second"]);
       ("service",
        obj [("name", VStr "svc"); ("method", VStr "call");
             ("operation", VStr "op")]);
       ("metadata", obj [("traceId", VStr "123"); ("nested", obj [("id", VNum 1)])]);
       ("breadcrumbs",
        arr [VStr "simple breadcrumb";
             obj [("message", obj [("fa", VStr "fa-msg"); ("en", VStr "en-msg")]);
                  ("category", VStr "cat"); ("level", VStr "info");
                  ("data", obj [("value", VNum 42)]);
                  ("timestamp", VNum 1700000000000)];
             VNull]);
       ("causes",
        arr [native_error "native cause" "Error: native cause";
             obj [("message", VStr "custom cause")]; VUndefined; VNum 42]);
       ("timestamp", VDate false (Some 1672531200000))].

(** The result of a computation started at the first clock reading. *)
Definition run {A} (d : A) (m : M A) : A :=
  match m 0%nat with
  | Ok (a, _) => a
  | Throw _ => d
  end.

(** The error the builder yields after the given calls. *)
Definition built (P : platform) (options : value) (calls : list call) : M value :=
  st <- createAppErrorBuilder P options ;;
  st' <- lift (run_calls P calls st) ;;
  build P st'.

(** A path of property reads. *)
Definition at_path (v : value) (path : list string) : value :=
  fold_left prop path v.


(** A patch without arrays: primitives, and plain mappings with distinct
    keys that hold such values. *)
Fixpoint array_free_patch (v : value) : bool :=
  match v with
  | VObj CObject _ ps =>
      bool_decide (NoDup (keys ps))
      && forallb (fun kv => array_free_patch (snd kv)) ps
  | VObj _ _ _ | VDate _ _ | VArr _ _ => false
  | _ => true
  end.

(** The field of the state that a setter assigns. *)
Definition field_of (c : call) : string :=
  match c with
  | WithMessages _ => "messages"
  | WithReason _ => "reason"
  | WithLevel _ => "level"
  | WithService _ => "service"
  | WithMetadata _ => "metadata"
  | WithDescriptions _ => "descriptions"
  | WithBreadcrumbs _ => "breadcrumbs"
  | WithCauses _ => "causes"
  | WithOriginalError _ => "originalError"
  | WithTimestamp _ => "timestamp"
  end.

(** The fields of the builder's state, in the order of the object
    literal. *)
Definition state_keys : list string :=
  ["code"; "type"; "level"; "messages"; "reason"; "descriptions"; "service";
   "metadata"; "breadcrumbs"; "causes"; "originalError"; "timestamp"].



(** A breadcrumb as the constructor stores it: frozen, five fields, a
    message with both locales, and no field [undefined]. *)
Definition normal_crumb (r : value) : Prop :=
  exists fa en category level data time,
    r = VObj CObject true
          [("message", obj [("fa", fa); ("en", en)]);
           ("category", category); ("level", level); ("data", data);
           ("timestamp", VNum time)]
    /\ nullish fa = false /\ nullish en = false
    /\ is_undefined category = false /\ is_undefined level = false
    /\ is_undefined data = false.

(** A breadcrumb whose time stamp a second normalization keeps: a
    number other than zero within the range of [Date]. *)
Definition stable_crumb (r : value) : Prop :=
  exists time,
    prop r "timestamp" = VNum time /\ time <> 0 /\ Z.abs time <= max_time.

(** The instance without its original error. *)
Definition without_originalError (e : value) : value :=
  match e with
  | VObj c f ps => VObj c f (set_prop "originalError" VNull ps)
  | _ => e
  end.

(** The stack the host records when none is supplied. *)
Definition platform_stack (P : platform) : value :=
  match captureStackTrace P with
  | Some trace => trace
  | None => new_error_stack P
  end.

(** A cause as the constructor stores it. *)
Definition normal_cause (c : value) : Prop :=
  truthy c = true /\ normalizeCause c = c.



(** The setter calls that [applyCommonOptions] makes for [options], in
    order. *)
Definition common_calls (P : platform) (type options : value) : list call :=
  let options := or_empty_object options in
  let guarded (b : bool) (c : call) := if b then [c] else [] in
  [WithMessages (cloneTypeMessages P type (prop options "messages"))]
  ++ guarded (negb (is_undefined (prop options "reason")))
             (WithReason (prop options "reason"))
  ++ guarded (truthy (prop options "level")) (WithLevel (prop options "level"))
  ++ guarded (truthy (prop options "descriptions"))
             (WithDescriptions (prop options "descriptions"))
  ++ guarded (truthy (prop options "metadata")
              && (0 <? length (own_enumerable (prop options "metadata")))%nat)
             (WithMetadata (prop options "metadata"))
  ++ guarded (truthy (prop options "service"))
             (WithService (prop options "service"))
  ++ guarded (truthy (prop options "breadcrumbs"))
             (WithBreadcrumbs (prop options "breadcrumbs"))
  ++ guarded (truthy (prop options "causes")) (WithCauses (prop options "causes"))
  ++ guarded (instanceof_Error (prop options "originalError"))
             (WithOriginalError (prop options "originalError"))
  ++ guarded (truthy (prop options "timestamp"))
             (WithTimestamp (prop options "timestamp")).


(** The code each factory uses when [options.code] is absent. *)
Definition default_codes : list (string * string) :=
  [("network", "NETWORK_ERROR"); ("validation", "VALIDATION_ERROR");
   ("mapping", "MAPPING_ERROR"); ("permission", "PERMISSION_DENIED");
   ("component", "COMPONENT_ERROR"); ("environment", "ENVIRONMENT_ERROR");
   ("system", "SYSTEM_ERROR"); ("unknown", "UNKNOWN_ERROR");
   ("feature", "FEATURE_UNAVAILABLE")].

(** A run of a factory seen as a run of the builder: created for the
    given type with the given or the default code, set up by [calls],
    built into [e]. *)
Definition factory_run (P : platform) (type default_code : string)
    (options : value) (t : nat) (calls : list call) (e : value) (t' : nat)
  : Prop :=
  exists st0 t0 st,
    nullish (or_empty_object options) = false
    /\ createAppErrorBuilder P
         (obj [("code", field (or_empty_object options) "code" (VStr default_code));
               ("type", VStr type)]) t
       = Ok (st0, t0)
    /\ run_calls P calls st0 = Ok st
    /\ build P st t0 = Ok (e, t').

(** The options a factory is usually called with: nothing, or an object
    (with distinct keys, as every object has). *)
Definition options_object (options : value) : Prop :=
  exists c f ps, or_empty_object options = VObj c f ps /\ NoDup (keys ps).

(** The calls a factory adds to those of [applyCommonOptions]: they all
    merge metadata. *)
Definition metadata_calls (cs : list call) : Prop :=
  Forall (fun c => field_of c = "metadata") cs.


End Spec.

Export Spec.

Local Open Scope list_scope.

(** * Properties *)

(** ** Property lists *)

Lemma lookup_set_prop_eq k v ps : lookup_prop k (set_prop k v ps) = Some v.
Proof.
  induction ps as [|[k' v'] ps IH]; simpl.
  - by rewrite String.eqb_refl.
  - destruct (String.eqb k k') eqn:E; simpl; rewrite ?String.eqb_refl, ?E; done.
Qed.

Lemma lookup_set_prop_ne k k' v ps :
  k <> k' -> lookup_prop k' (set_prop k v ps) = lookup_prop k' ps.
Proof.
  intros Hne. induction ps as [|[k0 v0] ps IH]; simpl.
  - destruct (String.eqb k' k) eqn:E; [|done].
    apply String.eqb_eq in E. congruence.
  - destruct (String.eqb k k0) eqn:E; simpl.
    + apply String.eqb_eq in E. subst k0.
      destruct (String.eqb k' k) eqn:E'; [|done].
      apply String.eqb_eq in E'. congruence.
    + destruct (String.eqb k' k0); [done|apply IH].
Qed.

(** ** Localization *)

(** The normalizer always returns a fresh, unfrozen pair. *)
Lemma ensureLocalizedText_pair v fb :
  exists a b, ensureLocalizedText v fb = obj [("fa", a); ("en", b)].
Proof.
  unfold ensureLocalizedText.
  destruct (nullish v); [unfold cloneFallback; eauto|].
  destruct (is_string v); [eauto|].
  destruct (type_tag_eqb _ _); [eauto|unfold cloneFallback; eauto].
Qed.

Lemma coalesce_defined a b : nullish a = false -> a ?? b = a.
Proof. unfold coalesce. by intros ->. Qed.


Lemma nullish_coalesce a b : nullish b = false -> nullish (a ?? b) = false.
Proof. unfold coalesce. destruct (nullish a) eqn:E; done. Qed.

(** Against a fallback with both slots defined, both slots of the result
    are defined. *)
Lemma ensureLocalizedText_complete v fb :
  nullish fb = false ->
  nullish (prop fb "fa") = false -> nullish (prop fb "en") = false ->
  exists a b, ensureLocalizedText v fb = obj [("fa", a); ("en", b)]
              /\ nullish a = false /\ nullish b = false.
Proof.
  intros Hfb Hfa Hen.
  assert (Hcl : cloneFallback (or_empty_object fb)
                = obj [("fa", prop fb "fa"); ("en", prop fb "en")]).
  { unfold cloneFallback, or_empty_object, get_opt.
    destruct fb; simpl in *; try discriminate;
      rewrite ?coalesce_defined; done. }
  unfold ensureLocalizedText. rewrite Hcl.
  destruct (nullish v) eqn:Hv; [eauto 6|].
  destruct (is_string v) eqn:Hs; [eauto 6|].
  destruct (type_tag_eqb _ _).
  - do 2 eexists. split; [reflexivity|].
    split; apply nullish_coalesce; simpl; done.
  - eauto 6.
Qed.

(** C8. [ensureLocalizedText] is idempotent on complete pairs: when
    [ensureLocalizedText x fb] has both slots defined (neither null nor
    undefined), normalizing it again, against any fallback [fb2], returns
    the same pair. *)
Theorem ensureLocalizedText_idempotent_on_complete (x fb fb2 : value) :
  nullish (prop (ensureLocalizedText x fb) "fa") = false ->
  nullish (prop (ensureLocalizedText x fb) "en") = false ->
  ensureLocalizedText (ensureLocalizedText x fb) fb2 = ensureLocalizedText x fb.
Proof.
  destruct (ensureLocalizedText_pair x fb) as (a & b & ->).
  simpl. intros Ha Hb.
  unfold ensureLocalizedText. simpl.
  by rewrite !(coalesce_defined a), !(coalesce_defined b) by assumption.
Qed.

Lemma ensureLocalizedText_idempotent_on_complete_witness :
  ensureLocalizedText
    (ensureLocalizedText (obj [("en", VStr "only-en")]) VUndefined)
    (obj [("fa", VStr "f"); ("en", VStr "e")])
  = ensureLocalizedText (obj [("en", VStr "only-en")]) VUndefined.
Proof.
  apply (ensureLocalizedText_idempotent_on_complete
           (obj [("en", VStr "only-en")]) VUndefined
           (obj [("fa", VStr "f"); ("en", VStr "e")])); reflexivity.
Defined.

(** ** The constructor *)

Lemma default_user_complete :
  nullish (prop DEFAULT_MESSAGES "user") = false
  /\ nullish (prop (prop DEFAULT_MESSAGES "user") "fa") = false
  /\ nullish (prop (prop DEFAULT_MESSAGES "user") "en") = false.
Proof. by vm_compute. Qed.

Lemma default_original_complete :
  nullish (prop DEFAULT_MESSAGES "original") = false
  /\ nullish (prop (prop DEFAULT_MESSAGES "original") "fa") = false
  /\ nullish (prop (prop DEFAULT_MESSAGES "original") "en") = false.
Proof. by vm_compute. Qed.

Lemma complete_messages_intro u o :
  (exists a b, u = obj [("fa", a); ("en", b)]
               /\ nullish a = false /\ nullish b = false) ->
  (exists a b, o = obj [("fa", a); ("en", b)]
               /\ nullish a = false /\ nullish b = false) ->
  complete_messages (obj [("user", u); ("original", o)]).
Proof.
  intros (a & b & -> & ? & ?) (a' & b' & -> & ? & ?).
  exists a, b, a', b'. auto.
Qed.

Lemma ensure_default_user v :
  exists a b, ensureLocalizedText v (prop DEFAULT_MESSAGES "user")
              = obj [("fa", a); ("en", b)]
              /\ nullish a = false /\ nullish b = false.
Proof. apply ensureLocalizedText_complete; apply default_user_complete. Qed.

Lemma ensure_default_original v :
  exists a b, ensureLocalizedText v (prop DEFAULT_MESSAGES "original")
              = obj [("fa", a); ("en", b)]
              /\ nullish a = false /\ nullish b = false.
Proof. apply ensureLocalizedText_complete; apply default_original_complete. Qed.

Lemma normalizeMessages_complete m nm :
  normalizeMessages m = Ok nm -> complete_messages nm.
Proof.
  unfold normalizeMessages.
  destruct (is_string _).
  - intros [= <-].
    apply complete_messages_intro;
      [apply ensure_default_user|apply ensure_default_original].
  - destruct (nullish _); [discriminate|].
    intros [= <-].
    apply complete_messages_intro;
      [apply ensure_default_user|apply ensure_default_original].
Qed.

(** Opens a successful run of the constructor: names the normalized
    messages and breadcrumbs and replaces the instance by its fields. *)
Ltac open_constructor H nm Hnm nb Hnb :=
  unfold AppError_new, bind, lift, ret, throw, Date_now in H;
  match type of H with
  | context [nullish ?o] => destruct (nullish o) eqn:?; [discriminate H|]
  end;
  destruct (is_undefined (prop _ "timestamp")) eqn:?;
  (destruct (normalizeMessages _) as [nm|] eqn:Hnm; [|discriminate H]);
  (destruct (normalizeBreadcrumbs _ _ _) as [[nb ?]|] eqn:Hnb;
   [|discriminate H]);
  injection H as <- <-.

Lemma constructor_instance P options t e t' :
  AppError_new P options t = Ok (e, t') ->
  exists fields, e = VObj CAppError true fields.
Proof. intros H. open_constructor H nm Hnm nb Hnb; eauto. Qed.

Lemma build_constructs P st t e t' :
  build P st t = Ok (e, t') -> AppError_new P (build_options st) t = Ok (e, t').
Proof.
  unfold build, bind, ret. intros H.
  destruct (AppError_new P (build_options st) t) as [[e0 t0]|] eqn:Hn;
    [|discriminate].
  destruct (constructor_instance _ _ _ _ _ Hn) as [fields ->].
  by injection H as <- <-.
Qed.



(** C7. For every constructed AppError the string rendering is
    "AppError(<code>): <message>", where the message is the user pair's
    [en] slot, else its [fa] slot, else the built-in default text; the
    display message set by the constructor is that same text. *)
Theorem toString_renders_user_message (P : platform) (e : value) :
  (exists options t t', AppError_new P options t = Ok (e, t'))
  \/ (exists st t t', build P st t = Ok (e, t')) ->
  let user := prop (prop e "messages") "user" in
  let shown :=
    prop user "en" ?? prop user "fa" ?? prop (prop DEFAULT_MESSAGES "user") "en" in
  toString P e
  = ("AppError(" ++ to_string P (prop e "code") ++ "): "
       ++ to_string P shown)%string
  /\ prop e "message" = VStr (to_string P shown).
Proof.
  intros H.
  assert (Hnew : exists options t t', AppError_new P options t = Ok (e, t')).
  { destruct H as [H|(st & t & t' & H)]; [exact H|].
    apply build_constructs in H. eauto. }
  destruct Hnew as (options & t & t' & Hnew).
  open_constructor Hnew nm Hnm nb Hnb;
    apply normalizeMessages_complete in Hnm
      as (ufa & uen & ofa & oen & -> & Hufa & Huen & Hofa & Hoen);
    unfold toString; simpl;
    rewrite !(coalesce_defined uen) by assumption; auto.
Qed.

(** ** Breadcrumbs *)

Lemma truthy_not_nullish v : truthy v = true -> nullish v = false.
Proof. by destruct v. Qed.

Lemma normalizeBreadcrumb_spec P b t :
  exists r t',
    normalizeBreadcrumb P b t = Ok (r, t')
    /\ (kept b = false -> r = VNull /\ t' = t)
    /\ (kept b = true -> breadcrumb_entry r).
Proof.
  unfold normalizeBreadcrumb, kept.
  destruct (truthy b) eqn:Hb; cbn [negb andb].
  2:{ exists VNull, t. split; [done|]. split; [done|discriminate]. }
  destruct (is_string b) eqn:Hs; cbn [orb].
  - destruct (ensure_default_user b) as (fa & en & Hm & Hfa & Hen).
    unfold bind, Date_now, ret. rewrite Hm. cbn [freeze obj].
    do 2 eexists. split; [reflexivity|]. split; [discriminate|].
    intros _. red. eauto 12.
  - unfold bind, lift, get_prop, ret.
    rewrite (truthy_not_nullish b Hb).
    destruct (truthy (prop b "message")) eqn:Hmsg; cbn [negb].
    2:{ exists VNull, t. split; [done|]. split; [done|discriminate]. }
    destruct (ensure_default_user (prop b "message"))
      as (fa & en & Hm & Hfa & Hen).
    rewrite Hm.
    destruct (truthy (prop b "timestamp"));
      [destruct (time_of P (prop b "timestamp"))|]; cbn [freeze obj];
      (do 2 eexists; split; [reflexivity|]; split; [discriminate|];
       intros _; red; eauto 12).
Qed.

Lemma mapM_normalizeBreadcrumb P xs t :
  exists rs t',
    mapM (normalizeBreadcrumb P) xs t = Ok (rs, t')
    /\ length (List.filter truthy rs) = length (List.filter kept xs)
    /\ Forall breadcrumb_entry (List.filter truthy rs).
Proof.
  revert t. induction xs as [|x xs IH]; intros t; simpl.
  - exists [], t. by repeat split.
  - destruct (normalizeBreadcrumb_spec P x t) as (r & t1 & Hr & Hdrop & Hkeep).
    destruct (IH t1) as (rs & t2 & Hrs & Hlen & Hall).
    exists (r :: rs), t2. unfold bind, ret in *. rewrite Hr, Hrs.
    split; [done|]. simpl.
    destruct (kept x) eqn:Hk.
    + destruct (Hkeep eq_refl) as (fa & en & c & l & d & tm & -> & ? & ?).
      simpl. split; [by rewrite Hlen|].
      constructor; [red; eauto 12|done].
    + destruct (Hdrop eq_refl) as [-> ->]. simpl. by split.
Qed.

Lemma normalizeBreadcrumbs_returns P breadcrumbs t :
  exists rs t',
    normalizeBreadcrumbs P breadcrumbs t = Ok (arr rs, t')
    /\ length rs
       = length (List.filter kept
                   (elems_of (toArray (if is_undefined breadcrumbs
                                       then arr [] else breadcrumbs))))
    /\ Forall breadcrumb_entry rs.
Proof.
  unfold normalizeBreadcrumbs, bind, ret.
  destruct (mapM_normalizeBreadcrumb P
              (elems_of (toArray (if is_undefined breadcrumbs
                                  then arr [] else breadcrumbs))) t)
    as (rs & t' & -> & Hlen & Hall).
  eauto.
Qed.


(** ** Causes *)

Lemma constructor_causes P options t e t' :
  AppError_new P options t = Ok (e, t') ->
  prop e "causes"
  = VArr true
      (if isArray (field options "causes" (arr []))
       then List.filter truthy
              (map normalizeCause (elems_of (field options "causes" (arr []))))
       else []).
Proof.
  intros H.
  open_constructor H nm Hnm nb Hnb; cbn [prop lookup_prop String.eqb Ascii.eqb
    Bool.eqb default from_option];
    destruct (isArray _); reflexivity.
Qed.

Lemma prop_build_options st k :
  In k ["code"; "type"; "level"; "messages"; "reason"; "descriptions";
        "service"; "metadata"; "breadcrumbs"; "causes"; "originalError";
        "timestamp"] ->
  prop (build_options st) k = prop (obj st) k.
Proof.
  intros Hk. simpl in Hk.
  repeat (destruct Hk as [<-|Hk]; [reflexivity|]). destruct Hk.
Qed.

Lemma prop_set_prop_eq k v st : prop (obj (set_prop k v st)) k = v.
Proof. simpl. by rewrite lookup_set_prop_eq. Qed.

Lemma prop_set_prop_ne k k' v st :
  k <> k' -> prop (obj (set_prop k v st)) k' = prop (obj st) k'.
Proof. intros. simpl. by rewrite lookup_set_prop_ne. Qed.

Lemma field_defined o k d : is_undefined (prop o k) = false -> field o k d = prop o k.
Proof. unfold field. by intros ->. Qed.

(** C3. The constructor turns every [causes] input that is not an array
    into the empty array, while the builder's [withCauses] wraps a bare
    value into a one-element array (and turns null or undefined into the
    empty array): building with [withCauses({message:"c"})] yields one
    cause, constructing with [causes: {message:"c"}] yields none. *)
Theorem causes_coercion_is_asymmetric (P : platform) :
  (* the constructor: anything but an array gives no causes *)
  (forall options t e t',
     isArray (prop options "causes") = false ->
     AppError_new P options t = Ok (e, t') ->
     prop e "causes" = VArr true [])
  (* withCauses: a bare value becomes a one-element array *)
  /\ (forall v st,
        nullish v = false -> isArray v = false ->
        withCauses v st = Ok (set_prop "causes" (arr [v]) st))
  (* withCauses: absent or null becomes the empty array *)
  /\ (forall v st,
        nullish v = true -> withCauses v st = Ok (set_prop "causes" (arr []) st))
  (* withCauses: an array is kept *)
  /\ (forall f xs st,
        withCauses (VArr f xs) st = Ok (set_prop "causes" (VArr f xs) st))
  (* building with a bare object yields one cause *)
  /\ (forall st0 st t e t',
        withCauses (obj [("message", VStr "c")]) st0 = Ok st ->
        build P st t = Ok (e, t') ->
        prop e "causes"
        = VArr true
            [VObj CObject true
               [("message", obj [("fa", VStr "c"); ("en", VStr "c")])]])
  (* constructing with the same bare object yields none *)
  /\ (forall options t e t',
        prop options "causes" = obj [("message", VStr "c")] ->
        AppError_new P options t = Ok (e, t') ->
        prop e "causes" = VArr true []).
Proof.
  assert (Hstrict : forall options t e t',
             isArray (prop options "causes") = false ->
             AppError_new P options t = Ok (e, t') ->
             prop e "causes" = VArr true []).
  { intros options t e t' Hna H.
    rewrite (constructor_causes _ _ _ _ _ H). unfold field.
    destruct (is_undefined (prop options "causes")); [reflexivity|].
    by rewrite Hna. }
  repeat apply conj.
  - exact Hstrict.
  - intros v st Hv Ha. unfold withCauses, ensureArray. by rewrite Hv, Ha.
  - intros v st Hv. unfold withCauses, ensureArray. by rewrite Hv.
  - reflexivity.
  - intros st0 st t e t' [= <-] H.
    apply build_constructs in H.
    rewrite (constructor_causes _ _ _ _ _ H).
    rewrite field_defined; rewrite prop_build_options by (simpl; tauto);
      rewrite prop_set_prop_eq; reflexivity.
  - intros options t e t' Hc. apply Hstrict. by rewrite Hc.
Qed.

Lemma filter_enumerable_plain (ps : props_t) :
  List.filter (fun kv => enumerable CObject (fst kv)) ps = ps.
Proof.
  induction ps as [|kv ps IH]; [done|].
  simpl in *. by rewrite IH.
Qed.


(** ** deepMerge on trees *)

Lemma value_induction (Q : value -> Prop) :
  Q VUndefined -> Q VNull -> (forall b, Q (VBool b)) -> (forall n, Q (VNum n)) ->
  Q VNaN -> (forall s, Q (VStr s)) -> (forall f t, Q (VDate f t)) ->
  (forall f xs, Forall Q xs -> Q (VArr f xs)) ->
  (forall c f ps, Forall (fun kv => Q (snd kv)) ps -> Q (VObj c f ps)) ->
  forall v, Q v.
Proof.
  intros H1 H2 H3 H4 H5 H6 H7 Harr Hobj.
  fix IH 1.
  intros [| |b|n| |s|f t|f xs|c f ps];
    [exact H1|exact H2|apply H3|apply H4|exact H5|apply H6|apply H7| |].
  - apply Harr. induction xs as [|x xs IHxs]; constructor; [apply IH|exact IHxs].
  - apply Hobj.
    induction ps as [|[k x] ps IHps]; constructor; [apply IH|exact IHps].
Qed.

Lemma deepMerge_object target c f ps :
  deepMerge target (VObj c f ps)
  = if isObject target
    then obj (merge_loop deepMerge c target ps (own_enumerable target))
    else obj (own_enumerable (VObj c f ps)).
Proof. reflexivity. Qed.

Lemma merge_entry_undefined sv :
  merge_entry (fun t => deepMerge t sv) VUndefined sv = clone sv.
Proof. unfold merge_entry, clone. simpl. by destruct (isObject sv). Qed.

Lemma lookup_prop_None k ps : k ∉ keys ps -> lookup_prop k ps = None.
Proof.
  induction ps as [|[k' v] ps IH]; simpl; [done|].
  intros Hk. apply not_elem_of_cons in Hk as [Hne Hk].
  destruct (String.eqb k k') eqn:E; [by apply String.eqb_eq in E|auto].
Qed.

Lemma set_prop_fresh k v ps : k ∉ keys ps -> set_prop k v ps = (ps ++ [(k, v)])%list.
Proof.
  induction ps as [|[k' v'] ps IH]; simpl; [done|].
  intros Hk. apply not_elem_of_cons in Hk as [Hne Hk].
  destruct (String.eqb k k') eqn:E; [by apply String.eqb_eq in E|].
  by rewrite IH.
Qed.


Lemma keys_app ps qs : keys (ps ++ qs) = (keys ps ++ keys qs)%list.
Proof. apply map_app. Qed.

(** Merging a plain source into a target that has none of its keys appends
    the clones of its properties. *)
Lemma merge_loop_disjoint target ps result :
  NoDup (keys ps) ->
  (forall k, k ∈ keys ps -> prop target k = VUndefined) ->
  (forall k, k ∈ keys ps -> k ∉ keys result) ->
  merge_loop deepMerge CObject target ps result = (result ++ clone_props ps)%list.
Proof.
  revert result. induction ps as [|[k v] ps IH]; intros result Hnd Ht Hr.
  - simpl. by rewrite app_nil_r.
  - simpl in Hnd. apply NoDup_cons in Hnd as [Hk Hnd].
    cbn [merge_loop enumerable].
    rewrite (Ht k) by (simpl; left).
    rewrite merge_entry_undefined.
    rewrite set_prop_fresh by (apply Hr; simpl; left).
    rewrite IH; [by rewrite <- app_assoc|done| |].
    + intros k' Hk'. apply Ht. simpl. by right.
    + intros k' Hk'. rewrite keys_app. simpl.
      rewrite elem_of_app, list_elem_of_singleton.
      intros [Hin| ->]; [|done].
      eapply Hr; [|exact Hin]. simpl. by right.
Qed.

Lemma elem_of_keys_set_prop k' k v ps :
  k' ∈ keys (set_prop k v ps) -> k' = k \/ k' ∈ keys ps.
Proof.
  induction ps as [|[k0 v0] ps IH]; simpl.
  - rewrite list_elem_of_singleton. auto.
  - destruct (String.eqb k k0) eqn:E; simpl; rewrite !elem_of_cons.
    + apply String.eqb_eq in E. subst k0. tauto.
    + intros [->|Hin]; [auto|]. destruct (IH Hin); auto.
Qed.

Lemma NoDup_keys_set_prop k v ps : NoDup (keys ps) -> NoDup (keys (set_prop k v ps)).
Proof.
  induction ps as [|[k' v'] ps IH]; simpl; intros Hnd.
  - apply NoDup_singleton.
  - apply NoDup_cons in Hnd as [Hk' Hnd].
    destruct (String.eqb k k') eqn:E; simpl.
    + apply String.eqb_eq in E. subst k'. by apply NoDup_cons.
    + apply NoDup_cons. split; [|auto].
      intros Hin. apply elem_of_keys_set_prop in Hin as [->|Hin]; [|done].
      by rewrite String.eqb_refl in E.
Qed.







(** Merging a plain source into a plain target with other keys. *)
Lemma deepMerge_disjoint fa pa fb pb :
  NoDup (keys pb) ->
  (forall k, k ∈ keys pb -> k ∉ keys pa) ->
  deepMerge (VObj CObject fa pa) (VObj CObject fb pb)
  = obj (pa ++ clone_props pb).
Proof.
  intros Hnd Hdisj. rewrite deepMerge_object. cbn [isObject own_enumerable].
  rewrite filter_enumerable_plain.
  rewrite merge_loop_disjoint; [done|done| |done].
  intros k Hk. cbn [prop]. by rewrite lookup_prop_None by auto.
Qed.

Lemma lookup_merge_loop_other c target k ps result :
  k ∉ keys ps ->
  lookup_prop k (merge_loop deepMerge c target ps result) = lookup_prop k result.
Proof.
  revert result. induction ps as [|[k' v] ps IH]; intros result Hk; [done|].
  simpl in Hk. apply not_elem_of_cons in Hk as [Hne Hk]. cbn [merge_loop].
  destruct (enumerable c k'); rewrite IH by done; [|done].
  by rewrite lookup_set_prop_ne.
Qed.

(** What the merge stores under an own enumerable key of the source. *)
Lemma lookup_merge_loop c target k sv ps result :
  NoDup (keys ps) -> enumerable c k = true -> lookup_prop k ps = Some sv ->
  lookup_prop k (merge_loop deepMerge c target ps result)
  = Some (merge_entry (fun t => deepMerge t sv) (prop target k) sv).
Proof.
  revert result. induction ps as [|[k' v] ps IH]; intros result Hnd Hen Hk;
    [done|].
  simpl in Hnd. apply NoDup_cons in Hnd as [Hk' Hnd].
  cbn [lookup_prop] in Hk. cbn [merge_loop].
  destruct (String.eqb k k') eqn:E.
  - apply String.eqb_eq in E. subst k'. injection Hk as ->. rewrite Hen.
    rewrite lookup_merge_loop_other by done. apply lookup_set_prop_eq.
  - destruct (enumerable c k'); by apply IH.
Qed.



(** ** Associativity when keys meet only at nested mappings *)

Lemma filter_agree {A} (P Q : A -> Prop)
    `{!forall x, Decision (P x)} `{!forall x, Decision (Q x)} (l : list A) :
  (forall x, x ∈ l -> P x <-> Q x) -> filter P l = filter Q l.
Proof.
  induction l as [|x l IH]; intros Hpq; [done|].
  rewrite !filter_cons.
  assert (Hx : P x <-> Q x) by (apply Hpq, elem_of_cons; by left).
  rewrite IH by (intros y Hy; apply Hpq, elem_of_cons; by right).
  destruct (decide (P x)), (decide (Q x)); tauto || done.
Qed.

Lemma keys_set_prop k v ps :
  keys (set_prop k v ps) = if decide (k ∈ keys ps) then keys ps else keys ps ++ [k].
Proof.
  induction ps as [|[k' v'] ps IH]; simpl.
  - destruct (decide (k ∈ [])) as [H|H]; [by apply elem_of_nil in H|done].
  - destruct (String.eqb k k') eqn:E.
    + apply String.eqb_eq in E. subst k'. simpl.
      rewrite decide_True; [done|]. apply elem_of_cons. by left.
    + apply String.eqb_neq in E. simpl. rewrite IH.
      destruct (decide (k ∈ keys ps)) as [Hin|Hnin].
      * rewrite decide_True; [done|]. apply elem_of_cons. by right.
      * rewrite decide_False; [done|]. rewrite elem_of_cons. tauto.
Qed.

(** The keys after the loop: those of [result], then the new ones in the
    order of the source. *)
Lemma keys_merge_loop target ps result :
  NoDup (keys ps) ->
  keys (merge_loop deepMerge CObject target ps result)
  = keys result ++ filter (fun k => k ∉ keys result) (keys ps).
Proof.
  revert result. induction ps as [|[k v] ps IH]; intros result Hnd.
  - simpl. by rewrite app_nil_r.
  - simpl in Hnd. apply NoDup_cons in Hnd as [Hk Hnd].
    cbn [merge_loop enumerable]. rewrite IH by done. rewrite keys_set_prop.
    simpl. rewrite filter_cons.
    destruct (decide (k ∈ keys result)) as [Hin|Hnin].
    + by rewrite decide_False by auto.
    + rewrite decide_True by done. rewrite <- app_assoc. simpl. do 2 f_equal.
      apply filter_agree. intros k' Hk'.
      rewrite elem_of_app, list_elem_of_singleton.
      split; [tauto|]. intros Hn [?| ->]; [tauto|done].
Qed.

Lemma NoDup_keys_merge_loop c target ps result :
  NoDup (keys result) -> NoDup (keys (merge_loop deepMerge c target ps result)).
Proof.
  revert result. induction ps as [|[k v] ps IH]; intros result Hnd; [done|].
  cbn [merge_loop]. destruct (enumerable c k); [|by apply IH].
  by apply IH, NoDup_keys_set_prop.
Qed.


(** The merge of two plain mappings, by keys and by lookups. *)
Lemma deepMerge_plain fa pa fb pb :
  NoDup (keys pb) ->
  exists M,
    deepMerge (VObj CObject fa pa) (VObj CObject fb pb) = obj M
    /\ keys M = keys pa ++ filter (fun k => k ∉ keys pa) (keys pb)
    /\ (forall k,
          lookup_prop k M
          = match lookup_prop k pb with
            | Some vb => Some (entry (prop (obj pa) k) vb)
            | None => lookup_prop k pa
            end)
    /\ (NoDup (keys pa) -> NoDup (keys M)).
Proof.
  intros Hnd. eexists. split; [|split; [|split]].
  - rewrite deepMerge_object. cbn [isObject own_enumerable].
    rewrite filter_enumerable_plain. reflexivity.
  - by apply keys_merge_loop.
  - intros k. destruct (lookup_prop k pb) as [vb|] eqn:Hb.
    + by erewrite lookup_merge_loop.
    + rewrite lookup_merge_loop_other; [done|].
      intros Hin. clear -Hin Hb.
      induction pb as [|[k' v'] pb IH]; simpl in *; [by apply elem_of_nil in Hin|].
      destruct (String.eqb k k') eqn:E; [done|].
      apply String.eqb_neq in E. apply elem_of_cons in Hin as [?|?]; auto.
  - apply NoDup_keys_merge_loop.
Qed.


Lemma clone_plain f ps :
  NoDup (keys ps) -> clone (VObj CObject f ps) = obj (clone_props ps).
Proof.
  intros Hnd. unfold clone. cbn [isObject]. unfold obj at 1.
  rewrite deepMerge_disjoint; [done|done|].
  intros k _. apply not_elem_of_nil.
Qed.

Lemma entry_objects c1 f1 ps1 c2 f2 ps2 :
  entry (VObj c1 f1 ps1) (VObj c2 f2 ps2)
  = deepMerge (VObj c1 f1 ps1) (VObj c2 f2 ps2).
Proof. reflexivity. Qed.


Lemma prop_plain k ps :
  prop (obj ps) k = default VUndefined (lookup_prop k ps).
Proof. reflexivity. Qed.









(** ** trim *)








Example trim_padded : trim "  X  " = "X".
Proof. reflexivity. Qed.

(** ** The builder *)













(** ** Freezing *)







Lemma toString_renders_user_message_witness :
  exists e t',
    AppError_new sample_platform test_options 0%nat = Ok (e, t')
    /\ toString sample_platform e = "AppError(TEST_CODE): en-user".
Proof.
  destruct (AppError_new sample_platform test_options 0%nat) as [[e t']|] eqn:Hn;
    [|vm_compute in Hn; discriminate].
  exists e, t'. split; [reflexivity|].
  rewrite (proj1 (toString_renders_user_message sample_platform e
                    (or_introl (ex_intro _ _ (ex_intro _ _ (ex_intro _ _ Hn)))))).
  vm_compute in Hn. injection Hn as <- <-. reflexivity.
Defined.



Lemma causes_coercion_is_asymmetric_witness :
  (exists e t',
     build sample_platform
       (set_prop "causes" (arr [obj [("message", VStr "c")]]) sample_state) 1%nat
     = Ok (e, t')
     /\ length (elems_of (prop e "causes")) = 1%nat)
  /\ (exists e t',
        AppError_new sample_platform
          (obj [("code", VStr "X"); ("type", VStr "network");
                ("causes", obj [("message", VStr "c")])]) 1%nat
        = Ok (e, t')
        /\ length (elems_of (prop e "causes")) = 0%nat).
Proof.
  destruct (causes_coercion_is_asymmetric sample_platform)
    as (_ & _ & _ & _ & Hbuild & Hnew).
  split.
  - destruct (build sample_platform _ 1%nat) as [[e t']|] eqn:Hb;
      [|vm_compute in Hb; discriminate].
    exists e, t'. split; [reflexivity|].
    by rewrite (Hbuild sample_state _ _ _ _ eq_refl Hb).
  - destruct (AppError_new sample_platform _ 1%nat) as [[e t']|] eqn:Hn;
      [|vm_compute in Hn; discriminate].
    exists e, t'. split; [reflexivity|].
    by rewrite (fun H => Hnew _ _ _ _ H Hn).
Defined.






(** ** The expectations of the test suite *)

(** tests/utils.localization.test.js *)

Example localization_null_uses_fallback :
  ensureLocalizedText VNull (obj [("fa", VStr "fa"); ("en", VStr "en")])
  = obj [("fa", VStr "fa"); ("en", VStr "en")].
Proof. reflexivity. Qed.

Example localization_string_fills_both :
  ensureLocalizedText (VStr "test") VUndefined
  = obj [("fa", VStr "test"); ("en", VStr "test")].
Proof. reflexivity. Qed.

Example localization_object_fills_missing_locale :
  ensureLocalizedText (obj [("en", VStr "only-en")])
    (obj [("fa", VStr "fallback-fa"); ("en", VStr "fallback-en")])
  = obj [("fa", VStr "only-en"); ("en", VStr "only-en")].
Proof. reflexivity. Qed.

Example localization_number_uses_fallback :
  ensureLocalizedText (VNum 123)
    (obj [("fa", VStr "fa-fallback"); ("en", VStr "en-fallback")])
  = obj [("fa", VStr "fa-fallback"); ("en", VStr "en-fallback")].
Proof. reflexivity. Qed.

Example cloneLocalizedMessages_clones_both :
  cloneLocalizedMessages
    (obj [("user", obj [("fa", VStr "fa-user")]);
          ("original", obj [("en", VStr "en-original")])])
  = Ok (obj [("user", obj [("fa", VStr "fa-user"); ("en", VStr "fa-user")]);
             ("original",
              obj [("fa", VStr "en-original"); ("en", VStr "en-original")])]).
Proof. reflexivity. Qed.

(** tests/utils.deep-merge.test.js *)

Example deepMerge_merges_nested_objects :
  let target :=
    obj [("level1", obj [("value", VNum 1);
                         ("level2", obj [("keep", VBool true)])]);
         ("array", arr [VNum 1; VNum 2])] in
  let source :=
    obj [("level1", obj [("level2", obj [("keep", VBool false);
                                         ("next", VStr "added")])]);
         ("array", arr [VNum 3]);
         ("extra", obj [("flag", VBool true)])] in
  let result := deepMerge target source in
  at_path result ["level1"; "level2"]
  = obj [("keep", VBool false); ("next", VStr "added")]
  /\ prop result "array" = arr [VNum 1; VNum 2; VNum 3]
  /\ prop result "extra" = obj [("flag", VBool true)].
Proof. by vm_compute. Qed.

Example deepMerge_replaces_by_a_primitive :
  deepMerge (obj [("existing", VBool true)]) (VStr "value") = VStr "value".
Proof. reflexivity. Qed.

Example deepMerge_overwrites_on_shape_mismatch :
  prop (deepMerge (obj [("items", arr [VNum 1; VNum 2])])
                  (obj [("items", obj [("value", VNum 3)])])) "items"
  = obj [("value", VNum 3)].
Proof. reflexivity. Qed.

(** tests/app-error.test.js *)

Example constructor_normalizes_string_messages :
  let error :=
    run VUndefined
      (AppError_new sample_platform
         (obj [("code", VStr "CODE"); ("type", VStr "network");
               ("messages", VStr "oops")])) in
  at_path error ["messages"; "user"; "fa"] = VStr "oops"
  /\ at_path error ["messages"; "original"; "en"] = VStr "oops"
  /\ isFrozen (prop error "messages") = true
  /\ isFrozen (at_path error ["messages"; "user"]) = true
  /\ isFrozen (at_path error ["messages"; "original"]) = true.
Proof. by vm_compute. Qed.

Example constructor_normalizes_breadcrumbs_and_causes :
  let error := run VUndefined (AppError_new sample_platform test_options) in
  length (elems_of (prop error "breadcrumbs")) = 2%nat
  /\ length (elems_of (prop error "causes")) = 3%nat
  /\ prop error "level" = VStr "warn"
  /\ toString sample_platform error = "AppError(TEST_CODE): en-user".
Proof. by vm_compute. Qed.

Example constructor_defaults_the_level :
  prop (run VUndefined
          (AppError_new sample_platform
             (obj [("code", VStr "NO_TYPE"); ("type", VStr "unknown-type");
                   ("messages", obj [("user", obj [("en", VStr "Message")])])])))
       "level"
  = VStr "error".
Proof. reflexivity. Qed.

Example constructor_falls_back_to_the_available_locale :
  prop (run VUndefined
          (AppError_new sample_platform
             (obj [("code", VStr "FA_ONLY"); ("type", VStr "unknown");
                   ("messages", obj [("user", obj [("fa", VStr "fa-only")])])])))
       "message"
  = VStr "fa-only"
  /\ prop (run VUndefined
             (AppError_new sample_platform
                (obj [("code", VStr "DEFAULT_MSG"); ("type", VStr "unknown");
                      ("messages", obj [])])))
          "message"
     = VStr "An unexpected error occurred".
Proof. by vm_compute. Qed.

Example constructor_handles_null_breadcrumbs :
  prop (run VUndefined
          (AppError_new sample_platform
             (obj [("code", VStr "NULL_BREAD"); ("type", VStr "network");
                   ("breadcrumbs", VNull)])))
       "breadcrumbs"
  = VArr true [].
Proof. reflexivity. Qed.

(** tests/app-error.builder.test.js *)

Example builder_accumulates :
  let error :=
    run VUndefined
      (built sample_platform
         (obj [("code", VStr "NETWORK_TIMEOUT"); ("type", VStr "network")])
         [WithMessages (VStr "Network down");
          WithReason (VStr "Timeout");
          WithLevel (VStr "fatal");
          WithMetadata (obj [("attempt", VNum 1);
                             ("context", obj [("trace", VStr "abc")]);
                             ("tags", arr [VStr "api"])]);
          WithMetadata (obj [("context", obj [("user", VStr "42")])]);
          WithDescriptions (VStr "One liner");
          WithBreadcrumbs (obj [("message", VStr "First")]);
          WithCauses (arr [obj [("message", VStr "root")]]);
          WithOriginalError (native_error "boom" "Error: boom");
          WithTimestamp (VStr "2024-05-10T13:00:00Z")]) in
  at_path error ["messages"; "user"; "fa"] = VStr "Network down"
  /\ prop error "level" = VStr "fatal"
  /\ prop error "reason" = VStr "Timeout"
  /\ prop error "metadata"
     = VObj CObject true
         [("attempt", VNum 1);
          ("context", obj [("trace", VStr "abc"); ("user", VStr "42")]);
          ("tags", arr [VStr "api"])]
  /\ prop error "timestamp" = VDate false (Some 1715346000000).
Proof. by vm_compute. Qed.

Example builder_coerces_to_arrays :
  let error :=
    run VUndefined
      (built sample_platform
         (obj [("code", VStr "VALIDATION_ERR"); ("type", VStr "validation")])
         [WithDescriptions (VStr "single"); WithBreadcrumbs (VStr "crumb");
          WithCauses (obj [("message", VStr "cause")])]) in
  prop error "descriptions" = VArr true [VStr "single"]
  /\ length (elems_of (prop error "breadcrumbs")) = 1%nat
  /\ length (elems_of (prop error "causes")) = 1%nat.
Proof. by vm_compute. Qed.

Example builder_renders_the_message :
  toString sample_platform
    (run VUndefined
       (built sample_platform sample_options [WithMessages (VStr "down")]))
  = "AppError(X): down".
Proof. reflexivity. Qed.

(** ** Localization: what the normalizers return *)

(** X1. [ensureLocalizedText] always returns a fresh pair of [fa] and [en],
    neither of them [undefined].  A string fills both slots.  A value of
    type object with one locale defined fills the other slot from it and
    never looks at the fallback.  Everything else (null, undefined,
    numbers, booleans, objects with neither locale) yields the two slots
    of the fallback, [null] where the fallback has none. *)
Theorem ensureLocalizedText_fills_missing_locale (v fb : value) :
  exists fa en,
    ensureLocalizedText v fb = obj [("fa", fa); ("en", en)]
    /\ is_undefined fa = false /\ is_undefined en = false
    /\ (is_string v = true -> fa = v /\ en = v)
    /\ (nullish v = false -> type_tag_eqb (typeof v) TObject = true ->
        nullish (prop v "fa") = false \/ nullish (prop v "en") = false ->
        fa = prop v "fa" ?? prop v "en" /\ en = prop v "en" ?? prop v "fa"
        /\ nullish fa = false /\ nullish en = false)
    /\ (nullish v = true
        \/ (is_string v = false
            /\ (type_tag_eqb (typeof v) TObject = false
                \/ (nullish (prop v "fa") = true
                    /\ nullish (prop v "en") = true))) ->
        fa = get_opt fb "fa" ?? VNull /\ en = get_opt fb "en" ?? VNull).
Proof.
  assert (Hfb : forall k,
             get_opt (or_empty_object (or_empty_object fb)) k = get_opt fb k).
  { intros k. by destruct fb. }
  assert (Hdef : forall x, is_undefined (x ?? VNull) = false).
  { intros x. by destruct x. }
  unfold ensureLocalizedText, cloneFallback. rewrite !Hfb.
  destruct (nullish v) eqn:Hn.
  { do 2 eexists. split; [reflexivity|]. repeat apply conj; auto.
    - by destruct v.
    - done. }
  destruct (is_string v) eqn:Hs.
  { do 2 eexists. split; [reflexivity|]. repeat apply conj; auto.
    - by destruct v.
    - by destruct v.
    - destruct v; try done; simpl; intros _ _ [?|?]; done.
    - intros [?|[? _]]; done. }
  destruct (type_tag_eqb (typeof v) TObject) eqn:Ht.
  2:{ do 2 eexists. split; [reflexivity|]. repeat apply conj; auto.
      - done.
      - done. }
  do 2 eexists. split; [reflexivity|]. cbn [prop obj lookup_prop].
  rewrite !String.eqb_refl. simpl (String.eqb "en" "fa")%string. cbn [default from_option].
  unfold id.
  destruct (nullish (prop v "fa")) eqn:Hfa; destruct (nullish (prop v "en")) eqn:Hen;
    unfold coalesce; rewrite ?Hfa, ?Hen; cbn [nullish];
    repeat match goal with
           | |- context [nullish (if nullish ?x then _ else _)] =>
               destruct (nullish x) eqn:?
           end;
    repeat apply conj; try done; try (by intros; intuition congruence);
    try (by destruct (get_opt fb "fa"));
    try (by destruct (get_opt fb "en"));
    try (by destruct (prop v "fa")); try (by destruct (prop v "en")).
Qed.

(** X2. [cloneLocalizedMessages] throws a TypeError for [null] and for
    nothing else.  It never consults the default messages: a side that is
    missing (or [null]) comes back as [{ fa: null, en: null }]. *)
Theorem cloneLocalizedMessages_rejects_only_null (m : value) :
  (m = VNull -> exists msg, cloneLocalizedMessages m = Throw (TypeError msg))
  /\ (m <> VNull ->
      exists user original,
        cloneLocalizedMessages m
        = Ok (obj [("user", user); ("original", original)])
        /\ user = ensureLocalizedText (prop m "user") (obj [])
        /\ original = ensureLocalizedText (prop m "original") (obj [])
        /\ (nullish (prop m "user") = true
            -> user = obj [("fa", VNull); ("en", VNull)])
        /\ (nullish (prop m "original") = true
            -> original = obj [("fa", VNull); ("en", VNull)])).
Proof.
  split.
  - intros ->. eexists. reflexivity.
  - intros Hm.
    assert (Hu : forall x, nullish x = true ->
                 ensureLocalizedText x (obj []) = obj [("fa", VNull); ("en", VNull)]).
    { intros x Hx. unfold ensureLocalizedText. by rewrite Hx. }
    assert (He : forall x, ensureLocalizedText x VUndefined
                           = ensureLocalizedText x (obj [])) by done.
    unfold cloneLocalizedMessages, get_prop.
    destruct (nullish (or_empty_object m)) eqn:Hn; [by destruct m|].
    assert (Hp : forall k, prop (or_empty_object m) k = prop m k)
      by (intros k; by destruct m).
    rewrite !Hp, !He. do 2 eexists. split; [reflexivity|]. auto.
Qed.

(** ** deepMerge: keys, values and identities *)

Lemma merge_loop_nothing_enumerable c target ps result :
  List.filter (fun kv => enumerable c (fst kv)) ps = [] ->
  merge_loop deepMerge c target ps result = result.
Proof.
  revert result. induction ps as [|[k v] ps IH]; intros result; [done|].
  cbn [merge_loop List.filter fst]. destruct (enumerable c k); [done|]. apply IH.
Qed.

(** Merging an object without own enumerable properties. *)
Lemma deepMerge_nothing_enumerable target sv :
  isObject sv = true -> own_enumerable sv = [] ->
  deepMerge target sv
  = if isObject target then obj (own_enumerable target) else obj [].
Proof.
  intros Ho He. destruct sv as [| | | | | |f d| |c f ps]; try done.
  rewrite deepMerge_object. cbn [own_enumerable] in He |- *.
  destruct (isObject target); [|by rewrite He].
  by rewrite merge_loop_nothing_enumerable.
Qed.



(** X4. A source value that is an object without own enumerable
    properties, such as a [Date] or a fresh [Error], does not survive the
    merge: what is stored under its key is a plain copy of the target's
    value when that is an object, and [{}] otherwise. *)
Theorem deepMerge_flattens_dates_and_errors fa pa fb pb k sv :
  NoDup (keys pb) ->
  lookup_prop k pb = Some sv ->
  isObject sv = true -> own_enumerable sv = [] ->
  let tv := prop (obj pa) k in
  prop (deepMerge (VObj CObject fa pa) (VObj CObject fb pb)) k
  = (if isObject tv then obj (own_enumerable tv) else obj [])
  /\ instanceof_Date (prop (deepMerge (VObj CObject fa pa) (VObj CObject fb pb)) k)
     = false
  /\ instanceof_Error (prop (deepMerge (VObj CObject fa pa) (VObj CObject fb pb)) k)
     = false.
Proof.
  intros Hnd Hb Ho He tv.
  destruct (deepMerge_plain fa pa fb pb Hnd) as (M & -> & _ & Hl & _).
  rewrite prop_plain, Hl, Hb. cbn [default from_option]. unfold id.
  fold tv.
  assert (Hent : entry tv sv = deepMerge (if isObject tv then tv else obj []) sv).
  { unfold entry, merge_entry. destruct tv, sv; done. }
  rewrite Hent.
  rewrite deepMerge_nothing_enumerable by done.
  destruct (isObject tv) eqn:E; [rewrite E|]; by cbn.
Qed.

Lemma deepMerge_flattens_dates_and_errors_witness :
  prop (deepMerge (obj [("at", VNum 5)])
                  (obj [("at", VDate false (Some 1700000000000));
                        ("err", native_error "boom" "Error: boom")])) "at"
  = obj []
  /\ prop (deepMerge (obj [("at", VNum 5)])
                     (obj [("at", VDate false (Some 1700000000000));
                           ("err", native_error "boom" "Error: boom")])) "err"
     = obj [].
Proof.
  assert (Hnd : NoDup (keys [("at", VDate false (Some 1700000000000));
                             ("err", native_error "boom" "Error: boom")])).
  { refine (bool_decide_unpack _ _). vm_compute. exact I. }
  split.
  - exact (proj1 (deepMerge_flattens_dates_and_errors
                    false [("at", VNum 5)] false
                    [("at", VDate false (Some 1700000000000));
                     ("err", native_error "boom" "Error: boom")]
                    "at" (VDate false (Some 1700000000000))
                    Hnd eq_refl eq_refl eq_refl)).
  - exact (proj1 (deepMerge_flattens_dates_and_errors
                    false [("at", VNum 5)] false
                    [("at", VDate false (Some 1700000000000));
                     ("err", native_error "boom" "Error: boom")]
                    "err" (native_error "boom" "Error: boom")
                    Hnd eq_refl eq_refl eq_refl)).
Defined.




Lemma set_prop_same k v ps : lookup_prop k ps = Some v -> set_prop k v ps = ps.
Proof.
  induction ps as [|[k' v'] ps IH]; simpl; [done|].
  destruct (String.eqb_spec k k') as [->|_].
  - by intros [= ->].
  - intros H. by rewrite IH.
Qed.

Lemma merge_loop_settled target ps result :
  (forall k sv, (k, sv) ∈ ps ->
     lookup_prop k result = Some (entry (prop target k) sv)) ->
  merge_loop deepMerge CObject target ps result = result.
Proof.
  induction ps as [|[k sv] ps IH]; intros H; [done|].
  cbn [merge_loop enumerable].
  rewrite set_prop_same.
  - apply IH. intros k' sv' Hin. apply H. apply elem_of_cons. by right.
  - apply H. apply elem_of_cons. by left.
Qed.

Lemma deepMerge_patch_twice b :
  array_free_patch b = true ->
  forall a, isObject a = true ->
    deepMerge (deepMerge a b) b = deepMerge a b.
Proof.
  induction b as [| | | | | | | |c f pb IH] using value_induction; try done.
  destruct c; try done. cbn [array_free_patch].
  rewrite andb_true_iff, forallb_forall. intros [Hnd Hall] a Ha.
  apply bool_decide_eq_true in Hnd.
  rewrite (deepMerge_object a). rewrite Ha.
  set (M1 := merge_loop deepMerge CObject a pb (own_enumerable a)).
  unfold obj at 1. rewrite deepMerge_object. cbn [isObject own_enumerable].
  rewrite filter_enumerable_plain. f_equal.
  apply merge_loop_settled. intros k sv Hin.
  assert (Hl : lookup_prop k pb = Some sv).
  { clear -Hnd Hin. induction pb as [|[k' v'] pb IHpb]; [by apply elem_of_nil in Hin|].
    simpl in Hnd. apply NoDup_cons in Hnd as [Hk Hnd].
    apply elem_of_cons in Hin as [[= <- <-]|Hin]; simpl.
    - by rewrite String.eqb_refl.
    - destruct (String.eqb_spec k k') as [->|_]; [|auto].
      exfalso. apply Hk. apply list_elem_of_fmap. by exists (k', sv). }
  assert (H1 : lookup_prop k M1 = Some (entry (prop a k) sv)).
  { unfold M1. by erewrite lookup_merge_loop. }
  rewrite prop_plain, H1. cbn [default from_option]. unfold id. f_equal.
  pose proof (Hall (k, sv) (proj1 (list_elem_of_In _ _) Hin)) as Hp.
  rewrite Forall_forall in IH. specialize (IH (k, sv) Hin Hp).
  cbn [snd] in IH, Hp.
  destruct sv as [| | | | | | | |c' f' ps']; try (by destruct (prop a k)).
  destruct c'; try done.
  assert (Hent : forall tv, exists a', isObject a' = true
                  /\ entry tv (VObj CObject f' ps') = deepMerge a' (VObj CObject f' ps')).
  { intros tv. destruct (isObject tv) eqn:E.
    - exists tv. split; [done|]. unfold entry, merge_entry. rewrite E.
      by destruct tv.
    - exists (obj []). split; [done|]. unfold entry, merge_entry. rewrite E.
      by destruct tv. }
  destruct (Hent (prop a k)) as (a' & Ha' & ->).
  pose proof (IH a' Ha') as Hrec.
  rewrite (deepMerge_object a') in Hrec |- *. rewrite Ha' in Hrec |- *.
  unfold obj in Hrec |- *. rewrite entry_objects. exact (eq_sym Hrec).
Qed.

(** X6. A patch without arrays is idempotent: merging it a second time
    into the result of the first merge changes nothing.  (With arrays it
    is not: they grow at each merge.) *)
Theorem deepMerge_patch_is_idempotent (a b : value) :
  isObject a = true -> array_free_patch b = true ->
  deepMerge (deepMerge a b) b = deepMerge a b.
Proof. intros Ha Hb. revert a Ha. by apply deepMerge_patch_twice. Qed.

Lemma deepMerge_patch_is_idempotent_witness :
  let a := obj [("attempt", VNum 1); ("context", obj [("trace", VStr "abc")])] in
  let b := obj [("context", obj [("user", VStr "42")]); ("attempt", VNull)] in
  deepMerge (deepMerge a b) b = deepMerge a b.
Proof.
  apply deepMerge_patch_is_idempotent; vm_compute; reflexivity.
Defined.

(** ** The constructor: what it rejects and what it fills in *)





(** X9. The timestamp of a constructed error is always a [Date].  A
    [Date] that is passed in is kept; a missing timestamp is the reading
    of the clock at construction; [null] is the epoch (the default only
    replaces [undefined]); a string is parsed, and one that does not
    parse gives an invalid [Date] without any exception. *)
Theorem constructor_timestamp_is_a_date
    (P : platform) (options : value) (t : nat) (e : value) (t' : nat) :
  AppError_new P options t = Ok (e, t') ->
  instanceof_Date (prop e "timestamp") = true
  /\ (is_undefined (prop options "timestamp") = true ->
      prop e "timestamp" = VDate false (Some (clock P t)))
  /\ (instanceof_Date (prop options "timestamp") = true ->
      prop e "timestamp" = prop options "timestamp")
  /\ (prop options "timestamp" = VNull ->
      prop e "timestamp" = VDate false (Some 0))
  /\ (forall s, prop options "timestamp" = VStr s ->
      prop e "timestamp" = VDate false (Date_parse P s)).
Proof.
  intros H.
  open_constructor H nm Hnm nb Hnb;
    cbn [prop lookup_prop String.eqb Ascii.eqb Bool.eqb default from_option];
    unfold id.
  - repeat apply conj; try done.
    + intros Hd. by destruct (prop options "timestamp").
    + intros Hn. by rewrite Hn in *.
    + intros s Hs. by rewrite Hs in *.
  - repeat apply conj.
    + by destruct (instanceof_Date (prop options "timestamp")) eqn:E.
    + intros Hu. congruence.
    + by intros ->.
    + by intros ->.
    + by intros s ->.
Qed.

Lemma constructor_timestamp_is_a_date_witness :
  exists e t',
    AppError_new sample_platform
      (obj [("code", VStr "T"); ("type", VStr "system");
            ("timestamp", VStr "not a date")]) 3%nat
    = Ok (e, t')
    /\ prop e "timestamp" = VDate false None.
Proof.
  destruct (AppError_new sample_platform
              (obj [("code", VStr "T"); ("type", VStr "system");
                    ("timestamp", VStr "not a date")]) 3%nat)
    as [[e t']|] eqn:Hn; [|vm_compute in Hn; discriminate].
  exists e, t'. split; [reflexivity|].
  destruct (constructor_timestamp_is_a_date _ _ _ _ _ Hn) as (_ & _ & _ & _ & H).
  exact (H "not a date" eq_refl).
Defined.

(** ** The builder: invariants of its state *)

Lemma run_call_shape P c st st' :
  run_call P c st = Ok st' ->
  st' = st \/ exists v, st' = set_prop (field_of c) v st.
Proof.
  destruct c as [v|v|v|v|v|v|v|v|v|v]; cbn [run_call field_of].
  - unfold withMessages. destruct (normalizeMessagesInput v); [|done].
    intros [= <-]. eauto.
  - unfold withReason. destruct (_ && _); [done|]. intros [= <-]. eauto.
  - unfold withLevel. destruct (assertLevel P v); [|done]. intros [= <-]. eauto.
  - unfold withService. destruct (nullish _); [done|]. intros [= <-]. eauto.
  - unfold withMetadata. destruct (_ || _); [done|]. intros [= <-]. eauto.
  - intros [= <-]. eauto.
  - intros [= <-]. eauto.
  - intros [= <-]. eauto.
  - unfold withOriginalError. destruct (is_undefined v); [intros [= <-]; auto|].
    destruct (_ && _); [done|]. intros [= <-]. eauto.
  - unfold withTimestamp. destruct (_ && _); [done|]. intros [= <-]. eauto.
Qed.

Lemma field_of_state_key c : field_of c ∈ state_keys.
Proof. destruct c; cbn; repeat (constructor; try done). Qed.

Lemma keys_set_prop_present k v ps : k ∈ keys ps -> keys (set_prop k v ps) = keys ps.
Proof. intros Hk. rewrite keys_set_prop. by rewrite decide_True. Qed.

Lemma createAppErrorBuilder_keys P options t st t' :
  createAppErrorBuilder P options t = Ok (st, t') -> keys st = state_keys.
Proof.
  unfold createAppErrorBuilder, bind, lift, ret, throw, Date_now.
  destruct (nullish options); [done|].
  destruct (assertCode _); [|done]. destruct (assertType P _); [|done].
  destruct createDefaultMessages; [|done].
  by intros [= <- <-].
Qed.

Lemma run_calls_keys P cs st st' :
  keys st = state_keys -> run_calls P cs st = Ok st' -> keys st' = state_keys.
Proof.
  revert st. induction cs as [|c cs IH]; intros st Hk; cbn [run_calls].
  - by intros [= <-].
  - destruct (run_call P c st) as [st1|] eqn:Hc; [|done].
    apply IH. apply run_call_shape in Hc as [->|[v ->]]; [done|].
    rewrite keys_set_prop_present; [done|]. rewrite Hk. apply field_of_state_key.
Qed.

(** X10. A setter assigns one field of the builder's state and leaves
    every other field as it was; and the state of a builder always has
    the same twelve fields, in the same order, whatever setters were
    called. *)
Theorem setters_keep_the_other_fields (P : platform) :
  (forall c st st' k,
     run_call P c st = Ok st' -> k <> field_of c ->
     prop (obj st') k = prop (obj st) k)
  /\ (forall st, reachable P st -> keys st = state_keys).
Proof.
  split.
  - intros c st st' k Hc Hk.
    apply run_call_shape in Hc as [->|[v ->]]; [done|].
    by apply prop_set_prop_ne.
  - intros st (options & t & st0 & t' & calls & Hc & Hr).
    eapply run_calls_keys; [|exact Hr]. by eapply createAppErrorBuilder_keys.
Qed.

(** X11. Every setter but [withMetadata] overwrites: the value it stores
    does not depend on what the builder held before, so in a chain the
    last call wins.  The one exception is [withOriginalError(undefined)],
    which changes nothing.  [withMetadata] accumulates: after a run of
    calls the metadata is the left fold of [deepMerge] over the patches,
    a missing patch counting as [{}]. *)
Theorem setters_overwrite_but_metadata_accumulates (P : platform) :
  (forall c st1 st2 st1' st2',
     field_of c <> "metadata" -> c <> WithOriginalError VUndefined ->
     run_call P c st1 = Ok st1' -> run_call P c st2 = Ok st2' ->
     prop (obj st1') (field_of c) = prop (obj st2') (field_of c))
  /\ (forall st, run_call P (WithOriginalError VUndefined) st = Ok st)
  /\ (forall xs st st',
        run_calls P (map WithMetadata xs) st = Ok st' ->
        prop (obj st') "metadata"
        = fold_left deepMerge (map or_empty_object xs) (prop (obj st) "metadata")).
Proof.
  repeat apply conj.
  - intros c st1 st2 st1' st2' Hm Hu H1 H2.
    destruct c as [v|v|v|v|v|v|v|v|v|v]; cbn [run_call field_of] in *;
      try done.
    + unfold withMessages in *. destruct (normalizeMessagesInput v); [|done].
      injection H1 as <-. injection H2 as <-. by rewrite !prop_set_prop_eq.
    + unfold withReason in *. destruct (_ && _); [done|].
      injection H1 as <-. injection H2 as <-. by rewrite !prop_set_prop_eq.
    + unfold withLevel in *. destruct (assertLevel P v); [|done].
      injection H1 as <-. injection H2 as <-. by rewrite !prop_set_prop_eq.
    + unfold withService in *. destruct (nullish _); [done|].
      injection H1 as <-. injection H2 as <-. by rewrite !prop_set_prop_eq.
    + injection H1 as <-. injection H2 as <-. by rewrite !prop_set_prop_eq.
    + injection H1 as <-. injection H2 as <-. by rewrite !prop_set_prop_eq.
    + injection H1 as <-. injection H2 as <-. by rewrite !prop_set_prop_eq.
    + unfold withOriginalError in *.
      destruct (is_undefined v) eqn:E; [by destruct v|].
      destruct (_ && _); [done|].
      injection H1 as <-. injection H2 as <-. by rewrite !prop_set_prop_eq.
    + unfold withTimestamp in *. destruct (_ && _); [done|].
      injection H1 as <-. injection H2 as <-. by rewrite !prop_set_prop_eq.
  - reflexivity.
  - induction xs as [|x xs IH]; intros st st'; cbn [map run_calls fold_left].
    + by intros [= <-].
    + cbn [run_call]. unfold withMetadata at 1.
      destruct (_ || _); [done|]. intros H. apply IH in H.
      by rewrite H, prop_set_prop_eq.
Qed.









(** The fields of a constructed error, read off the options. *)
Lemma constructor_fields P options t e t' :
  AppError_new P options t = Ok (e, t') ->
  prop e "type" = prop options "type"
  /\ prop e "level"
     = prop options "level"
         ?? prop DEFAULT_LEVEL_BY_TYPE (to_string P (prop options "type"))
         ?? ERROR_LEVELS_ERROR
  /\ prop e "reason" = field options "reason" VNull
  /\ prop e "descriptions" = freeze (field options "descriptions" (arr []))
  /\ prop e "service"
     = (if truthy (field options "service" VNull)
        then freeze (obj (own_enumerable (field options "service" VNull)))
        else VNull)
  /\ prop e "metadata"
     = freeze (obj (own_enumerable (field options "metadata" (obj []))))
  /\ prop e "originalError" = field options "originalError" VNull ?? VNull
  /\ (exists rs, prop e "breadcrumbs" = VArr true rs /\ Forall breadcrumb_entry rs)
  /\ prop e "timestamp"
     = (if is_undefined (prop options "timestamp")
        then VDate false (Some (clock P t))
        else if instanceof_Date (prop options "timestamp")
             then prop options "timestamp"
             else VDate false (time_of P (prop options "timestamp"))).
Proof.
  intros H.
  open_constructor H nm Hnm nb Hnb;
    match type of Hnb with
    | normalizeBreadcrumbs P ?b ?t0 = _ =>
        destruct (normalizeBreadcrumbs_returns P b t0)
          as (rs & t1 & Hrs & _ & Hall)
    end;
    rewrite Hrs in Hnb; injection Hnb as <- <-;
    cbn [prop lookup_prop String.eqb Ascii.eqb Bool.eqb default from_option];
    unfold id; repeat apply conj; try reflexivity; eauto.
Qed.

Lemma field_build_options st k d :
  In k state_keys ->
  field (build_options st) k d
  = if is_undefined (prop (obj st) k) then d else prop (obj st) k.
Proof. intros Hk. unfold field. by rewrite prop_build_options. Qed.




(** ** Normal forms: causes, breadcrumbs and the round trip through toJSON *)

Lemma ensureLocalizedText_fixed fa en f fb :
  nullish fa = false -> nullish en = false ->
  ensureLocalizedText (VObj CObject f [("fa", fa); ("en", en)]) fb
  = obj [("fa", fa); ("en", en)].
Proof.
  intros Hfa Hen. unfold ensureLocalizedText. simpl.
  by rewrite !(coalesce_defined fa), !(coalesce_defined en) by done.
Qed.

Lemma set_prop_twice k v w ps : set_prop k v (set_prop k w ps) = set_prop k v ps.
Proof.
  induction ps as [|[k' v'] ps IH]; simpl.
  - by rewrite String.eqb_refl.
  - destruct (String.eqb k k') eqn:E; simpl.
    + by rewrite String.eqb_refl.
    + by rewrite E, IH.
Qed.

Lemma normalizeCause_fixed x : normalizeCause (normalizeCause x) = normalizeCause x.
Proof.
  assert (H : forall y, y = normalizeCause x -> normalizeCause y = y);
    [|by apply H].
  intros y Hy. unfold normalizeCause in Hy.
  destruct (truthy x) eqn:Hx; cbn [negb] in Hy; [|by subst y].
  destruct (instanceof_AppError x) eqn:Ha.
  { subst y. unfold normalizeCause. by rewrite Hx, Ha. }
  destruct (instanceof_Error x) eqn:He.
  { destruct (ensure_default_original (prop x "message"))
      as (fa & en & Hm & Hfa & Hen).
    rewrite Hm in Hy. subst y.
    cbn [freeze obj]. unfold normalizeCause.
    cbn [truthy negb instanceof_AppError instanceof_Error typeof type_tag_eqb
         has_prop lookup_prop String.eqb Ascii.eqb Bool.eqb andb prop
         default from_option own_enumerable].
    unfold id. rewrite bool_decide_eq_true_2 by eauto.
    rewrite filter_enumerable_plain. unfold obj.
    rewrite ensureLocalizedText_fixed by done. reflexivity. }
  destruct (type_tag_eqb (typeof x) TObject && has_prop "message" x) eqn:Ho.
  2:{ subst y. unfold normalizeCause. by rewrite Hx, Ha, He, Ho. }
  destruct (ensure_default_original (prop x "message"))
    as (fa & en & Hm & Hfa & Hen).
  rewrite Hm in Hy. subst y.
  cbn [freeze obj]. unfold normalizeCause.
  cbn [truthy negb instanceof_AppError instanceof_Error typeof type_tag_eqb
       has_prop andb prop own_enumerable].
  rewrite lookup_set_prop_eq. cbn [default from_option]. unfold id.
  rewrite bool_decide_eq_true_2 by eauto.
  rewrite filter_enumerable_plain. unfold obj.
  rewrite ensureLocalizedText_fixed by done.
  cbn [freeze obj]. by rewrite set_prop_twice.
Qed.

(** X13. [normalizeCause] is idempotent: a cause that has been normalized
    is left as it is by a second normalization, so the causes of one
    error can be handed to the constructor of another without change. *)
Theorem normalizeCause_is_idempotent (xs : list value) :
  (forall x, normalizeCause (normalizeCause x) = normalizeCause x)
  /\ List.filter truthy
       (map normalizeCause (List.filter truthy (map normalizeCause xs)))
     = List.filter truthy (map normalizeCause xs).
Proof.
  split; [apply normalizeCause_fixed|].
  induction xs as [|x xs IH]; [done|]. cbn [map List.filter].
  destruct (truthy (normalizeCause x)) eqn:Hx; [|exact IH].
  cbn [map List.filter]. rewrite normalizeCause_fixed, Hx. by rewrite IH.
Qed.

Lemma coalesce_null_defined x : is_undefined (x ?? VNull) = false.
Proof. by destruct x. Qed.

Lemma normalizeBreadcrumb_normal P b t :
  exists r t',
    normalizeBreadcrumb P b t = Ok (r, t') /\ (r = VNull \/ normal_crumb r).
Proof.
  unfold normalizeBreadcrumb.
  destruct (truthy b) eqn:Hb; cbn [negb].
  2:{ exists VNull, t. split; [done|by left]. }
  destruct (is_string b) eqn:Hs.
  - destruct (ensure_default_user b) as (fa & en & Hm & Hfa & Hen).
    unfold bind, Date_now, ret. rewrite Hm. cbn [freeze obj].
    do 2 eexists. split; [reflexivity|]. right.
    exists fa, en, VNull, VNull, VNull. eexists. by repeat apply conj.
  - unfold bind, lift, get_prop, ret.
    rewrite (truthy_not_nullish b Hb).
    destruct (truthy (prop b "message")) eqn:Hmsg; cbn [negb].
    2:{ exists VNull, t. split; [done|by left]. }
    destruct (ensure_default_user (prop b "message"))
      as (fa & en & Hm & Hfa & Hen).
    rewrite Hm.
    destruct (truthy (prop b "timestamp"));
      [destruct (time_of P (prop b "timestamp"))|]; cbn [freeze obj];
      (do 2 eexists; split; [reflexivity|]; right;
       do 6 eexists; split; [reflexivity|];
       repeat apply conj; try done; apply coalesce_null_defined).
Qed.

Lemma mapM_normalizeBreadcrumb_normal P xs t rs t' :
  mapM (normalizeBreadcrumb P) xs t = Ok (rs, t') ->
  Forall normal_crumb (List.filter truthy rs).
Proof.
  revert t rs. induction xs as [|x xs IH]; intros t rs; cbn [mapM].
  - unfold ret. intros [= <- <-]. constructor.
  - unfold bind, ret.
    destruct (normalizeBreadcrumb_normal P x t) as (r & t1 & -> & Hr).
    destruct (mapM (normalizeBreadcrumb P) xs t1) as [[rs1 t2]|] eqn:Hm; [|done].
    intros [= <- <-]. apply IH in Hm. cbn [List.filter].
    destruct Hr as [->|Hn]; [exact Hm|].
    assert (truthy r = true) as -> by (by destruct Hn as (?&?&?&?&?&?&->&_)).
    by constructor.
Qed.

Lemma normalizeBreadcrumb_fixed P r t :
  normal_crumb r -> stable_crumb r -> normalizeBreadcrumb P r t = Ok (r, t).
Proof.
  intros (fa & en & c & l & d & tm & -> & Hfa & Hen & Hc & Hl & Hd)
         (tm' & Htm & Hnz & Hr).
  cbn in Htm. injection Htm as <-.
  unfold normalizeBreadcrumb.
  cbn [truthy negb is_string typeof type_tag_eqb].
  unfold bind, lift, get_prop, ret.
  cbn [nullish prop lookup_prop String.eqb Ascii.eqb Bool.eqb default from_option].
  unfold id. cbn [truthy negb time_of].
  destruct (tm =? 0) eqn:E; [apply Z.eqb_eq in E; contradiction|].
  cbn [negb]. destruct (Z.abs tm <=? max_time) eqn:E2; [|apply Z.leb_gt in E2; lia].
  unfold obj. rewrite ensureLocalizedText_fixed by done.
  cbn [freeze obj].
  replace (c ?? VNull) with c by (by destruct c).
  replace (l ?? VNull) with l by (by destruct l).
  replace (d ?? VNull) with d by (by destruct d).
  reflexivity.
Qed.

Lemma mapM_normalizeBreadcrumb_fixed P rs t :
  Forall normal_crumb rs -> Forall stable_crumb rs ->
  mapM (normalizeBreadcrumb P) rs t = Ok (rs, t).
Proof.
  induction 1 as [|r rs Hr Hrs IH]; intros Hs; [done|].
  apply Forall_cons in Hs as [Hs1 Hs2]. cbn [mapM]. unfold bind, ret.
  rewrite normalizeBreadcrumb_fixed by done. by rewrite IH.
Qed.

Lemma filter_truthy_normal rs :
  Forall normal_crumb rs -> List.filter truthy rs = rs.
Proof.
  induction 1 as [|r rs Hr Hrs IH]; [done|]. cbn [List.filter].
  destruct Hr as (?&?&?&?&?&?&->&_). cbn [truthy]. by rewrite IH.
Qed.

Lemma normalizeBreadcrumbs_fixed P f rs t :
  Forall normal_crumb rs -> Forall stable_crumb rs ->
  normalizeBreadcrumbs P (VArr f rs) t = Ok (arr rs, t).
Proof.
  intros Hn Hs. unfold normalizeBreadcrumbs. cbn [is_undefined toArray nullish isArray elems_of].
  unfold bind, ret. rewrite mapM_normalizeBreadcrumb_fixed by done.
  by rewrite filter_truthy_normal.
Qed.

(** X14. Normalizing breadcrumbs is idempotent up to the clock: entries
    that came out of [normalizeBreadcrumbs] come out of a second pass
    unchanged, and without a reading of the clock, provided their time
    stamps are not zero and lie in the range of [Date].  (An entry
    stamped [0] is falsy to the test [timestamp ? ... : Date.now()] and
    is stamped anew.) *)
Theorem normalizeBreadcrumbs_is_idempotent
    (P : platform) (breadcrumbs : value) (t : nat) (rs : list value) (t' : nat) :
  normalizeBreadcrumbs P breadcrumbs t = Ok (arr rs, t') ->
  (Forall stable_crumb rs ->
   forall t2, normalizeBreadcrumbs P (arr rs) t2 = Ok (arr rs, t2))
  /\ (forall category level data t2,
        exists r,
          normalizeBreadcrumb P
            (VObj CObject true
               [("message", obj [("fa", VStr "m"); ("en", VStr "m")]);
                ("category", category); ("level", level); ("data", data);
                ("timestamp", VNum 0)]) t2
          = Ok (r, S t2)
          /\ prop r "timestamp" = VNum (clock P t2)).
Proof.
  intros H. split.
  - intros Hs t2. apply normalizeBreadcrumbs_fixed; [|done].
    unfold normalizeBreadcrumbs, bind, ret in H.
    destruct (mapM _ _ _) as [[rs0 t0]|] eqn:Hm; [|done].
    injection H as <- <-. by eapply mapM_normalizeBreadcrumb_normal.
  - intros c l d t2. eexists. split.
    + unfold normalizeBreadcrumb, bind, lift, get_prop, ret, Date_now.
      simpl. reflexivity.
    + reflexivity.
Qed.

Lemma normalizeBreadcrumbs_is_idempotent_witness :
  normalizeBreadcrumbs sample_platform
    (arr [VObj CObject true
            [("message", obj [("fa", VStr "crumb"); ("en", VStr "crumb")]);
             ("category", VNull); ("level", VNull); ("data", VNull);
             ("timestamp", VNum 1700000000000)]]) 5%nat
  = Ok (arr [VObj CObject true
               [("message", obj [("fa", VStr "crumb"); ("en", VStr "crumb")]);
                ("category", VNull); ("level", VNull); ("data", VNull);
                ("timestamp", VNum 1700000000000)]], 5%nat).
Proof.
  refine (proj1 (normalizeBreadcrumbs_is_idempotent sample_platform
                   (VStr "crumb") 0%nat _ 1%nat eq_refl) _ 5%nat).
  repeat constructor. exists 1700000000000. split; [reflexivity|].
  split; [done|]. vm_compute. discriminate.
Defined.

Lemma filter_map_normalizeCause_normal xs :
  Forall normal_cause (List.filter truthy (map normalizeCause xs)).
Proof.
  induction xs as [|x xs IH]; [constructor|]. cbn [map List.filter].
  destruct (truthy (normalizeCause x)) eqn:Hx; [|exact IH].
  constructor; [|exact IH]. split; [done|apply normalizeCause_fixed].
Qed.

Lemma normal_causes_fixed cs :
  Forall normal_cause cs -> List.filter truthy (map normalizeCause cs) = cs.
Proof.
  induction 1 as [|c cs [Ht Hc] Hcs IH]; [done|]. cbn [map List.filter].
  by rewrite Hc, Ht, IH.
Qed.

Lemma freeze_freeze v : freeze (freeze v) = freeze v.
Proof. by destruct v. Qed.

Lemma is_undefined_freeze v : is_undefined (freeze v) = is_undefined v.
Proof. by destruct v. Qed.

Lemma is_undefined_field o k d : is_undefined d = false -> is_undefined (field o k d) = false.
Proof. intros Hd. unfold field. by destruct (is_undefined (prop o k)) eqn:E. Qed.

Lemma normalizeMessages_fixed ufa uen ofa oen :
  nullish ufa = false -> nullish uen = false ->
  nullish ofa = false -> nullish oen = false ->
  normalizeMessages
    (VObj CObject true
       [("user", VObj CObject true [("fa", ufa); ("en", uen)]);
        ("original", VObj CObject true [("fa", ofa); ("en", oen)])])
  = Ok (obj [("user", obj [("fa", ufa); ("en", uen)]);
             ("original", obj [("fa", ofa); ("en", oen)])]).
Proof.
  intros. unfold normalizeMessages.
  cbn [or_empty_object is_undefined is_string typeof type_tag_eqb nullish].
  cbn [prop lookup_prop String.eqb Ascii.eqb Bool.eqb default from_option].
  unfold id. cbn [coalesce nullish].
  by rewrite !ensureLocalizedText_fixed by done.
Qed.

(** The shape of every constructed error. *)
Lemma constructor_normal_form P options t e t' :
  AppError_new P options t = Ok (e, t') ->
  exists ufa uen ofa oen code type level reason descriptions service metadata
         rs cs originalError timestamp stack,
    e = VObj CAppError true
          [("message", VStr (to_string P uen));
           ("name", VStr "AppError");
           ("code", code); ("type", type); ("level", level);
           ("messages",
            VObj CObject true
              [("user", VObj CObject true [("fa", ufa); ("en", uen)]);
               ("original", VObj CObject true [("fa", ofa); ("en", oen)])]);
           ("reason", reason); ("descriptions", descriptions);
           ("service", service); ("metadata", metadata);
           ("breadcrumbs", VArr true rs); ("causes", VArr true cs);
           ("originalError", originalError); ("timestamp", timestamp);
           ("stack", stack)]
    /\ (nullish ufa = false /\ nullish uen = false
        /\ nullish ofa = false /\ nullish oen = false)
    /\ nullish level = false
    /\ is_undefined reason = false
    /\ (is_undefined descriptions = false /\ freeze descriptions = descriptions)
    /\ (service = VNull \/ exists ps, service = VObj CObject true ps)
    /\ (exists ps, metadata = VObj CObject true ps)
    /\ Forall normal_crumb rs
    /\ Forall normal_cause cs
    /\ instanceof_Date timestamp = true
    /\ (truthy stack = true \/ stack = platform_stack P).
Proof.
  intros H.
  assert (Hlevel : nullish (prop options "level"
                     ?? prop DEFAULT_LEVEL_BY_TYPE (to_string P (prop options "type"))
                     ?? ERROR_LEVELS_ERROR) = false).
  { apply nullish_coalesce. reflexivity. }
  assert (Hstack : forall st oe,
             let s := if truthy st then st
                      else if truthy (get_opt oe "stack") then get_opt oe "stack"
                           else platform_stack P in
             truthy s = true \/ s = platform_stack P).
  { intros st oe. cbn zeta. destruct (truthy st) eqn:E1; [by left|].
    destruct (truthy (get_opt oe "stack")) eqn:E2; [by left|by right]. }
  assert (Hc : forall (c : bool) X,
             freeze (if c then arr X else arr []) = VArr true (if c then X else []))
    by (by intros []).
  open_constructor H nm Hnm nb Hnb;
    apply normalizeMessages_complete in Hnm
      as (ufa & uen & ofa & oen & -> & Hufa & Huen & Hofa & Hoen);
    match type of Hnb with
    | normalizeBreadcrumbs P ?b ?t0 = _ =>
        let Hm := fresh "Hm" in
        unfold normalizeBreadcrumbs, bind, ret in Hnb;
        destruct (mapM _ _ _) as [[rs0 t1]|] eqn:Hm; [|discriminate Hnb];
        injection Hnb as <- <-;
        apply mapM_normalizeBreadcrumb_normal in Hm
    end;
    (do 16 eexists; split;
     [cbn [prop obj lookup_prop String.eqb Ascii.eqb Bool.eqb default from_option
           own_enumerable List.filter enumerable fst freeze arr];
      unfold id; rewrite !(coalesce_defined uen) by assumption; rewrite Hc;
      reflexivity|]);
    (repeat apply conj;
     first
       [ assumption
       | reflexivity
       | apply is_undefined_field; reflexivity
       | rewrite is_undefined_freeze; apply is_undefined_field; reflexivity
       | apply freeze_freeze
       | destruct (truthy (field options "service" VNull));
         [right; cbn; eauto|by left]
       | by (cbn; eauto)
       | destruct (isArray (field options "causes" (arr [])));
         [apply filter_map_normalizeCause_normal|constructor]
       | by destruct (instanceof_Date (prop options "timestamp")) eqn:E
       | apply Hstack ]).
Qed.

(** X15. Round trip through [toJSON]: constructing an error again from
    the object that [toJSON()] returns gives the same error, field by
    field, frozen flags included, except that the original error (which
    [toJSON] leaves out) is [null]; and no clock is read.  The only
    condition is on the time stamps of the breadcrumbs, which must not be
    zero and must lie in the range of [Date]. *)
Theorem toJSON_round_trip
    (P : platform) (options : value) (t : nat) (e : value) (t' : nat) :
  AppError_new P options t = Ok (e, t') ->
  Forall stable_crumb (elems_of (prop e "breadcrumbs")) ->
  forall t2, AppError_new P (toJSON e) t2 = Ok (without_originalError e, t2).
Proof.
  intros H Hs t2.
  destruct (constructor_normal_form _ _ _ _ _ H)
    as (ufa & uen & ofa & oen & code & type & level & reason & descriptions
        & service & metadata & rs & cs & originalError & timestamp & stack
        & -> & (Hufa & Huen & Hofa & Hoen) & Hlevel & Hreason & (Hd1 & Hd2)
        & Hservice & (mps & ->) & Hrs & Hcs & Hts & Hstack).
  cbn [prop lookup_prop String.eqb Ascii.eqb Bool.eqb default from_option elems_of]
    in Hs. unfold id in Hs.
  unfold toJSON.
  cbn [map prop lookup_prop String.eqb Ascii.eqb Bool.eqb default from_option].
  unfold id. unfold AppError_new, field.
  cbn [nullish obj prop lookup_prop String.eqb Ascii.eqb Bool.eqb default from_option].
  unfold id.
  rewrite Hreason, Hd1.
  cbn [is_undefined].
  assert (Hut : is_undefined timestamp = false) by (by destruct timestamp).
  rewrite Hut.
  unfold bind, lift, ret.
  rewrite normalizeMessages_fixed by done.
  rewrite (normalizeBreadcrumbs_fixed P true rs t2 Hrs Hs).
  cbn [prop obj lookup_prop String.eqb Ascii.eqb Bool.eqb default from_option].
  unfold id.
  rewrite !(coalesce_defined uen) by done.
  rewrite !(coalesce_defined level) by done.
  cbn [own_enumerable List.filter enumerable fst freeze obj isArray elems_of
       coalesce nullish].
  rewrite (normal_causes_fixed cs Hcs).
  rewrite filter_enumerable_plain. rewrite Hd2, Hts.
  cbn [without_originalError set_prop String.eqb Ascii.eqb Bool.eqb].
  assert (Hsv : (if truthy (if is_undefined service then VNull else service)
                 then VObj CObject true
                        (own_enumerable
                           (if is_undefined service then VNull else service))
                 else VNull) = service).
  { destruct Hservice as [->|[ps ->]]; [reflexivity|].
    cbn [is_undefined truthy own_enumerable freeze].
    by rewrite filter_enumerable_plain. }
  rewrite Hsv.
  assert (Hst : (if truthy (if is_undefined stack then VNull else stack)
                 then if is_undefined stack then VNull else stack
                 else if truthy (get_opt VNull "stack")
                      then get_opt VNull "stack"
                      else match captureStackTrace P with
                           | Some trace => trace
                           | None => new_error_stack P
                           end) = stack).
  { destruct Hstack as [Htr|Heq].
    - assert (is_undefined stack = false) as -> by (by destruct stack).
      by rewrite Htr.
    - destruct (truthy (if is_undefined stack then VNull else stack)) eqn:E.
      + by destruct stack.
      + cbn. by rewrite Heq. }
  rewrite Hst. reflexivity.
Qed.

Lemma toJSON_round_trip_witness :
  exists e t',
    AppError_new sample_platform test_options 0%nat = Ok (e, t')
    /\ AppError_new sample_platform (toJSON e) 9%nat
       = Ok (without_originalError e, 9%nat).
Proof.
  destruct (AppError_new sample_platform test_options 0%nat) as [[e t']|] eqn:Hn;
    [|vm_compute in Hn; discriminate].
  exists e, t'. split; [reflexivity|].
  apply (toJSON_round_trip sample_platform test_options 0%nat e t' Hn).
  vm_compute in Hn. injection Hn as <- <-.
  repeat constructor; eexists; (split; [reflexivity|]);
    (split; [done|vm_compute; discriminate]).
Defined.

(** ** Object literals with spread *)


Lemma lookup_assign_props k ps result :
  NoDup (keys ps) ->
  lookup_prop k (assign_props ps result)
  = match lookup_prop k ps with
    | Some v => Some v
    | None => lookup_prop k result
    end.
Proof.
  unfold assign_props. revert result.
  induction ps as [|[k' v] ps IH]; intros result Hnd; [done|].
  simpl in Hnd. apply NoDup_cons in Hnd as [Hk Hnd].
  cbn [fold_left fst snd lookup_prop]. rewrite IH by done.
  destruct (String.eqb_spec k k') as [->|Hne].
  - rewrite lookup_prop_None by done. apply lookup_set_prop_eq.
  - destruct (lookup_prop k ps); [done|]. by rewrite lookup_set_prop_ne.
Qed.

Lemma lookup_filter_keys (keep : string -> bool) k ps :
  lookup_prop k (List.filter (fun kv => keep (fst kv)) ps)
  = if keep k then lookup_prop k ps else None.
Proof.
  induction ps as [|[k' v] ps IH]; cbn [List.filter lookup_prop fst].
  - by destruct (keep k).
  - destruct (keep k') eqn:Hk'; cbn [lookup_prop];
      destruct (String.eqb_spec k k') as [->|Hne]; rewrite ?IH, ?Hk'; try done.
Qed.

Lemma keys_filter_keys (keep : string -> bool) ps :
  keys (List.filter (fun kv => keep (fst kv)) ps) = List.filter keep (keys ps).
Proof.
  induction ps as [|[k v] ps IH]; [done|]. cbn [List.filter keys map fst].
  destruct (keep k); cbn [keys map fst]; by f_equal.
Qed.

Lemma NoDup_filter_keys (keep : string -> bool) ps :
  NoDup (keys ps) -> NoDup (keys (List.filter (fun kv => keep (fst kv)) ps)).
Proof.
  intros Hnd. rewrite keys_filter_keys.
  induction (keys ps) as [|k ks IH]; [constructor|].
  apply NoDup_cons in Hnd as [Hk Hnd]. cbn [List.filter].
  destruct (keep k); [|auto]. apply NoDup_cons. split; [|auto].
  intros Hin. apply Hk. apply list_elem_of_In in Hin.
  apply filter_In in Hin as [Hin _]. by apply list_elem_of_In.
Qed.





(** ** src/helpers/factories.js: the helpers *)



Lemma type_defaults_complete s :
  exists ufa uen ofa oen,
    prop DEFAULT_TYPE_MESSAGES s ?? DEFAULT_MESSAGES
    = VObj CObject true
        [("user", VObj CObject true [("fa", VStr ufa); ("en", VStr uen)]);
         ("original", VObj CObject true [("fa", VStr ofa); ("en", VStr oen)])].
Proof.
  unfold DEFAULT_TYPE_MESSAGES. cbn [prop lookup_prop].
  repeat match goal with
         | |- context [String.eqb s ?k] =>
             destruct (String.eqb s k); [do 4 eexists; reflexivity|]
         end.
  do 4 eexists; reflexivity.
Qed.

Lemma ensureLocalizedText_against_strings v f ufa uen :
  exists a b,
    ensureLocalizedText v (VObj CObject f [("fa", VStr ufa); ("en", VStr uen)])
    = obj [("fa", a); ("en", b)]
    /\ nullish a = false /\ nullish b = false.
Proof. by apply ensureLocalizedText_complete. Qed.

Lemma normalizeMessagesInput_complete m :
  complete_messages m -> normalizeMessagesInput m = Ok m.
Proof.
  intros (ufa & uen & ofa & oen & -> & Hufa & Huen & Hofa & Hoen).
  unfold normalizeMessagesInput, obj.
  cbn [truthy negb is_string typeof type_tag_eqb].
  cbn [prop lookup_prop String.eqb Ascii.eqb Bool.eqb default from_option].
  unfold id. cbn [coalesce nullish].
  by rewrite !ensureLocalizedText_fixed by done.
Qed.

Lemma cloneTypeMessages_complete P type messages :
  complete_messages (cloneTypeMessages P type messages).
Proof.
  unfold cloneTypeMessages.
  destruct (type_defaults_complete (to_string P type))
    as (ufa & uen & ofa & oen & ->).
  cbn [prop lookup_prop String.eqb Ascii.eqb Bool.eqb default from_option].
  unfold id.
  destruct (truthy messages); cbn [negb].
  2:{ cbn [own_enumerable List.filter enumerable fst].
      do 4 eexists. split; [reflexivity|]. by repeat apply conj. }
  destruct (is_string messages).
  - apply complete_messages_intro; apply ensureLocalizedText_against_strings.
  - apply complete_messages_intro; apply ensureLocalizedText_against_strings.
Qed.


(** ** applyCommonOptions as a chain of setter calls *)



Lemma run_calls_app P cs1 cs2 st :
  run_calls P (cs1 ++ cs2) st
  = (st' <~ run_calls P cs1 st ;; run_calls P cs2 st').
Proof.
  revert st. induction cs1 as [|c cs1 IH]; intros st; cbn [app run_calls and_then].
  - reflexivity.
  - destruct (run_call P c st); [apply IH|reflexivity].
Qed.

Lemma when_run_call {B} P (b : bool) c st (k : state -> outcome B) :
  (st' <~ when b (run_call P c) st ;; k st')
  = (st' <~ run_calls P (if b then [c] else []) st ;; k st').
Proof.
  destruct b; cbn [when run_calls and_then]; [|reflexivity].
  by destruct (run_call P c st).
Qed.

Lemma applyCommonOptions_calls P type options st :
  nullish (or_empty_object options) = false ->
  applyCommonOptions P type options st
  = run_calls P (common_calls P type options) st.
Proof.
  intros Ho. unfold applyCommonOptions, common_calls. rewrite Ho.
  set (o := or_empty_object options).
  change (withMessages ?m st) with (run_call P (WithMessages m) st).
  cbn [app run_calls].
  destruct (run_call P (WithMessages _) st) as [st1|]; cbn [and_then]; [|done].
  change (withReason ?v) with (run_call P (WithReason v)).
  change (withLevel P ?v) with (run_call P (WithLevel v)).
  change (withDescriptions ?v) with (run_call P (WithDescriptions v)).
  change (withMetadata ?v) with (run_call P (WithMetadata v)).
  change (withService ?v) with (run_call P (WithService v)).
  change (withBreadcrumbs ?v) with (run_call P (WithBreadcrumbs v)).
  change (withCauses ?v) with (run_call P (WithCauses v)).
  change (withOriginalError ?v) with (run_call P (WithOriginalError v)).
  change (withTimestamp P ?v) with (run_call P (WithTimestamp v)).
  repeat (rewrite run_calls_app, when_run_call;
          match goal with
          | |- context [run_calls P (if ?b then [?c] else []) ?s] =>
              destruct (run_calls P (if b then [c] else []) s);
              cbn [and_then]; [|reflexivity]
          end).
  rewrite when_run_call.
  match goal with
  | |- context [run_calls P (if ?b then [?c] else []) ?s] =>
      destruct (run_calls P (if b then [c] else []) s); reflexivity
  end.
Qed.




Lemma run_calls_frame P cs st st' k :
  Forall (fun c => field_of c <> k) cs ->
  run_calls P cs st = Ok st' -> prop (obj st') k = prop (obj st) k.
Proof.
  intros Hall. revert st. induction Hall as [|c cs Hc Hcs IH]; intros st;
    cbn [run_calls].
  - by intros [= <-].
  - destruct (run_call P c st) as [st1|] eqn:Hr; [|done].
    intros H. rewrite (IH _ H).
    apply run_call_shape in Hr as [->|[v ->]]; [done|].
    by apply prop_set_prop_ne.
Qed.

Lemma Forall_guarded (Q : call -> Prop) (b : bool) c rest :
  Q c -> Forall Q rest -> Forall Q ((if b then [c] else []) ++ rest).
Proof. destruct b; cbn; [by constructor|done]. Qed.


Lemma common_calls_tail_fields P type options :
  exists m rest,
    common_calls P type options = WithMessages m :: rest
    /\ m = cloneTypeMessages P type (prop (or_empty_object options) "messages")
    /\ Forall (fun c => field_of c <> "messages") rest.
Proof.
  unfold common_calls. cbn [app]. do 2 eexists. split; [reflexivity|].
  split; [reflexivity|].
  repeat (apply Forall_guarded; [cbn [field_of]; discriminate|]).
  destruct (truthy _); repeat constructor. cbn [field_of]; discriminate.
Qed.


(** ** src/helpers/factories.js: the factories *)

Lemma when_metadata_calls P (b : bool) v st st' :
  when b (withMetadata v) st = Ok st' ->
  run_calls P (if b then [WithMetadata v] else []) st = Ok st'.
Proof.
  destruct b; cbn [when run_calls run_call]; [|done]. by intros ->.
Qed.

Lemma run_calls_then P cs1 cs2 st st1 st2 :
  run_calls P cs1 st = Ok st1 -> run_calls P cs2 st1 = Ok st2 ->
  run_calls P (cs1 ++ cs2) st = Ok st2.
Proof. intros H1 H2. rewrite run_calls_app, H1. exact H2. Qed.

Lemma common_options_calls P type options st st' :
  applyCommonOptions P type (obj options) st = Ok st' ->
  run_calls P (common_calls P type (obj options)) st = Ok st'.
Proof. intros H. by rewrite applyCommonOptions_calls in H. Qed.

Ltac open_factory P H Ho st0 t0 Hb st1 Ha st2 Hw :=
  unfold builder_for, bind, lift, throw in H;
  match type of H with
  | context [nullish (or_empty_object ?o)] =>
      destruct (nullish (or_empty_object o)) eqn:Ho; [discriminate H|]
  end;
  match type of H with
  | context [createAppErrorBuilder ?P ?o ?t] =>
      destruct (createAppErrorBuilder P o t) as [[st0 t0]|] eqn:Hb;
      [|discriminate H]
  end;
  match type of H with
  | context [applyCommonOptions ?P ?ty ?o ?s] =>
      destruct (applyCommonOptions P ty o s) as [st1|] eqn:Ha;
      [|discriminate H]
  end;
  apply common_options_calls in Ha;
  match type of H with
  | context [when ?b (withMetadata ?v) ?s] =>
      destruct (when b (withMetadata v) s) as [st2|] eqn:Hw;
      [|discriminate H]
  end;
  apply (when_metadata_calls P) in Hw.

(** The rest of a destructured object keeps the common options. *)
Lemma prop_rest_of names c f ps k :
  existsb (String.eqb k) names = false ->
  enumerable c k = true -> error_prototype k = VUndefined ->
  prop (obj (rest_of names (VObj c f ps))) k = prop (VObj c f ps) k.
Proof.
  intros Hn He Hp. rewrite prop_plain. unfold rest_of. cbn [own_enumerable].
  rewrite (lookup_filter_keys (fun k => negb (existsb (String.eqb k) names))).
  rewrite Hn. cbn [negb].
  rewrite (lookup_filter_keys (enumerable c)), He.
  destruct c; cbn [prop]; by rewrite ?Hp.
Qed.

Lemma metadata_calls_guarded (b : bool) v :
  metadata_calls (if b then [WithMetadata v] else []).
Proof. destruct b; repeat constructor. Qed.

Lemma createNetworkError_run P options t e t' :
  createNetworkError P options t = Ok (e, t') ->
  exists co extra,
    factory_run P "network" "NETWORK_ERROR" options t
      (common_calls P (VStr "network") (obj co) ++ extra) e t'
    /\ metadata_calls extra
    /\ (options_object options ->
        prop (obj co) "messages" = prop (or_empty_object options) "messages").
Proof.
  intros H. unfold createNetworkError in H.
  open_factory P H Ho st0 t0 Hb st1 Ha st2 Hw.
  do 2 eexists. split; [|split].
  - exists st0, t0, st2. split; [done|]. split; [exact Hb|].
    split; [|exact H]. eapply run_calls_then; [exact Ha|exact Hw].
  - apply metadata_calls_guarded.
  - intros (c & f & ps & -> & Hnd).
    rewrite <- (prop_rest_of ["code"; "metadata"; "retryCount"; "isOffline"]
                  c f ps "messages" eq_refl) by (by destruct c).
    rewrite !prop_plain. rewrite lookup_assign_props.
    + by destruct (lookup_prop "messages" (rest_of _ _)).
    + unfold rest_of. cbn [own_enumerable].
      apply (NoDup_filter_keys (fun k => negb (existsb (String.eqb k) _))).
      by apply (NoDup_filter_keys (enumerable c)).
Qed.

Lemma createValidationError_run P options t e t' :
  createValidationError P options t = Ok (e, t') ->
  exists co extra,
    factory_run P "validation" "VALIDATION_ERROR" options t
      (common_calls P (VStr "validation") (obj co) ++ extra) e t'
    /\ metadata_calls extra
    /\ (options_object options ->
        prop (obj co) "messages" = prop (or_empty_object options) "messages").
Proof.
  intros H. unfold createValidationError in H.
  open_factory P H Ho st0 t0 Hb st1 Ha st2 Hw.
  do 2 eexists. split; [|split].
  - exists st0, t0, st2. split; [done|]. split; [exact Hb|].
    split; [|exact H]. eapply run_calls_then; [exact Ha|exact Hw].
  - apply metadata_calls_guarded.
  - intros (c & f & ps & -> & Hnd).
    apply prop_rest_of; [done|by destruct c|done].
Qed.

Lemma create_with_details_run P dc ty k1 k2 k3 options t e t' :
  create_with_details P dc ty k1 k2 k3 options t = Ok (e, t') ->
  exists co extra,
    factory_run P ty dc options t
      (common_calls P (VStr ty) (obj co) ++ extra) e t'
    /\ metadata_calls extra
    /\ (options_object options ->
        existsb (String.eqb "messages") [k1; k2; k3] = false ->
        prop (obj co) "messages" = prop (or_empty_object options) "messages").
Proof.
  intros H. unfold create_with_details in H.
  open_factory P H Ho st0 t0 Hb st1 Ha st2 Hw.
  do 2 eexists. split; [|split].
  - exists st0, t0, st2. split; [done|]. split; [exact Hb|].
    split; [|exact H]. eapply run_calls_then; [exact Ha|exact Hw].
  - apply metadata_calls_guarded.
  - intros (c & f & ps & -> & Hnd) Hk.
    apply prop_rest_of; [exact Hk|by destruct c|done].
Qed.

Lemma createSystemError_run P options t e t' :
  createSystemError P options t = Ok (e, t') ->
  exists co extra,
    factory_run P "system" "SYSTEM_ERROR" options t
      (common_calls P (VStr "system") (obj co) ++ extra) e t'
    /\ metadata_calls extra
    /\ (options_object options ->
        prop (obj co) "messages" = prop (or_empty_object options) "messages").
Proof.
  intros H. unfold createSystemError in H.
  open_factory P H Ho st0 t0 Hb st1 Ha st2 Hw.
  do 2 eexists. split; [|split].
  - exists st0, t0, st2. split; [done|]. split; [exact Hb|].
    split; [|exact H]. eapply run_calls_then; [exact Ha|exact Hw].
  - apply metadata_calls_guarded.
  - intros (c & f & ps & -> & Hnd).
    apply prop_rest_of; [done|by destruct c|done].
Qed.

Lemma createUnknownError_run P options t e t' :
  createUnknownError P options t = Ok (e, t') ->
  let o := or_empty_object options in
  let rest := obj (rest_of ["code"; "originalError"; "fallbackMessage"] o) in
  let mr := unknown_messages_and_reason rest (prop o "originalError")
                                        (prop o "fallbackMessage") in
  exists co extra,
    factory_run P "unknown" "UNKNOWN_ERROR" options t
      (common_calls P (VStr "unknown") (obj co) ++ extra) e t'
    /\ metadata_calls extra
    /\ co = assign_props
              [("messages", fst mr); ("reason", snd mr);
               ("originalError", prop o "originalError")]
              (own_enumerable rest).
Proof.
  intros H o rest mr. unfold createUnknownError in H.
  unfold builder_for, bind, lift, throw in H. fold o in H.
  destruct (nullish o) eqn:Ho; [discriminate H|].
  match type of H with
  | context [createAppErrorBuilder ?P ?o ?t] =>
      destruct (createAppErrorBuilder P o t) as [[st0 t0]|] eqn:Hb;
      [|discriminate H]
  end.
  fold rest in H. fold mr in H. destruct mr as [messages reason] eqn:Hmr.
  match type of H with
  | context [applyCommonOptions ?P ?ty ?o ?s] =>
      destruct (applyCommonOptions P ty o s) as [st1|] eqn:Ha;
      [|discriminate H]
  end.
  apply common_options_calls in Ha.
  match type of H with
  | context [withMetadata ?v ?s] =>
      destruct (withMetadata v s) as [st2|] eqn:Hw; [|discriminate H];
      assert (Hw' : run_calls P [WithMetadata v] s = Ok st2)
        by (cbn [run_calls run_call]; by rewrite Hw)
  end.
  do 2 eexists. split; [|split].
  - exists st0, t0, st2. split; [done|]. split; [exact Hb|].
    split; [|exact H]. eapply run_calls_then; [exact Ha|exact Hw'].
  - repeat constructor.
  - reflexivity.
Qed.

Ltac in_default_codes :=
  unfold default_codes;
  repeat (first [ by (apply elem_of_cons; left) | apply elem_of_cons; right ]).

Lemma factory_is_a_builder_run P name f options t e t' :
  (name, f) ∈ ErrorFactory P -> f options t = Ok (e, t') ->
  exists dc co extra,
    (name, dc) ∈ default_codes
    /\ factory_run P name dc options t
         (common_calls P (VStr name) (obj co) ++ extra) e t'
    /\ metadata_calls extra
    /\ (name <> "unknown" -> options_object options ->
        prop (obj co) "messages" = prop (or_empty_object options) "messages").
Proof.
  intros Hin H. unfold ErrorFactory in Hin.
  apply elem_of_cons in Hin as [Heq|Hin].
  { injection Heq as -> ->.
    destruct (createNetworkError_run _ _ _ _ _ H) as (co & extra & Hr & Hx & Hm).
    exists "NETWORK_ERROR", co, extra. split; [in_default_codes|]. auto. }
  apply elem_of_cons in Hin as [Heq|Hin].
  { injection Heq as -> ->.
    destruct (createValidationError_run _ _ _ _ _ H) as (co & extra & Hr & Hx & Hm).
    exists "VALIDATION_ERROR", co, extra. split; [in_default_codes|]. auto. }
  apply elem_of_cons in Hin as [Heq|Hin].
  { injection Heq as -> ->. unfold createMappingError in H.
    destruct (create_with_details_run _ _ _ _ _ _ _ _ _ _ H)
      as (co & extra & Hr & Hx & Hm).
    exists "MAPPING_ERROR", co, extra. split; [in_default_codes|]. auto. }
  apply elem_of_cons in Hin as [Heq|Hin].
  { injection Heq as -> ->. unfold createPermissionError in H.
    destruct (create_with_details_run _ _ _ _ _ _ _ _ _ _ H)
      as (co & extra & Hr & Hx & Hm).
    exists "PERMISSION_DENIED", co, extra. split; [in_default_codes|]. auto. }
  apply elem_of_cons in Hin as [Heq|Hin].
  { injection Heq as -> ->. unfold createComponentError in H.
    destruct (create_with_details_run _ _ _ _ _ _ _ _ _ _ H)
      as (co & extra & Hr & Hx & Hm).
    exists "COMPONENT_ERROR", co, extra. split; [in_default_codes|]. auto. }
  apply elem_of_cons in Hin as [Heq|Hin].
  { injection Heq as -> ->. unfold createEnvironmentError in H.
    destruct (create_with_details_run _ _ _ _ _ _ _ _ _ _ H)
      as (co & extra & Hr & Hx & Hm).
    exists "ENVIRONMENT_ERROR", co, extra. split; [in_default_codes|]. auto. }
  apply elem_of_cons in Hin as [Heq|Hin].
  { injection Heq as -> ->.
    destruct (createSystemError_run _ _ _ _ _ H) as (co & extra & Hr & Hx & Hm).
    exists "SYSTEM_ERROR", co, extra. split; [in_default_codes|]. auto. }
  apply elem_of_cons in Hin as [Heq|Hin].
  { injection Heq as -> ->.
    destruct (createUnknownError_run _ _ _ _ _ H) as (co & extra & Hr & Hx & Hm).
    exists "UNKNOWN_ERROR", co, extra. split; [in_default_codes|].
    split; [done|]. split; [done|]. by intros Hne. }
  apply elem_of_cons in Hin as [Heq|Hin].
  { injection Heq as -> ->. unfold createFeatureError in H.
    destruct (create_with_details_run _ _ _ _ _ _ _ _ _ _ H)
      as (co & extra & Hr & Hx & Hm).
    exists "FEATURE_UNAVAILABLE", co, extra. split; [in_default_codes|]. auto. }
  by apply elem_of_nil in Hin.
Qed.






(** *** What the factories put into the metadata *)

(** A primitive of the patch is what the merge stores under its key. *)
Lemma deepMerge_primitive_wins m0 patch k v :
  NoDup (keys patch) -> lookup_prop k patch = Some v ->
  isObject v = false -> isArray v = false ->
  prop (deepMerge m0 (obj patch)) k = v.
Proof.
  intros Hnd Hk Ho Ha. unfold obj at 1. rewrite deepMerge_object.
  destruct (isObject m0).
  - rewrite prop_plain.
    rewrite (lookup_merge_loop CObject m0 k v patch _ Hnd eq_refl Hk).
    cbn [default from_option]. unfold id, merge_entry. rewrite Ho.
    rewrite andb_false_r. by destruct (prop m0 k), v.
  - cbn [own_enumerable]. rewrite filter_enumerable_plain.
    rewrite prop_plain. by rewrite Hk.
Qed.

Lemma deepMerge_object_source m0 patch :
  exists X, deepMerge m0 (obj patch) = obj X.
Proof.
  unfold obj at 1. rewrite deepMerge_object. destruct (isObject m0); eauto.
Qed.

(** The metadata of a built error is a frozen copy of the builder's. *)
Lemma built_metadata P st t e t' X :
  build P st t = Ok (e, t') -> prop (obj st) "metadata" = obj X ->
  prop e "metadata" = VObj CObject true X.
Proof.
  intros He Hm. apply build_constructs in He.
  destruct (constructor_fields _ _ _ _ _ He) as (_ & _ & _ & _ & _ & Em & _).
  rewrite Em, field_build_options by (cbn; tauto). rewrite Hm.
  cbn [is_undefined obj own_enumerable freeze]. by rewrite filter_enumerable_plain.
Qed.

Lemma withMetadata_last P patch st st2 t e t' k v :
  withMetadata (obj patch) st = Ok st2 -> build P st2 t = Ok (e, t') ->
  NoDup (keys patch) -> lookup_prop k patch = Some v ->
  isObject v = false -> isArray v = false ->
  prop (prop e "metadata") k = v.
Proof.
  intros Hw He Hnd Hk Ho Ha. unfold withMetadata in Hw.
  cbn [or_empty_object is_undefined obj nullish typeof type_tag_eqb negb orb] in Hw.
  injection Hw as <-.
  destruct (deepMerge_object_source (prop (VObj CObject false st) "metadata") patch)
    as [X HX].
  rewrite (built_metadata P _ t e t' X He) by (by rewrite prop_set_prop_eq).
  change (prop (VObj CObject true X) k) with (prop (obj X) k).
  rewrite <- HX. by apply deepMerge_primitive_wins.
Qed.

(** X20. The five factories with three detail options (mapping:
    source, target, stage; permission: resource, action, requiredRoles;
    component: componentName, propsSnapshot, hook; environment:
    variable, expected, received; feature: feature, flag,
    requiredVersion) record the details as soon as one of them is
    neither [null] nor [undefined]: every detail that is not an object or
    an array is then found in the metadata of the error under its own
    name, [null] for a detail that was not given, whatever
    [options.metadata] held under that name. *)
Theorem details_fill_the_metadata
    (P : platform) (dc ty k1 k2 k3 : string)
    (options : value) (t : nat) (e : value) (t' : nat) :
  NoDup [k1; k2; k3] ->
  create_with_details P dc ty k1 k2 k3 options t = Ok (e, t') ->
  let o := or_empty_object options in
  let details :=
    [(k1, field o k1 VNull); (k2, field o k2 VNull); (k3, field o k3 VNull)] in
  some_defined details = true ->
  forall k v,
    lookup_prop k details = Some v -> isObject v = false -> isArray v = false ->
    prop (prop e "metadata") k = v.
Proof.
  intros Hnd H o details Hsome k v Hk Ho Ha.
  unfold create_with_details, builder_for, bind, lift, throw in H.
  fold o in H. destruct (nullish o); [discriminate H|].
  destruct (createAppErrorBuilder _ _ _) as [[st0 t0]|]; [|discriminate H].
  destruct (applyCommonOptions _ _ _ _) as [st1|]; [|discriminate H].
  fold details in H. rewrite Hsome in H. cbn [when] in H.
  destruct (withMetadata (obj details) st1) as [st2|] eqn:Hw; [|discriminate H].
  eapply (withMetadata_last P details st1 st2 t0 e t' k v); eauto.
Qed.

Lemma details_fill_the_metadata_witness :
  exists e t',
    createMappingError sample_platform
      (obj [("source", VStr "API");
            ("metadata", obj [("stage", VStr "initial")])]) 0%nat
    = Ok (e, t')
    /\ prop (prop e "metadata") "source" = VStr "API"
    /\ prop (prop e "metadata") "stage" = VNull.
Proof.
  destruct (createMappingError sample_platform
              (obj [("source", VStr "API");
                    ("metadata", obj [("stage", VStr "initial")])]) 0%nat)
    as [[e t']|] eqn:Hn; [|vm_compute in Hn; discriminate].
  exists e, t'. split; [reflexivity|].
  assert (Hnd : NoDup ["source"; "target"; "stage"]).
  { refine (bool_decide_unpack _ _). vm_compute. exact I. }
  split.
  - exact (details_fill_the_metadata sample_platform _ _ _ _ _ _ _ _ _ Hnd Hn
             eq_refl "source" (VStr "API") eq_refl eq_refl eq_refl).
  - exact (details_fill_the_metadata sample_platform _ _ _ _ _ _ _ _ _ Hnd Hn
             eq_refl "stage" VNull eq_refl eq_refl eq_refl).
Defined.

(** *** The messages of the factories *)

Lemma common_calls_messages P type options st st' :
  run_calls P (common_calls P type options) st = Ok st' ->
  prop (obj st') "messages"
  = cloneTypeMessages P type (prop (or_empty_object options) "messages").
Proof.
  intros H.
  destruct (common_calls_tail_fields P type options)
    as (m & rest & Hcalls & Hm & Hrest).
  rewrite Hcalls in H. cbn [run_calls run_call] in H.
  unfold withMessages in H.
  rewrite normalizeMessagesInput_complete in H
    by (rewrite Hm; apply cloneTypeMessages_complete).
  rewrite (run_calls_frame _ _ _ _ _ Hrest H).
  by rewrite prop_set_prop_eq.
Qed.

Lemma run_calls_split P cs1 cs2 st st2 :
  run_calls P (cs1 ++ cs2) st = Ok st2 ->
  exists st1, run_calls P cs1 st = Ok st1 /\ run_calls P cs2 st1 = Ok st2.
Proof.
  rewrite run_calls_app. destruct (run_calls P cs1 st) as [st1|]; [|done].
  cbn [and_then]. eauto.
Qed.

(** The messages of a built error are a frozen copy of the builder's,
    and its [message] is the English user text. *)
Lemma built_messages P st t e t' ufa uen ofa oen :
  build P st t = Ok (e, t') ->
  prop (obj st) "messages"
  = obj [("user", obj [("fa", ufa); ("en", uen)]);
         ("original", obj [("fa", ofa); ("en", oen)])] ->
  nullish ufa = false -> nullish uen = false ->
  nullish ofa = false -> nullish oen = false ->
  prop e "messages"
  = VObj CObject true
      [("user", VObj CObject true [("fa", ufa); ("en", uen)]);
       ("original", VObj CObject true [("fa", ofa); ("en", oen)])]
  /\ prop e "message" = VStr (to_string P uen).
Proof.
  intros He Hm Hufa Huen Hofa Hoen. apply build_constructs in He.
  assert (Hnm : normalizeMessages (prop (build_options st) "messages")
                = Ok (obj [("user", obj [("fa", ufa); ("en", uen)]);
                           ("original", obj [("fa", ofa); ("en", oen)])])).
  { rewrite prop_build_options by (cbn; tauto). rewrite Hm.
    unfold normalizeMessages, obj.
    cbn [or_empty_object is_undefined is_string typeof type_tag_eqb nullish].
    cbn [prop lookup_prop String.eqb Ascii.eqb Bool.eqb default from_option].
    unfold id. cbn [coalesce nullish].
    by rewrite !ensureLocalizedText_fixed by done. }
  open_constructor He nm Hnm' nb Hnb; injection Hnm as ->;
    cbn [prop obj lookup_prop String.eqb Ascii.eqb Bool.eqb default from_option
         own_enumerable List.filter enumerable fst freeze];
    unfold id; rewrite !(coalesce_defined uen) by done; by split.
Qed.

(** X21. Every factory but [unknown], called with an options object,
    gives its error the messages [cloneTypeMessages(type,
    options.messages)], frozen: complete in both languages for the user
    and the original text, with the English user text as the [message] of
    the error.  In particular, when [options.messages] is absent or
    falsy, the texts are the defaults of the factory's own type from
    [DEFAULT_TYPE_MESSAGES], not the generic ones the bare builder
    uses. *)
Theorem factories_use_type_messages
    (P : platform) (name : string) (f : value -> M value)
    (options : value) (t : nat) (e : value) (t' : nat) :
  (name, f) ∈ ErrorFactory P -> name <> "unknown" ->
  options_object options ->
  f options t = Ok (e, t') ->
  exists ufa uen ofa oen,
    cloneTypeMessages P (VStr name) (prop (or_empty_object options) "messages")
    = obj [("user", obj [("fa", ufa); ("en", uen)]);
           ("original", obj [("fa", ofa); ("en", oen)])]
    /\ prop e "messages"
       = VObj CObject true
           [("user", VObj CObject true [("fa", ufa); ("en", uen)]);
            ("original", VObj CObject true [("fa", ofa); ("en", oen)])]
    /\ prop e "message" = VStr (to_string P uen)
    /\ (truthy (prop (or_empty_object options) "messages") = false ->
        ufa = prop (prop (prop DEFAULT_TYPE_MESSAGES name) "user") "fa"
        /\ uen = prop (prop (prop DEFAULT_TYPE_MESSAGES name) "user") "en"
        /\ ofa = prop (prop (prop DEFAULT_TYPE_MESSAGES name) "original") "fa"
        /\ oen = prop (prop (prop DEFAULT_TYPE_MESSAGES name) "original") "en").
Proof.
  intros Hin Hne Hobj H.
  destruct (factory_is_a_builder_run _ _ _ _ _ _ _ Hin H)
    as (dc & co & extra & Hdc & (st0 & t0 & st & Ho & Hb & Hr & He) & Hx & Hm).
  specialize (Hm Hne Hobj).
  apply run_calls_split in Hr as (st1 & Hc & Hextra).
  apply common_calls_messages in Hc.
  change (or_empty_object (obj co)) with (obj co) in Hc. rewrite Hm in Hc.
  assert (Hst : prop (obj st) "messages" = prop (obj st1) "messages").
  { eapply run_calls_frame; [|exact Hextra].
    eapply Forall_impl; [exact Hx|]. intros c Hc'. cbn in Hc'. by rewrite Hc'. }
  destruct (cloneTypeMessages_complete P (VStr name)
              (prop (or_empty_object options) "messages"))
    as (ufa & uen & ofa & oen & Hclone & Hufa & Huen & Hofa & Hoen).
  exists ufa, uen, ofa, oen. split; [exact Hclone|].
  rewrite Hc, Hclone in Hst.
  destruct (built_messages P st t0 e t' ufa uen ofa oen He Hst Hufa Huen Hofa Hoen)
    as [Hms Hmsg].
  split; [exact Hms|]. split; [exact Hmsg|].
  intros Hfalsy. unfold cloneTypeMessages in Hclone. rewrite Hfalsy in Hclone.
  cbn [negb to_string] in Hclone.
  assert (Hknown : prop DEFAULT_TYPE_MESSAGES name ?? DEFAULT_MESSAGES
                   = prop DEFAULT_TYPE_MESSAGES name).
  { unfold ErrorFactory in Hin.
    repeat (apply elem_of_cons in Hin as [Heq|Hin];
            [injection Heq as -> _; reflexivity|]).
    by apply elem_of_nil in Hin. }
  rewrite Hknown in Hclone.
  unfold ErrorFactory in Hin.
  repeat (apply elem_of_cons in Hin as [Heq|Hin];
          [injection Heq as -> _; vm_compute in Hclone;
           injection Hclone as <- <- <- <-; by repeat split|]).
  by apply elem_of_nil in Hin.
Qed.

Lemma factories_use_type_messages_witness :
  exists e t',
    createFeatureError sample_platform (obj [("flag", VStr "chat")]) 0%nat
    = Ok (e, t')
    /\ prop e "message" = VStr "This feature is currently unavailable".
Proof.
  destruct (createFeatureError sample_platform (obj [("flag", VStr "chat")]) 0%nat)
    as [[e t']|] eqn:Hn; [|vm_compute in Hn; discriminate].
  exists e, t'. split; [reflexivity|].
  destruct (factories_use_type_messages sample_platform "feature"
              (createFeatureError sample_platform)
              (obj [("flag", VStr "chat")]) 0%nat e t')
    as (ufa & uen & ofa & oen & _ & _ & Hmsg & Hdef).
  - unfold ErrorFactory. do 8 (apply elem_of_cons; right).
    apply elem_of_cons. by left.
  - discriminate.
  - exists CObject, false, [("flag", VStr "chat")]. split; [reflexivity|].
    refine (bool_decide_unpack _ _). vm_compute. exact I.
  - exact Hn.
  - destruct (Hdef eq_refl) as (_ & -> & _). exact Hmsg.
Defined.

(** *** Network, system and unknown errors *)

(** X22. A network error that comes with [retryCount] or [isOffline]
    (and [isOffline] defaults to [false], so this is every network error
    unless [isOffline] is passed as [null] and [retryCount] is absent)
    shows both in its metadata: [isOffline] as given, [false] when it was
    not given, and [retryCount] as given, [null] when it was not. *)
Theorem network_error_records_connectivity
    (P : platform) (options : value) (t : nat) (e : value) (t' : nat) :
  createNetworkError P options t = Ok (e, t') ->
  let o := or_empty_object options in
  let retryCount := prop o "retryCount" ?? VNull in
  let isOffline := field o "isOffline" (VBool false) in
  (nullish retryCount = false \/ nullish isOffline = false ->
   (isObject isOffline = false -> isArray isOffline = false ->
    prop (prop e "metadata") "isOffline" = isOffline)
   /\ (isObject retryCount = false -> isArray retryCount = false ->
       prop (prop e "metadata") "retryCount" = retryCount))
  /\ (is_undefined (prop o "isOffline") = true ->
      prop (prop e "metadata") "isOffline" = VBool false
      /\ (isObject retryCount = false -> isArray retryCount = false ->
          prop (prop e "metadata") "retryCount" = retryCount)).
Proof.
  intros H o retryCount isOffline.
  unfold createNetworkError, builder_for, bind, lift, throw in H.
  fold o in H. destruct (nullish o); [discriminate H|].
  destruct (createAppErrorBuilder _ _ _) as [[st0 t0]|]; [|discriminate H].
  destruct (applyCommonOptions _ _ _ _) as [st1|]; [|discriminate H].
  fold retryCount isOffline in H.
  set (patch := [("retryCount", retryCount); ("isOffline", isOffline)]) in *.
  assert (Hnd : NoDup (keys patch)).
  { refine (bool_decide_unpack _ _). vm_compute. exact I. }
  assert (Hmain : some_defined patch = true ->
            (isObject isOffline = false -> isArray isOffline = false ->
             prop (prop e "metadata") "isOffline" = isOffline)
            /\ (isObject retryCount = false -> isArray retryCount = false ->
                prop (prop e "metadata") "retryCount" = retryCount)).
  { intros Hsome. rewrite Hsome in H. cbn [when] in H.
    destruct (withMetadata (obj patch) st1) as [st2|] eqn:Hw; [|discriminate H].
    split; intros Ho Ha.
    - by eapply (withMetadata_last P patch st1 st2 t0 e t' "isOffline" isOffline).
    - by eapply (withMetadata_last P patch st1 st2 t0 e t' "retryCount" retryCount). }
  split.
  - intros Hdef. apply Hmain. unfold patch, some_defined. cbn [existsb snd].
    destruct Hdef as [-> | ->]; cbn; by rewrite ?orb_true_r.
  - intros Hu.
    assert (Hoff : isOffline = VBool false) by (unfold isOffline, field; by rewrite Hu).
    destruct Hmain as [H1 H2].
    { unfold patch, some_defined. cbn [existsb snd]. rewrite Hoff. cbn.
      by rewrite orb_true_r. }
    split; [|exact H2]. rewrite <- Hoff. apply H1; by rewrite Hoff.
Qed.

Lemma network_error_records_connectivity_witness :
  exists e t',
    createNetworkError sample_platform (obj [("metadata", VNull)]) 0%nat = Ok (e, t')
    /\ prop (prop e "metadata") "isOffline" = VBool false
    /\ prop (prop e "metadata") "retryCount" = VNull.
Proof.
  destruct (createNetworkError sample_platform (obj [("metadata", VNull)]) 0%nat)
    as [[e t']|] eqn:Hn; [|vm_compute in Hn; discriminate].
  exists e, t'. split; [reflexivity|].
  destruct (network_error_records_connectivity sample_platform _ _ _ _ Hn)
    as [_ H].
  destruct (H eq_refl) as [H1 H2]. split; [exact H1|exact (H2 eq_refl eq_refl)].
Defined.

Lemma common_calls_without_metadata P type options :
  truthy (prop (or_empty_object options) "metadata") = false ->
  Forall (fun c => field_of c <> "metadata") (common_calls P type options).
Proof.
  intros Hm. unfold common_calls. rewrite Hm. cbn [andb app].
  constructor; [cbn; congruence|].
  repeat first [ apply Forall_guarded; [cbn [field_of]; discriminate|]
               | match goal with
                 | |- Forall _ ((if false then _ else []) ++ ?r) =>
                     change (Forall (fun c => field_of c <> "metadata") r)
                 end ].
  destruct (truthy (prop (or_empty_object options) "timestamp"));
    repeat constructor.
  cbn [field_of]; discriminate.
Qed.

Lemma createAppErrorBuilder_metadata P options t st t' :
  createAppErrorBuilder P options t = Ok (st, t') ->
  prop (obj st) "metadata" = obj [].
Proof.
  unfold createAppErrorBuilder, bind, lift, ret, throw, Date_now.
  destruct (nullish options); [done|].
  destruct (assertCode _); [|done]. destruct (assertType P _); [|done].
  destruct createDefaultMessages; [|done].
  by intros [= <- <-].
Qed.

(** X23. [createSystemError] records the subsystem only when it is
    truthy: a subsystem that is not an object or an array is then found
    under [metadata.subsystem]; but a subsystem such as the empty string
    or [0], though given, leaves no trace, and with no metadata among
    the options the metadata of the error is the empty object. *)
Theorem system_error_records_truthy_subsystem
    (P : platform) (options : value) (t : nat) (e : value) (t' : nat) :
  createSystemError P options t = Ok (e, t') ->
  let o := or_empty_object options in
  let subsystem := field o "subsystem" VNull in
  (truthy subsystem = true ->
   isObject subsystem = false -> isArray subsystem = false ->
   prop (prop e "metadata") "subsystem" = subsystem)
  /\ (truthy subsystem = false -> options_object options ->
      truthy (prop o "metadata") = false ->
      prop e "metadata" = VObj CObject true []).
Proof.
  intros H o subsystem.
  unfold createSystemError, builder_for, bind, lift, throw in H.
  fold o in H. destruct (nullish o) eqn:Hn; [discriminate H|].
  destruct (createAppErrorBuilder _ _ _) as [[st0 t0]|] eqn:Hb; [|discriminate H].
  destruct (applyCommonOptions _ _ _ _) as [st1|] eqn:Ha; [|discriminate H].
  fold subsystem in H. split.
  - intros Ht Ho Harr. rewrite Ht in H. cbn [when] in H.
    destruct (withMetadata _ st1) as [st2|] eqn:Hw; [|discriminate H].
    eapply (withMetadata_last P [("subsystem", subsystem)] st1 st2 t0 e t'
              "subsystem" subsystem); eauto.
    repeat constructor. apply not_elem_of_nil.
  - intros Ht (c & f & ps & Heq & Hnd) Hm. rewrite Ht in H. cbn [when] in H.
    apply common_options_calls in Ha.
    eapply built_metadata; [exact H|].
    rewrite <- (createAppErrorBuilder_metadata _ _ _ _ _ Hb).
    eapply run_calls_frame; [|exact Ha].
    apply common_calls_without_metadata.
    change (or_empty_object (obj ?x)) with (obj x).
    fold o in Heq. rewrite Heq.
    rewrite prop_rest_of; [|done|by destruct c|done]. by rewrite <- Heq.
Qed.

Lemma system_error_records_truthy_subsystem_witness :
  (exists e t',
     createSystemError sample_platform (obj [("subsystem", VStr "storage")]) 0%nat
     = Ok (e, t')
     /\ prop (prop e "metadata") "subsystem" = VStr "storage")
  /\ (exists e t',
        createSystemError sample_platform (obj [("subsystem", VStr "")]) 0%nat
        = Ok (e, t')
        /\ prop e "metadata" = VObj CObject true []).
Proof.
  split.
  - destruct (createSystemError sample_platform
                (obj [("subsystem", VStr "storage")]) 0%nat)
      as [[e t']|] eqn:Hn; [|vm_compute in Hn; discriminate].
    exists e, t'. split; [reflexivity|].
    exact (proj1 (system_error_records_truthy_subsystem sample_platform _ _ _ _ Hn)
             eq_refl eq_refl eq_refl).
  - destruct (createSystemError sample_platform (obj [("subsystem", VStr "")]) 0%nat)
      as [[e t']|] eqn:Hn; [|vm_compute in Hn; discriminate].
    exists e, t'. split; [reflexivity|].
    apply (proj2 (system_error_records_truthy_subsystem sample_platform _ _ _ _ Hn));
      [reflexivity| |reflexivity].
    exists CObject, false, [("subsystem", VStr "")]. split; [reflexivity|].
    refine (bool_decide_unpack _ _). vm_compute. exact I.
Defined.

Lemma factory_run_messages P name dc options t co extra e t' ufa uen ofa oen :
  factory_run P name dc options t
    (common_calls P (VStr name) (obj co) ++ extra) e t' ->
  metadata_calls extra ->
  cloneTypeMessages P (VStr name) (prop (obj co) "messages")
  = obj [("user", obj [("fa", ufa); ("en", uen)]);
         ("original", obj [("fa", ofa); ("en", oen)])] ->
  prop e "messages"
  = VObj CObject true
      [("user", VObj CObject true [("fa", ufa); ("en", uen)]);
       ("original", VObj CObject true [("fa", ofa); ("en", oen)])]
  /\ prop e "message" = VStr (to_string P uen).
Proof.
  intros (st0 & t0 & st & Ho & Hb & Hr & He) Hx Hclone.
  apply run_calls_split in Hr as (st1 & Hc & Hextra).
  apply common_calls_messages in Hc.
  change (or_empty_object (obj co)) with (obj co) in Hc.
  assert (Hst : prop (obj st) "messages" = prop (obj st1) "messages").
  { eapply run_calls_frame; [|exact Hextra].
    eapply Forall_impl; [exact Hx|]. intros c Hc'. cbn in Hc'. by rewrite Hc'. }
  rewrite Hc, Hclone in Hst.
  destruct (cloneTypeMessages_complete P (VStr name) (prop (obj co) "messages"))
    as (a & b & c & d & Hclone' & Ha & Hb' & Hc' & Hd).
  rewrite Hclone in Hclone'. injection Hclone' as -> -> -> ->.
  by apply (built_messages P st t0 e t').
Qed.

Lemma ensureLocalizedText_string s fb :
  s <> "" ->
  ensureLocalizedText (VStr s) fb = obj [("fa", VStr s); ("en", VStr s)].
Proof. intros Hs. reflexivity. Qed.

(** X24. The messages of an unknown error follow a fixed precedence.
    Truthy [options.messages] win and are normalized as in the other
    factories.  Without them, a non-empty string found as
    [options.fallbackMessage], or else as the [message] of
    [options.originalError], becomes the user and the original text in
    both languages and the [message] of the error.  Without either, the
    default texts of the unknown type apply.  In every case the metadata
    records [originalName]: [options.metadata.originalName] when that is
    given, otherwise the [name] of the original error (for a value that
    is not an object or an array). *)
Theorem unknown_error_message_precedence
    (P : platform) (options : value) (t : nat) (e : value) (t' : nat) :
  createUnknownError P options t = Ok (e, t') ->
  options_object options ->
  let o := or_empty_object options in
  let fallback :=
    prop o "fallbackMessage" ?? get_opt (prop o "originalError") "message" in
  let originalName :=
    get_opt (prop o "metadata") "originalName"
      ?? get_opt (prop o "originalError") "name" in
  (truthy (prop o "messages") = true ->
   exists ufa uen ofa oen,
     cloneTypeMessages P (VStr "unknown") (prop o "messages")
     = obj [("user", obj [("fa", ufa); ("en", uen)]);
            ("original", obj [("fa", ofa); ("en", oen)])]
     /\ prop e "messages"
        = VObj CObject true
            [("user", VObj CObject true [("fa", ufa); ("en", uen)]);
             ("original", VObj CObject true [("fa", ofa); ("en", oen)])]
     /\ prop e "message" = VStr (to_string P uen))
  /\ (truthy (prop o "messages") = false ->
      forall s, fallback = VStr s -> s <> "" ->
      prop e "messages"
      = VObj CObject true
          [("user", VObj CObject true [("fa", VStr s); ("en", VStr s)]);
           ("original", VObj CObject true [("fa", VStr s); ("en", VStr s)])]
      /\ prop e "message" = VStr s)
  /\ (truthy (prop o "messages") = false -> truthy fallback = false ->
      prop e "message" = VStr "An unknown error occurred")
  /\ (isObject originalName = false -> isArray originalName = false ->
      prop (prop e "metadata") "originalName" = originalName).
Proof.
  intros H (c & f & ps & Heq & Hnd) o fallback originalName.
  pose proof (createUnknownError_run P options t e t' H) as Hrun.
  cbn zeta in Hrun. fold o in Hrun.
  set (rest := obj (rest_of ["code"; "originalError"; "fallbackMessage"] o)) in Hrun.
  destruct Hrun as (co & extra & Hrun & Hx & Hco).
  assert (Hrest : forall k,
             existsb (String.eqb k) ["code"; "originalError"; "fallbackMessage"]
             = false ->
             enumerable c k = true -> error_prototype k = VUndefined ->
             prop rest k = prop o k).
  { intros k H1 H2 H3. unfold rest. fold o in Heq. rewrite Heq.
    by apply prop_rest_of. }
  assert (Hmsg : prop (obj co) "messages"
                 = fst (unknown_messages_and_reason rest (prop o "originalError")
                                                    (prop o "fallbackMessage"))).
  { rewrite Hco, prop_plain, lookup_assign_props; [reflexivity|].
    refine (bool_decide_unpack _ _). vm_compute. exact I. }
  assert (Hrm : prop rest "messages" = prop o "messages")
    by (apply Hrest; [done|by destruct c|done]).
  repeat apply conj.
  - intros Ht.
    destruct (cloneTypeMessages_complete P (VStr "unknown") (prop o "messages"))
      as (ufa & uen & ofa & oen & Hclone & _).
    exists ufa, uen, ofa, oen. split; [exact Hclone|].
    eapply factory_run_messages; [exact Hrun|exact Hx|].
    rewrite Hmsg. unfold unknown_messages_and_reason. rewrite Hrm, Ht.
    exact Hclone.
  - intros Hf s Hs Hne.
    assert (Hts : truthy (VStr s) = true).
    { cbn. destruct (String.eqb s "") eqn:E; [by apply String.eqb_eq in E|done]. }
    replace (VStr s) with (VStr (to_string P (VStr s))) at 5 by reflexivity.
    eapply factory_run_messages; [exact Hrun|exact Hx|].
    rewrite Hmsg. unfold unknown_messages_and_reason. rewrite Hrm, Hf.
    fold fallback. rewrite Hs, Hts. cbn [fst].
    rewrite !ensureLocalizedText_string by done.
    unfold cloneTypeMessages, obj.
    cbn [truthy negb is_string typeof type_tag_eqb].
    cbn [prop lookup_prop String.eqb Ascii.eqb Bool.eqb default from_option].
    unfold id. cbn [coalesce nullish].
    by rewrite !ensureLocalizedText_fixed by done.
  - intros Hf Hfb.
    change (VStr "An unknown error occurred")
      with (VStr (to_string P (VStr "An unknown error occurred"))).
    eapply (factory_run_messages P "unknown" _ _ _ _ _ _ _ _ _ _ _ Hrun Hx).
    rewrite Hmsg. unfold unknown_messages_and_reason. rewrite Hrm, Hf.
    fold fallback. rewrite Hfb. cbn [fst].
    vm_compute. reflexivity.
  - intros Ho Ha.
    destruct Hrun as (st0 & t0 & st & Hn & Hb & Hr & He).
    unfold createUnknownError, builder_for, bind, lift, throw in H.
    rewrite Hn in H. rewrite Hb in H.
    fold o in H. fold rest in H.
    destruct (unknown_messages_and_reason _ _ _) as [messages reason].
    destruct (applyCommonOptions _ _ _ _) as [st1|]; [|discriminate H].
    destruct (withMetadata _ st1) as [st2|] eqn:Hw; [|discriminate H].
    assert (Hmd : prop rest "metadata" = prop o "metadata")
      by (apply Hrest; [done|by destruct c|done]).
    rewrite Hmd in Hw. fold originalName in Hw.
    eapply (withMetadata_last P [("originalName", originalName)] st1 st2 t0 e t'
              "originalName" originalName); eauto.
    repeat constructor. apply not_elem_of_nil.
Qed.

Lemma unknown_error_message_precedence_witness :
  exists e t',
    createUnknownError sample_platform
      (obj [("originalError", native_error "Something bad" "Error: Something bad")])
      0%nat
    = Ok (e, t')
    /\ prop e "message" = VStr "Something bad"
    /\ prop (prop e "metadata") "originalName" = VStr "Error".
Proof.
  destruct (createUnknownError sample_platform
              (obj [("originalError",
                     native_error "Something bad" "Error: Something bad")]) 0%nat)
    as [[e t']|] eqn:Hn; [|vm_compute in Hn; discriminate].
  exists e, t'. split; [reflexivity|].
  destruct (unknown_error_message_precedence sample_platform _ _ _ _ Hn)
    as (_ & H2 & _ & H4).
  - exists CObject, false,
      [("originalError", native_error "Something bad" "Error: Something bad")].
    split; [reflexivity|]. refine (bool_decide_unpack _ _). vm_compute. exact I.
  - split.
    + exact (proj2 (H2 eq_refl "Something bad" eq_refl ltac:(discriminate))).
    + exact (H4 eq_refl eq_refl).
Defined.

(** X25. A validation error built from options without metadata carries
    exactly the fields and the schema: [fields] is always an array (a
    single value is wrapped into a one-element array, an array is kept),
    [schema] is the given schema or [null]; and when there is no field
    and no schema the metadata is the empty object. *)
Theorem validation_error_wraps_fields
    (P : platform) (options : value) (t : nat) (e : value) (t' : nat) :
  createValidationError P options t = Ok (e, t') ->
  options_object options ->
  let o := or_empty_object options in
  let fields := field o "fields" (arr []) in
  let schema := field o "schema" VNull in
  let wrapped := if isArray fields then fields else arr [fields] in
  truthy (prop o "metadata") = false ->
  isArray wrapped = true
  /\ (elems_of wrapped <> [] \/ nullish schema = false ->
      isObject schema = false ->
      prop e "metadata"
      = VObj CObject true [("fields", wrapped); ("schema", schema)])
  /\ (elems_of wrapped = [] -> nullish schema = true ->
      prop e "metadata" = VObj CObject true []).
Proof.
  intros H (c & f & ps & Heq & Hnd) o fields schema wrapped Hm.
  unfold createValidationError, builder_for, bind, lift, throw in H.
  fold o in H. destruct (nullish o) eqn:Hn; [discriminate H|].
  destruct (createAppErrorBuilder _ _ _) as [[st0 t0]|] eqn:Hb; [|discriminate H].
  destruct (applyCommonOptions _ _ _ _) as [st1|] eqn:Ha; [|discriminate H].
  fold fields schema in H. fold wrapped in H.
  apply common_options_calls in Ha.
  assert (Hst1 : prop (obj st1) "metadata" = obj []).
  { rewrite <- (createAppErrorBuilder_metadata _ _ _ _ _ Hb).
    eapply run_calls_frame; [|exact Ha].
    apply common_calls_without_metadata.
    change (or_empty_object (obj ?x)) with (obj x).
    fold o in Heq. rewrite Heq.
    rewrite prop_rest_of; [|done|by destruct c|done]. by rewrite <- Heq. }
  assert (Hw : isArray wrapped = true).
  { unfold wrapped. by destruct (isArray fields) eqn:E. }
  split; [exact Hw|]. split.
  - intros Hsome Hos.
    assert (Hcond : isArray wrapped && (0 <? length (elems_of wrapped))%nat
                    || negb (nullish schema) = true).
    { rewrite Hw. destruct Hsome as [Hne| ->]; [|by rewrite orb_true_r].
      destruct (elems_of wrapped); [done|reflexivity]. }
    rewrite Hcond in H. cbn [when] in H.
    unfold withMetadata in H.
    cbn [or_empty_object is_undefined obj nullish typeof type_tag_eqb negb orb] in H.
    eapply built_metadata; [exact H|].
    rewrite prop_set_prop_eq. fold (obj st1). rewrite Hst1.
    change (VObj CObject false [("fields", wrapped); ("schema", schema)])
      with (obj [("fields", wrapped); ("schema", schema)]).
    pose proof (clone_plain false [("fields", wrapped); ("schema", schema)]) as Hc.
    unfold clone in Hc. cbn [isObject] in Hc. unfold obj at 2. rewrite Hc.
    + cbn [clone_props map fst snd]. unfold clone. rewrite Hos.
      destruct wrapped; try done.
    + refine (bool_decide_unpack _ _). vm_compute. exact I.
  - intros Hnone Hns.
    assert (Hcond : isArray wrapped && (0 <? length (elems_of wrapped))%nat
                    || negb (nullish schema) = false).
    { rewrite Hnone, Hns. by rewrite andb_false_r. }
    rewrite Hcond in H. cbn [when] in H.
    eapply built_metadata; [exact H|exact Hst1].
Qed.

Lemma validation_error_wraps_fields_witness :
  exists e t',
    createValidationError sample_platform
      (obj [("fields", VStr "email"); ("schema", VStr "UserSchema")]) 0%nat
    = Ok (e, t')
    /\ prop e "metadata"
       = VObj CObject true
           [("fields", arr [VStr "email"]); ("schema", VStr "UserSchema")].
Proof.
  destruct (createValidationError sample_platform
              (obj [("fields", VStr "email"); ("schema", VStr "UserSchema")]) 0%nat)
    as [[e t']|] eqn:Hn; [|vm_compute in Hn; discriminate].
  exists e, t'. split; [reflexivity|].
  destruct (validation_error_wraps_fields sample_platform _ _ _ _ Hn)
    as (_ & H & _).
  - exists CObject, false,
      [("fields", VStr "email"); ("schema", VStr "UserSchema")].
    split; [reflexivity|]. refine (bool_decide_unpack _ _). vm_compute. exact I.
  - reflexivity.
  - apply H; [by right|reflexivity].
Defined.

(** ** src/plugins/vue.js *)




(** ** The expectations of tests/helpers.factories.test.js *)

Example factory_network_normalizes_metadata :
  prop (run VNull
          (createNetworkError sample_platform
             (obj [("metadata",
                    obj [("url", VStr "/api"); ("method", VStr "GET");
                         ("status", VNum 500); ("extra", VStr "keep")]);
                   ("retryCount", VNum 2); ("isOffline", VBool true);
                   ("breadcrumbs", VStr "crumb")]))) "metadata"
  = VObj CObject true
      [("url", VStr "/api"); ("method", VStr "GET"); ("status", VNum 500);
       ("response", VUndefined); ("headers", VUndefined);
       ("payload", VUndefined); ("extra", VStr "keep");
       ("retryCount", VNum 2); ("isOffline", VBool true)].
Proof. vm_compute. reflexivity. Qed.

Example factory_network_without_metadata :
  prop (run VNull (createNetworkError sample_platform (obj [("metadata", VNull)])))
       "metadata"
  = VObj CObject true [("retryCount", VNull); ("isOffline", VBool false)].
Proof. vm_compute. reflexivity. Qed.

Example factory_validation_fields_and_schema :
  prop (run VNull
          (createValidationError sample_platform
             (obj [("fields", VStr "email"); ("schema", VStr "UserSchema")])))
       "metadata"
  = VObj CObject true
      [("fields", arr [VStr "email"]); ("schema", VStr "UserSchema")].
Proof. vm_compute. reflexivity. Qed.

Example factory_mapping_metadata :
  prop (run VNull
          (createMappingError sample_platform
             (obj [("source", VStr "API"); ("target", VStr "UI");
                   ("stage", VStr "transform")]))) "metadata"
  = VObj CObject true
      [("source", VStr "API"); ("target", VStr "UI"); ("stage", VStr "transform")].
Proof. vm_compute. reflexivity. Qed.

Example factory_permission_details :
  prop (run VNull
          (createPermissionError sample_platform
             (obj [("resource", VStr "document"); ("action", VStr "read");
                   ("requiredRoles", arr [VStr "admin"])]))) "metadata"
  = VObj CObject true
      [("resource", VStr "document"); ("action", VStr "read");
       ("requiredRoles", arr [VStr "admin"])].
Proof. vm_compute. reflexivity. Qed.

Example factory_component_environment_system_feature :
  prop (run VNull
          (createComponentError sample_platform
             (obj [("componentName", VStr "MyComponent");
                   ("propsSnapshot", obj [("foo", VNum 1)]);
                   ("hook", VStr "mounted")]))) "metadata"
  = VObj CObject true
      [("componentName", VStr "MyComponent");
       ("propsSnapshot", obj [("foo", VNum 1)]); ("hook", VStr "mounted")]
  /\ prop (run VNull
             (createEnvironmentError sample_platform
                (obj [("variable", VStr "API_URL"); ("expected", VStr "https://");
                      ("received", VStr "")]))) "metadata"
     = VObj CObject true
         [("variable", VStr "API_URL"); ("expected", VStr "https://");
          ("received", VStr "")]
  /\ prop (run VNull
             (createSystemError sample_platform
                (obj [("subsystem", VStr "storage")]))) "metadata"
     = VObj CObject true [("subsystem", VStr "storage")]
  /\ prop (run VNull
             (createFeatureError sample_platform
                (obj [("feature", VStr "chat"); ("flag", VStr "chat_enabled");
                      ("requiredVersion", VStr "1.2.0")]))) "metadata"
     = VObj CObject true
         [("feature", VStr "chat"); ("flag", VStr "chat_enabled");
          ("requiredVersion", VStr "1.2.0")].
Proof. repeat split; vm_compute; reflexivity. Qed.

Example factory_unknown_enriches :
  at_path (run VNull
             (createUnknownError sample_platform
                (obj [("originalError",
                       native_error "Something bad" "Error: Something bad")])))
          ["messages"; "user"; "en"]
  = VStr "Something bad"
  /\ at_path (run VNull
                (createUnknownError sample_platform
                   (obj [("originalError",
                          native_error "Something bad" "Error: Something bad")])))
             ["metadata"; "originalName"]
     = VStr "Error"
  /\ at_path (run VNull
                (createUnknownError sample_platform
                   (obj [("fallbackMessage", VStr "Custom message")])))
             ["messages"; "user"; "en"]
     = VStr "Custom message"
  /\ at_path (run VNull
                (createUnknownError sample_platform
                   (obj [("messages", VStr "Override");
                         ("reason", VStr "provided")])))
             ["messages"; "user"; "en"]
     = VStr "Override"
  /\ prop (run VNull
             (createUnknownError sample_platform
                (obj [("messages", VStr "Override"); ("reason", VStr "provided")])))
          "reason"
     = VStr "provided".
Proof. repeat split; vm_compute; reflexivity. Qed.

Example factory_unknown_defaults :
  nullish (at_path (run VNull (createUnknownError sample_platform VUndefined))
                   ["messages"; "user"; "en"]) = false
  /\ prop (run VNull (createUnknownError sample_platform VUndefined)) "reason"
     = VNull.
Proof. split; vm_compute; reflexivity. Qed.

Example factory_helpers :
  isAppError (run VNull (createSystemError sample_platform VUndefined)) = true.
Proof. vm_compute. reflexivity. Qed.

Example factory_applies_common_options :
  let error :=
    run VNull
      (createMappingError sample_platform
         (obj [("code", VStr "CUSTOM_MAPPING"); ("reason", VStr "custom reason");
               ("level", VStr "debug"); ("descriptions", arr [VStr "first"]);
               ("metadata", obj [("stage", VStr "initial")]);
               ("service", obj [("name", VStr "mapper");
                                ("method", VStr "transform")]);
               ("breadcrumbs", VStr "crumb");
               ("causes", arr [native_error "cause" "Error: cause"]);
               ("originalError", native_error "origin" "Error: origin");
               ("timestamp", VDate false (Some 1704067200000))])) in
  prop error "reason" = VStr "custom reason"
  /\ prop error "level" = VStr "debug"
  /\ prop error "descriptions" = VArr true [VStr "first"]
  /\ prop error "service"
     = VObj CObject true
         [("name", VStr "mapper"); ("method", VStr "transform");
          ("args", VNull); ("operation", VNull)]
  /\ length (elems_of (prop error "breadcrumbs")) = 1%nat
  /\ at_path error ["timestamp"] = VDate false (Some 1704067200000).
Proof. repeat split; vm_compute; reflexivity. Qed.

Example factory_unknown_originalName_override :
  at_path (run VNull
             (createUnknownError sample_platform
                (obj [("metadata", obj [("originalName", VStr "Custom")])])))
          ["metadata"; "originalName"]
  = VStr "Custom".
Proof. vm_compute. reflexivity. Qed.

(** tests/index.test.js, the factory part *)
Example factory_network_message :
  let network :=
    run VNull (createNetworkError sample_platform
                 (obj [("messages", VStr "Network issue")])) in
  prop network "code" = VStr "NETWORK_ERROR"
  /\ at_path network ["messages"; "user"; "en"] = VStr "Network issue"
  /\ isAppError network = true.
Proof. repeat split; vm_compute; reflexivity. Qed.

(** *** When a factory returns *)







(** ** deepMerge over the store *)

Module HeapFacts.
Import Heap.
Local Open Scope nat_scope.

Lemma frame_refl r h : wf h -> frame r h h.
Proof. intros Hwf. by repeat split. Qed.

Lemma frame_trans r h1 h2 h3 : frame r h1 h2 -> frame r h2 h3 -> frame r h1 h3.
Proof.
  intros (_ & Hn1 & H1) (Hwf & Hn2 & H2). repeat split; [done|lia|].
  intros l Hl Hr. rewrite H2 by (done || lia). by apply H1.
Qed.

Lemma frame_weaken r h h' : frame None h h' -> frame r h h'.
Proof.
  intros (Hwf & Hn & H). repeat split; [done..|].
  intros l Hl _. by apply H.
Qed.

Lemma alloc_frame c h :
  wf h ->
  frame None h (alloc c h).2
  /\ (alloc c h).1 = next h
  /\ next (alloc c h).2 = S (next h)
  /\ cells (alloc c h).2 !! next h = Some c.
Proof.
  intros Hwf. unfold alloc, frame, wf. simpl. repeat split; [|lia| |].
  - intros l c'. destruct (decide (l = next h)) as [->|Hne].
    + lia.
    + rewrite lookup_insert_ne by done. intros Hl. apply Hwf in Hl. lia.
  - intros l Hl _. rewrite lookup_insert_ne by lia. done.
  - by rewrite lookup_insert_eq.
Qed.

Lemma write_next r k v h : next (write r k v h) = next h.
Proof. unfold write. by destruct (cells h !! r) as [[]|]. Qed.

Lemma write_other r k v h l : l <> r -> cells (write r k v h) !! l = cells h !! l.
Proof.
  intros Hne. unfold write. destruct (cells h !! r) as [[]|]; simpl; try done.
  by rewrite lookup_insert_ne.
Qed.

Lemma write_object r k v h ps :
  cells h !! r = Some (CellObj ps) ->
  cells (write r k v h) !! r = Some (CellObj (hset k v ps)).
Proof. intros Hr. unfold write. rewrite Hr. simpl. by rewrite lookup_insert_eq. Qed.

Lemma write_frame r k v h : wf h -> frame (Some r) h (write r k v h).
Proof.
  intros Hwf. repeat split.
  - intros l c. rewrite write_next. destruct (decide (l = r)) as [->|Hne].
    + unfold write. destruct (cells h !! r) as [[xs|ps]|] eqn:Hr; simpl;
        intros ?; eapply Hwf; eauto.
    + rewrite write_other by done. apply Hwf.
  - by rewrite write_next.
  - intros l _ Hne. apply write_other. by intros ->.
Qed.

Lemma merge_key_frame recur r t s key h h' :
  framing recur -> wf h ->
  merge_key recur r t s key h = Some h' -> frame (Some r) h h'.
Proof.
  intros Hrec Hwf. unfold merge_key.
  destruct (_ && _).
  { destruct (alloc_frame (CellArr (elems_of h (hprop h t key)
                                      ++ elems_of h (hprop h s key))) h Hwf)
      as (Hf & _).
    destruct (alloc _ h) as [a h2]. simpl in *. intros [= <-].
    eapply frame_trans; [by apply frame_weaken|].
    apply write_frame, Hf. }
  destruct (_ && _).
  { destruct (recur _ _ h) as [[v h2]|] eqn:Hr; [|done]. intros [= <-].
    pose proof (Hrec _ _ _ _ _ Hwf Hr) as Hf.
    eapply frame_trans; [by apply frame_weaken|].
    apply write_frame, Hf. }
  destruct (isObject h (hprop h s key)).
  { destruct (alloc_frame (CellObj []) h Hwf) as (Hf & _).
    destruct (alloc _ h) as [e h2]. simpl in *.
    destruct (recur _ _ h2) as [[v h3]|] eqn:Hr; [|done]. intros [= <-].
    pose proof (Hrec _ _ _ _ _ (proj1 Hf) Hr) as Hf'.
    eapply frame_trans; [by apply frame_weaken|].
    eapply frame_trans; [by apply frame_weaken|].
    apply write_frame, Hf'. }
  intros [= <-]. by apply write_frame.
Qed.

Lemma foldM_frame {A} (f : A -> heap -> option heap) r xs h h' :
  (forall x h0 h1, wf h0 -> f x h0 = Some h1 -> frame r h0 h1) ->
  wf h -> foldM f xs h = Some h' -> frame r h h'.
Proof.
  intros Hf. revert h. induction xs as [|x xs IH]; intros h Hwf; simpl.
  - intros [= <-]. by apply frame_refl.
  - destruct (f x h) as [h1|] eqn:Hx; [|done]. intros Hrest.
    pose proof (Hf _ _ _ Hwf Hx) as H1.
    eapply frame_trans; [exact H1|]. apply IH; [apply H1|done].
Qed.

(** deepMerge never writes to a cell that existed before the call. *)
Lemma deepMerge_frame fuel : framing (deepMerge fuel).
Proof.
  induction fuel as [|fuel IH]; intros t s h v h' Hwf; [done|].
  cbn [deepMerge].
  destruct (_ || _).
  - destruct (isObject h s).
    + destruct (alloc_frame (CellObj (props_of h s)) h Hwf) as (Hf & _).
      destruct (alloc _ h) as [l h1]. simpl in *. by intros [= <- <-].
    + intros [= <- <-]. by apply frame_refl.
  - destruct (alloc_frame (CellObj (props_of h t)) h Hwf) as (Hf & Hl & Hn & _).
    destruct (alloc _ h) as [r h1]. simpl in *. subst r.
    destruct (foldM _ _ h1) as [h2|] eqn:Hfold; [|done]. intros [= <- <-].
    apply (foldM_frame _ (Some (next h))) in Hfold;
      [|intros; by eapply merge_key_frame|apply Hf].
    destruct Hf as (Hwf1 & Hn1 & H1). destruct Hfold as (Hwf2 & Hn2 & H2).
    repeat split; [done|lia|].
    intros l Hl _. rewrite H2 by (try lia; intros [= ->]; lia).
    by apply H1.
Qed.

(** *** Spines *)

Lemma hlookup_hset_eq k v ps : hlookup k (hset k v ps) = Some v.
Proof.
  induction ps as [|[k' v'] ps IH]; simpl.
  - by rewrite String.eqb_refl.
  - destruct (String.eqb k k') eqn:E; simpl; rewrite ?String.eqb_refl, ?E; done.
Qed.

Lemma hlookup_hset_ne k k' v ps : k <> k' -> hlookup k' (hset k v ps) = hlookup k' ps.
Proof.
  intros Hne. induction ps as [|[k0 v0] ps IH]; simpl.
  - destruct (String.eqb k' k) eqn:E; [|done].
    apply String.eqb_eq in E. congruence.
  - destruct (String.eqb k k0) eqn:E; simpl.
    + apply String.eqb_eq in E. subst k0.
      destruct (String.eqb k' k) eqn:E'; [|done].
      apply String.eqb_eq in E'. congruence.
    + destruct (String.eqb k' k0); [done|apply IH].
Qed.

Lemma hlookup_Some_in k v ps : hlookup k ps = Some v -> k ∈ map fst ps.
Proof.
  induction ps as [|[k' v'] ps IH]; simpl; [done|].
  destruct (String.eqb k k') eqn:E.
  - apply String.eqb_eq in E. subst. intros _. apply elem_of_cons. by left.
  - intros H. apply elem_of_cons. right. auto.
Qed.

Lemma isObject_cell h v :
  isObject h v = true <-> exists l ps, v = HRef l /\ cells h !! l = Some (CellObj ps).
Proof.
  unfold isObject, cell_of. split.
  - destruct v; try done. destruct (cells h !! l) as [[]|] eqn:E; eauto; done.
  - by intros (l & ps & -> & ->).
Qed.

(** Unfolding [spine] at an object. *)
Lemma spine_object h l ps path :
  cells h !! l = Some (CellObj ps) ->
  spine h (HRef l) path
  = match path with
    | [] => Some [l]
    | k :: path' =>
        match spine h (default HUndefined (hlookup k ps)) path' with
        | Some ls => Some (l :: ls)
        | None => None
        end
    end.
Proof.
  intros Hl. destruct path; simpl; unfold isObject, hprop, props_of, cell_of;
    by rewrite Hl.
Qed.

Lemma spine_inv h v path ls :
  spine h v path = Some ls ->
  exists l ps, v = HRef l /\ cells h !! l = Some (CellObj ps).
Proof.
  intros H. apply isObject_cell.
  destruct v; destruct path; simpl in H; try done;
    by destruct (isObject h (HRef l)).
Qed.

(** The cells on a spine exist. *)
Lemma spine_allocated h v path ls :
  wf h -> spine h v path = Some ls -> Forall (fun l => l < next h) ls.
Proof.
  intros Hwf. revert v ls. induction path as [|k path IH]; intros v ls H;
    destruct (spine_inv _ _ _ _ H) as (l & ps & -> & Hl);
    rewrite (spine_object _ _ _ _ Hl) in H.
  - injection H as <-. constructor; [by eapply Hwf|done].
  - destruct (spine h _ path) as [ls0|] eqn:Hs; [|done]. injection H as <-.
    constructor; [by eapply Hwf|by eapply IH].
Qed.

(** A spine only depends on its own cells. *)
Lemma spine_stable h h' v path ls :
  spine h v path = Some ls ->
  (forall l, l ∈ ls -> cells h' !! l = cells h !! l) ->
  spine h' v path = Some ls.
Proof.
  revert v ls. induction path as [|k path IH]; intros v ls H Hsame;
    destruct (spine_inv _ _ _ _ H) as (l & ps & -> & Hl);
    rewrite (spine_object _ _ _ _ Hl) in H.
  - injection H as <-.
    rewrite (spine_object h' l ps); [done|].
    rewrite Hsame; [done|]. apply elem_of_cons. by left.
  - destruct (spine h _ path) as [ls0|] eqn:Hs; [|done]. injection H as <-.
    rewrite (spine_object h' l ps).
    + erewrite IH; [done|exact Hs|].
      intros l' Hl'. apply Hsame. apply elem_of_cons. by right.
    + rewrite Hsame; [done|]. apply elem_of_cons. by left.
Qed.

Lemma fresh_spine_weaken n m h v path :
  m <= n -> fresh_spine n h v path -> fresh_spine m h v path.
Proof.
  intros Hle (ls & Hs & Hall). exists ls. split; [done|].
  eapply Forall_impl; [exact Hall|]. simpl. lia.
Qed.

(** A fresh spine survives writes to an older object and allocation. *)
Lemma fresh_spine_frame n r h h' v path :
  wf h -> r < n -> frame (Some r) h h' ->
  fresh_spine n h v path -> fresh_spine n h' v path.
Proof.
  intros Hwf Hr (_ & _ & Hsame) (ls & Hs & Hall). exists ls. split; [|done].
  eapply spine_stable; [exact Hs|].
  pose proof (spine_allocated _ _ _ _ Hwf Hs) as Halloc.
  rewrite Forall_forall in Hall, Halloc.
  intros l Hl. apply Hsame; [by apply Halloc|].
  intros [= ->]. specialize (Hall _ Hl). lia.
Qed.

(** *** The loop *)

Lemma isArray_not_object h v : isArray h v = true -> isObject h v = false.
Proof. unfold isArray, isObject. by destruct (cell_of h v) as [[]|]. Qed.

(** One round of the loop: a value [v] is computed in a store [hm] that
    only adds cells, then written under [key] of the result. *)
Lemma merge_key_inv recur r t s key h h' :
  framing recur -> wf h ->
  merge_key recur r t s key h = Some h' ->
  exists v hm,
    frame None h hm /\ h' = write r key v hm
    /\ (isObject h (hprop h s key) = false
        \/ (isObject h (hprop h t key) = true
            /\ recur (hprop h t key) (hprop h s key) h = Some (v, hm))
        \/ (isObject h (hprop h t key) = false
            /\ recur (HRef (next h)) (hprop h s key) (alloc (CellObj []) h).2
               = Some (v, hm))).
Proof.
  intros Hrec Hwf. unfold merge_key.
  destruct (isArray h (hprop h t key) && isArray h (hprop h s key)) eqn:Ha.
  { apply andb_true_iff in Ha as [_ Ha].
    destruct (alloc_frame (CellArr (elems_of h (hprop h t key)
                                      ++ elems_of h (hprop h s key))) h Hwf)
      as (Hf & _).
    destruct (alloc _ h) as [a h2]. simpl in *. intros [= <-].
    exists (HRef a), h2. auto using isArray_not_object. }
  destruct (isObject h (hprop h t key)) eqn:Ht;
    destruct (isObject h (hprop h s key)) eqn:Hs; cbn [andb].
  - destruct (recur _ _ h) as [[v h2]|] eqn:Hr; [|done]. intros [= <-].
    exists v, h2. split; [by eapply Hrec|]. auto.
  - intros [= <-]. exists (hprop h s key), h. auto using frame_refl.
  - destruct (alloc_frame (CellObj []) h Hwf) as (Hf & Hl & _).
    destruct (alloc (CellObj []) h) as [e h2] eqn:Hal. simpl in *. subst e.
    destruct (recur _ _ h2) as [[v h3]|] eqn:Hr; [|done]. intros [= <-].
    exists v, h3. split.
    + eapply frame_trans; [exact Hf|]. eapply Hrec; [apply Hf|exact Hr].
    + auto.
  - intros [= <-]. exists (hprop h s key), h. auto using frame_refl.
Qed.

Lemma frame_cell r h h' l c :
  wf h -> frame r h h' -> Some l <> r ->
  cells h !! l = Some c -> cells h' !! l = Some c.
Proof.
  intros Hwf (_ & _ & Hsame) Hr Hl. rewrite Hsame; [done| |done].
  by eapply Hwf.
Qed.

Lemma frame_isObject r h h' v :
  wf h -> frame r h h' -> (forall l, r = Some l -> v <> HRef l) ->
  isObject h v = true -> isObject h' v = true.
Proof.
  intros Hwf Hf Hr Hv. apply isObject_cell in Hv as (l & ps & -> & Hl).
  apply isObject_cell. exists l, ps. split; [done|].
  eapply frame_cell; eauto. intros <-. by eapply Hr.
Qed.

(** The result keeps being an object, with [key] set. *)
Lemma merge_key_result recur r t s key h h' ps :
  framing recur -> wf h -> cells h !! r = Some (CellObj ps) ->
  merge_key recur r t s key h = Some h' ->
  exists v, cells h' !! r = Some (CellObj (hset key v ps)).
Proof.
  intros Hrec Hwf Hr Hm.
  destruct (merge_key_inv _ _ _ _ _ _ _ Hrec Hwf Hm) as (v & hm & Hf & -> & _).
  exists v. apply write_object. by eapply frame_cell.
Qed.

Lemma merge_key_fresh recur r t s key h h' ps path ls :
  framing recur -> copying recur -> wf h ->
  cells h !! r = Some (CellObj ps) ->
  merge_key recur r t s key h = Some h' ->
  spine h (hprop h s key) path = Some ls ->
  fresh_spine (next h) h' (hprop h' (HRef r) key) path.
Proof.
  intros Hrec Hcopy Hwf Hr Hm Hs.
  assert (Hrn : r < next h) by (by eapply Hwf).
  destruct (spine_inv _ _ _ _ Hs) as (ls0 & ps0 & Hsv & Hls0).
  assert (Hobj : isObject h (hprop h s key) = true).
  { apply isObject_cell. eauto. }
  destruct (merge_key_inv _ _ _ _ _ _ _ Hrec Hwf Hm)
    as (v & hm & Hf & -> & [Hno|[[Ht Hcall]|[Ht Hcall]]]).
  { congruence. }
  all: assert (Hv : hprop (write r key v hm) (HRef r) key = v)
    by (unfold hprop, props_of, cell_of;
        erewrite write_object by (by eapply frame_cell);
        simpl; by rewrite hlookup_hset_eq).
  all: rewrite Hv.
  all: eapply fresh_spine_frame;
    [apply Hf|exact Hrn|apply write_frame, Hf|].
  - exact (Hcopy _ _ _ _ _ Hwf Ht Hobj Hcall _ _ Hs).
  - destruct (alloc_frame (CellObj []) h Hwf) as (Hfa & _ & Hna & Hca).
    eapply fresh_spine_weaken; [|eapply Hcopy; [apply Hfa| | |exact Hcall|]].
    + rewrite Hna. lia.
    + apply isObject_cell. eauto.
    + eapply frame_isObject; [exact Hwf|exact Hfa|done|exact Hobj].
    + eapply spine_stable; [exact Hs|].
      intros l Hl. destruct Hfa as (_ & _ & Hsame). apply Hsame; [|done].
      pose proof (spine_allocated _ _ _ _ Hwf Hs) as Hall.
      rewrite Forall_forall in Hall. by apply Hall.
Qed.

Lemma hprop_same h h' l k :
  cells h' !! l = cells h !! l -> hprop h' (HRef l) k = hprop h (HRef l) k.
Proof. intros H. unfold hprop, props_of, cell_of. by rewrite H. Qed.

Lemma loop_step recur t s h0 key done h h' :
  framing recur -> copying recur -> wf h0 -> isObject h0 s = true ->
  loop_inv h0 (next h0) s done h ->
  merge_key recur (next h0) t s key h = Some h' ->
  loop_inv h0 (next h0) s (done ++ [key]) h'.
Proof.
  intros Hrec Hcopy Hwf0 Hs (Hwf & Hr & Hold & (ps & Hres) & Hdone) Hm.
  pose proof (merge_key_frame _ _ _ _ _ _ _ Hrec Hwf Hm) as Hf.
  destruct (merge_key_result _ _ _ _ _ _ _ _ Hrec Hwf Hres Hm) as (v & Hres').
  apply isObject_cell in Hs as (l_s & pss & -> & Hls).
  assert (Hlt : l_s < next h0) by (by eapply Hwf0).
  repeat apply conj.
  - apply Hf.
  - destruct Hf as (_ & Hn & _). lia.
  - intros l Hl. destruct Hf as (_ & _ & Hsame).
    rewrite Hsame; [by apply Hold|lia|]. intros [= ->]. lia.
  - eauto.
  - intros k Hk path ls Hsp.
    destruct (decide (k = key)) as [->|Hne].
    + eapply fresh_spine_weaken;
        [|eapply (merge_key_fresh _ _ _ _ _ _ _ _ _ ls Hrec Hcopy Hwf Hres Hm)].
      * lia.
      * rewrite (hprop_same h0 h) by (by apply Hold).
        eapply spine_stable; [exact Hsp|].
        pose proof (spine_allocated _ _ _ _ Hwf0 Hsp) as Hall.
        rewrite Forall_forall in Hall.
        intros l Hl. apply Hold. by apply Hall.
    + apply elem_of_app in Hk as [Hk|Hk];
        [|by apply list_elem_of_singleton in Hk].
      assert (Hp : hprop h' (HRef (next h0)) k = hprop h (HRef (next h0)) k).
      { unfold hprop, props_of, cell_of. rewrite Hres, Hres'.
        by rewrite hlookup_hset_ne by done. }
      rewrite Hp. eapply fresh_spine_frame; [exact Hwf| |exact Hf|by eapply Hdone].
      lia.
Qed.

Lemma loop_fresh recur t s h0 keys :
  framing recur -> copying recur -> wf h0 -> isObject h0 s = true ->
  forall done h h',
    loop_inv h0 (next h0) s done h ->
    foldM (merge_key recur (next h0) t s) keys h = Some h' ->
    loop_inv h0 (next h0) s (done ++ keys) h'.
Proof.
  intros Hrec Hcopy Hwf0 Hs.
  induction keys as [|key keys IH]; intros done h h' Hinv; simpl.
  - intros [= <-]. by rewrite app_nil_r.
  - destruct (merge_key _ _ _ _ key h) as [h1|] eqn:Hm; [|done]. intros Hrest.
    replace (done ++ key :: keys) with ((done ++ [key]) ++ keys)
      by (by rewrite <- app_assoc).
    eapply IH; [|exact Hrest]. by eapply loop_step.
Qed.

(** For two objects, deepMerge returns a new object, and every object
    on its spine along a path through the objects of the source is new. *)
Lemma deepMerge_copying fuel : copying (deepMerge fuel).
Proof.
  induction fuel as [|fuel IH]; intros t s h v h' Hwf Ht Hs; [done|].
  cbn [deepMerge]. rewrite Ht, Hs. cbn [negb orb].
  destruct (alloc_frame (CellObj (props_of h t)) h Hwf) as (Hf & Hl & Hn & Hc).
  destruct (alloc _ h) as [r h1]. simpl in *. subst r.
  destruct (foldM _ _ h1) as [h2|] eqn:Hfold; [|done]. intros [= <- <-].
  assert (Hinv0 : loop_inv h (next h) s [] h1).
  { repeat apply conj.
    - apply Hf.
    - lia.
    - intros l Hl. destruct Hf as (_ & _ & Hsame). by apply Hsame.
    - eauto.
    - intros k Hk. by apply elem_of_nil in Hk. }
  pose proof (loop_fresh _ _ _ _ _ (deepMerge_frame fuel) IH Hwf Hs
                _ _ _ Hinv0 Hfold) as (Hwf2 & Hr2 & Hold & (ps & Hres) & Hkeys).
  simpl in Hkeys.
  intros path ls Hsp.
  destruct (spine_inv _ _ _ _ Hsp) as (l_s & pss & -> & Hls).
  rewrite (spine_object _ _ _ _ Hls) in Hsp.
  unfold fresh_spine. rewrite (spine_object _ _ _ _ Hres).
  destruct path as [|k path].
  - eexists. split; [reflexivity|]. by constructor.
  - destruct (spine h (default HUndefined (hlookup k pss)) path)
      as [ls0|] eqn:Hsub; [|done].
    assert (Hk : k ∈ map fst (props_of h (HRef l_s))).
    { unfold props_of, cell_of. rewrite Hls.
      destruct (hlookup k pss) as [x|] eqn:Hx; [by eapply hlookup_Some_in|].
      simpl in Hsub. by destruct path. }
    destruct (Hkeys k Hk path ls0) as (ls' & Hs' & Hall).
    { unfold hprop, props_of, cell_of. by rewrite Hls. }
    unfold hprop, props_of, cell_of in Hs'. rewrite Hres in Hs'. rewrite Hs'.
    eexists. split; [reflexivity|]. constructor; [lia|].
    eapply Forall_impl; [exact Hall|]. simpl. lia.
Qed.

(** *** Termination *)

Lemma sized_stable n n' h h' d v :
  n <= n' -> (forall l : loc, l < n -> cells h' !! l = cells h !! l) ->
  sized n h d v -> sized n' h' d v.
Proof.
  intros Hn Hsame. revert v. induction d as [|d IH]; intros [| | | | | |l];
    simpl; try done; intros [Hl Hc]; (split; [lia|]);
    rewrite (Hsame l Hl); destruct (cells h !! l) as [[xs|ps]|]; try done.
  eapply Forall_impl; [exact Hc|]. intros [k x]. apply IH.
Qed.

Lemma sized_hprop n h d l ps k :
  cells h !! l = Some (CellObj ps) ->
  sized n h (S d) (HRef l) -> sized n h d (hprop h (HRef l) k).
Proof.
  intros Hl [_ Hs]. simpl in Hs. rewrite Hl in Hs.
  unfold hprop, props_of, cell_of. rewrite Hl. clear Hl.
  induction ps as [|[k' x] ps IH]; simpl.
  - by destruct d.
  - apply Forall_cons in Hs as [Hx Hps].
    destruct (String.eqb k k'); [exact Hx|by apply IH].
Qed.

Lemma merge_key_returns recur d r t s key h :
  returning d recur -> wf h -> sized (next h) h d (hprop h s key) ->
  is_Some (merge_key recur r t s key h).
Proof.
  intros Hret Hwf Hsz. unfold merge_key.
  destruct (_ && _); [by destruct (alloc _ h)|].
  destruct (_ && _).
  { destruct (Hret (hprop h t key) (hprop h s key) h Hwf Hsz) as [[v h2] ->].
    done. }
  destruct (isObject h (hprop h s key)); [|done].
  destruct (alloc_frame (CellObj []) h Hwf) as (Hf & Hl & Hn & _).
  destruct (alloc (CellObj []) h) as [e h2]. simpl in *.
  destruct (Hret (HRef e) (hprop h s key) h2) as [[v h3] ->]; [apply Hf| |done].
  destruct Hf as (_ & Hle & Hsame).
  eapply sized_stable; [exact Hle| |exact Hsz]. intros l Hlt. by apply Hsame.
Qed.

Lemma loop_returns recur d t l_s pss h0 keys :
  framing recur -> returning d recur -> wf h0 ->
  cells h0 !! l_s = Some (CellObj pss) ->
  sized (next h0) h0 (S d) (HRef l_s) ->
  forall h,
    wf h -> next h0 <= next h ->
    (forall l, l < next h0 -> cells h !! l = cells h0 !! l) ->
    is_Some (foldM (merge_key recur (next h0) t (HRef l_s)) keys h).
Proof.
  intros Hrec Hret Hwf0 Hls Hsz.
  induction keys as [|key keys IH]; intros h Hwf Hn Hold; simpl; [done|].
  assert (Hlt : l_s < next h0) by (by eapply Hwf0).
  destruct (merge_key_returns recur d (next h0) t (HRef l_s) key h Hret Hwf)
    as [h1 Hm].
  { rewrite (hprop_same h0 h) by (by apply Hold).
    eapply sized_stable; [exact Hn| |by eapply sized_hprop].
    intros l Hl. by apply Hold. }
  rewrite Hm.
  pose proof (merge_key_frame _ _ _ _ _ _ _ Hrec Hwf Hm) as (Hwf1 & Hn1 & Hsame).
  apply IH; [done|lia|].
  intros l Hl. rewrite Hsame; [by apply Hold|lia|]. intros [= ->]. lia.
Qed.

Lemma deepMerge_S fuel t s h :
  deepMerge (S fuel) t s h
  = if negb (isObject h t) || negb (isObject h s) then
      if isObject h s then
        let '(l, h1) := alloc (CellObj (props_of h s)) h in Some (HRef l, h1)
      else Some (s, h)
    else
      let '(result, h1) := alloc (CellObj (props_of h t)) h in
      match foldM (merge_key (deepMerge fuel) result t s)
                  (map fst (props_of h s)) h1 with
      | Some h' => Some (HRef result, h')
      | None => None
      end.
Proof. reflexivity. Qed.

(** With fuel beyond the depth of the source, deepMerge returns. *)
Lemma deepMerge_returning d : returning d (deepMerge (S d)).
Proof.
  induction d as [|d IH]; intros t s h Hwf Hsz; rewrite deepMerge_S.
  - destruct (negb (isObject h t) || negb (isObject h s)) eqn:E.
    + destruct (isObject h s); [by destruct (alloc _ h)|done].
    + apply orb_false_iff in E as [_ Hs]. apply negb_false_iff in Hs.
      apply isObject_cell in Hs as (l & ps & -> & Hl).
      simpl in Hsz. rewrite Hl in Hsz. tauto.
  - destruct (negb (isObject h t) || negb (isObject h s)) eqn:E.
    + destruct (isObject h s); [by destruct (alloc _ h)|done].
    + apply orb_false_iff in E as [_ Hs]. apply negb_false_iff in Hs.
      apply isObject_cell in Hs as (l & ps & -> & Hl).
      destruct (alloc_frame (CellObj (props_of h t)) h Hwf)
        as (Hf & Ha & Hn & _).
      destruct (alloc _ h) as [r h1]. cbn [fst snd] in *. subst r.
      destruct (loop_returns _ d t l ps h
                  (map fst (props_of h (HRef l)))
                  (deepMerge_frame (S d)) IH Hwf Hl Hsz h1) as [h2 ->];
        [apply Hf|lia| |done].
      intros l' Hl'. destruct Hf as (_ & _ & Hsame). by apply Hsame.
Qed.

Lemma wf_heap_of cs : wf (heap_of cs).
Proof.
  unfold heap_of.
  assert (Hgen : forall h, wf h -> wf (fold_left (fun h c => (alloc c h).2) cs h)).
  { induction cs as [|c cs IH]; intros h Hwf; simpl; [done|].
    apply IH. by destruct (alloc_frame c h Hwf) as ((? & _) & _). }
  apply Hgen. intros l c. simpl. by rewrite lookup_empty.
Qed.

Lemma fresh_cell h l : wf h -> next h <= l -> cells h !! l = None.
Proof.
  intros Hwf Hl. destruct (cells h !! l) as [c|] eqn:E; [|done].
  apply Hwf in E. lia.
Qed.

(** C6, as the code has it.  deepMerge never writes to a cell that existed
    before the call, so target and source are not mutated.  When both
    are mappings, the result and every mapping of the result reached by
    a path through nested mappings of the source is a new object.  A
    mapping merged into a non-mapping is copied one level deep.  Arrays
    and the target's own nested mappings are not copied. *)
Theorem deepMerge_frame_and_fresh_spine :
  (* no cell of the store before the call is changed *)
  (forall fuel t s h v h',
     wf h -> deepMerge fuel t s h = Some (v, h') ->
     forall l c, cells h !! l = Some c -> cells h' !! l = Some c)
  (* merging two objects: the result, and each object of the result
     reached by a path through nested objects of the source, is new *)
  /\ (forall fuel t s h v h',
        wf h -> isObject h t = true -> isObject h s = true ->
        deepMerge fuel t s h = Some (v, h') ->
        forall path ls,
          spine h s path = Some ls ->
          exists ls',
            spine h' v path = Some ls'
            /\ Forall (fun l => cells h !! l = None) ls')
  (* an object merged into a non-object: a new object with the
     properties of the source as they are *)
  /\ (forall fuel t s h,
        wf h -> isObject h t = false -> isObject h s = true ->
        exists h',
          deepMerge (S fuel) t s h = Some (HRef (next h), h')
          /\ cells h !! next h = None
          /\ cells h' !! next h = Some (CellObj (props_of h s)))
  (* the call returns when the fuel exceeds the nesting of the source *)
  /\ (forall d t s h,
        wf h -> sized (next h) h d s ->
        exists v h', deepMerge (S d) t s h = Some (v, h')).
Proof.
  repeat apply conj.
  - intros fuel t s h v h' Hwf Hm l c Hl.
    eapply frame_cell; [exact Hwf|by eapply deepMerge_frame|done|exact Hl].
  - intros fuel t s h v h' Hwf Ht Hs Hm path ls Hsp.
    destruct (deepMerge_copying fuel _ _ _ _ _ Hwf Ht Hs Hm _ _ Hsp)
      as (ls' & Hs' & Hall).
    exists ls'. split; [done|].
    eapply Forall_impl; [exact Hall|]. intros l. by apply fresh_cell.
  - intros fuel t s h Hwf Ht Hs. rewrite deepMerge_S, Ht, Hs. cbn [negb orb].
    eexists. split; [reflexivity|]. split; [by apply fresh_cell|].
    simpl. by rewrite lookup_insert_eq.
  - intros d t s h Hwf Hsz.
    destruct (deepMerge_returning d t s h Hwf Hsz) as [[v h'] Hm]. eauto.
Qed.

Lemma deepMerge_frame_and_fresh_spine_witness :
  exists v h' ls',
    deepMerge 2 (HRef 1) (HRef 3) sample_heap = Some (v, h')
    /\ spine h' v ["a"] = Some ls'
    /\ Forall (fun l => cells sample_heap !! l = None) ls'.
Proof.
  destruct (deepMerge 2 (HRef 1) (HRef 3) sample_heap) as [[v h']|] eqn:Hm;
    [|vm_compute in Hm; discriminate].
  destruct deepMerge_frame_and_fresh_spine as (_ & H & _).
  destruct (H 2 (HRef 1) (HRef 3) sample_heap v h' (wf_heap_of _)
              eq_refl eq_refl Hm ["a"] [3; 2] eq_refl) as (ls' & Hs & Hall).
  exists v, h', ls'. auto.
Defined.

Lemma deepMerge_result_shares_with_source :
  (* both arguments are mappings: the array of source is the array of
     the result, and with it the mapping inside *)
  (exists h',
     deepMerge 2 (HRef 3) (HRef 2) shared_array_heap = Some (HRef 4, h')
     /\ hprop shared_array_heap (HRef 2) "x" = HRef 1
     /\ hprop h' (HRef 4) "x" = HRef 1
     /\ elems_of h' (HRef 1) = [HRef 0]
     /\ hprop h' (HRef 0) "id" = HNum 1
     /\ let h'' := write 0 "id" (HNum 2) h' in
        elems_of h'' (hprop h'' (HRef 4) "x") = [HRef 0]
        /\ hprop h'' (HRef 0) "id" = HNum 2)
  (* the target is not a mapping: the nested mapping of source is the
     nested mapping of the result *)
  /\ (exists h',
        deepMerge 2 HUndefined (HRef 1) nested_heap = Some (HRef 2, h')
        /\ hprop nested_heap (HRef 1) "n" = HRef 0
        /\ hprop h' (HRef 2) "n" = HRef 0
        /\ hprop h' (hprop h' (HRef 2) "n") "id" = HNum 1
        /\ let h'' := write 0 "id" (HNum 2) h' in
           hprop h'' (hprop h'' (HRef 2) "n") "id" = HNum 2).
Proof.
  split; eexists; (split; [vm_compute; reflexivity|]); by vm_compute.
Qed.

(** *** Agreement with the merge on trees *)

(** On the test's input the run in the store denotes the merge of the
    trees that the arguments denote. *)
Example deepMerge_in_store_agrees_on_test :
  exists v h' target source,
    deepMerge 4 (HRef 2) (HRef 7) test_heap = Some (v, h')
    /\ readback 4 test_heap (HRef 2) = Some target
    /\ readback 4 test_heap (HRef 7) = Some source
    /\ readback 4 h' v = Some (DeepMerge.deepMerge target source).
Proof.
  do 4 eexists. repeat apply conj; vm_compute; reflexivity.
Qed.

End HeapFacts.
